(** * The DTEF tileset importer (skytemple_dtef/explorers_dtef_importer.py)

    A shallow embedding of [ExplorersDtefImporter] and proofs about it.

    Python objects are modelled as follows.
    - Python [int] is [Z]; [str] is [string] (8-bit characters); [bytes]
      and pixel sequences are [list Z].
    - A [dict] is a [gmap]; a [list] that is only read or appended to is a
      Rocq [list].
    - [dma.chunk_mappings] is a Python list that is mutated in place and
      whose reference is saved and restored by the importer; it lives in an
      explicit heap of list objects and is addressed by a reference.
    - An exception is a value of [Exception]; a method is a function in the
      monad [M] that threads the importer state and keeps the state reached
      when an exception is raised, as Python does.
    - The file system, the image decoder, the XML parser and the target
      codec are capabilities collected in [World]; constants imported from
      modules that are not part of this file are collected in [Constants]. *)

From stdpp Require Import gmap strings list fin_maps.
From Stdlib Require Import ZArith Ascii.

Local Open Scope Z_scope.

(** ** Exceptions *)

(** The places where the importer itself raises [ValueError], in source
    order, and the [ValueError]s of the built-ins it calls. *)
Inductive ValueErrorKind :=
  | InvalidDimensions            (* do_import: dimensions != CHUNK_DIM *)
  | UnsupportedAnimationPalette  (* do_import: palette is neither 10 nor 11 *)
  | MissingFile (fn : string)    (* _assert_file_exists *)
  | NotIndexed (basename : string)      (* _open_tileset: mode != 'P' *)
  | PaletteNot256RGB (basename : string) (* _open_tileset *)
  | PaletteMismatch (basename : string)  (* _open_tileset *)
  | ImageTooSmall (fn : string)  (* _import_tileset *)
  | UnknownMappingType (typ : string)   (* _import_additional_tiles *)
  | InvalidVariationIndex (var_idx : Z) (* _import_additional_tiles *)
  | FrameWithout16Colors         (* _prepare_import_animation *)
  | InvalidIntLiteral (s : string)      (* int(s), int(s, 16) *)
  | RangeStepZero.               (* range(a, b, 0) *)

Inductive Exception :=
  | ValueError (kind : ValueErrorKind)
  | XmlValidateError (expected : string)  (* validate_xml_tag / _attribs *)
  | KeyError
  | IndexError
  | TypeError
  | AssertionError
  | ZeroDivisionError
  | ExternalError (msg : string). (* raised inside a [World] capability *)

#[global] Instance ValueErrorKind_eq_dec : EqDecision ValueErrorKind.
Proof. solve_decision. Defined.

#[global] Instance Exception_eq_dec : EqDecision Exception.
Proof. solve_decision. Defined.

(** ** Built-ins: [int], slices, [range], list item assignment *)

(** Whitespace as [int()] strips it (the ASCII part of [str.isspace]). *)
Definition py_isspace (c : ascii) : bool :=
  let n := Z.of_nat (nat_of_ascii c) in
  ((9 <=? n) && (n <=? 13)) || ((28 <=? n) && (n <=? 32)).

Fixpoint lstrip (s : string) : string :=
  match s with
  | String c s' => if py_isspace c then lstrip s' else s
  | EmptyString => s
  end.

Definition strip (s : string) : string :=
  String.rev (lstrip (String.rev (lstrip s))).

(** The value of a character as a digit: 0-9, then a-z and A-Z from 10. *)
Definition digit_value (c : ascii) : option Z :=
  let n := Z.of_nat (nat_of_ascii c) in
  if (48 <=? n) && (n <=? 57) then Some (n - 48)
  else if (97 <=? n) && (n <=? 122) then Some (n - 87)
  else if (65 <=? n) && (n <=? 90) then Some (n - 55)
  else None.

Definition digit_in_base (base : Z) (c : ascii) : option Z :=
  match digit_value c with
  | Some d => if d <? base then Some d else None
  | None => None
  end.

(** Digits with single underscores between them; [after_digit] tells
    whether the previous character was a digit. *)
Fixpoint parse_digits (base acc : Z) (after_digit : bool) (s : string)
  : option Z :=
  match s with
  | EmptyString => if after_digit then Some acc else None
  | String c s' =>
      if Ascii.eqb c "_"
      then (if after_digit then parse_digits base acc false s' else None)
      else match digit_in_base base c with
           | Some d => parse_digits base (acc * base + d) true s'
           | None => None
           end
  end.

Definition parse_sign (s : string) : Z * string :=
  match s with
  | String "+" s' => (1, s')
  | String "-" s' => (-1, s')
  | _ => (1, s)
  end.

(** After the sign, base 16 accepts the prefix [0x] or [0X], which an
    underscore may follow. *)
Definition strip_base_prefix (base : Z) (s : string) : string :=
  if base =? 16 then
    match s with
    | String "0" (String "x" (String "_" s'))
    | String "0" (String "X" (String "_" s'))
    | String "0" (String "x" s')
    | String "0" (String "X" s') => s'
    | _ => s
    end
  else s.

(** [int(s, base)] for base 10 or 16. *)
Definition py_int_base (base : Z) (s : string) : Exception + Z :=
  let '(sign, body) := parse_sign (strip s) in
  match parse_digits base 0 false (strip_base_prefix base body) with
  | Some n => inr (sign * n)
  | None => inl (ValueError (InvalidIntLiteral s))
  end.

Definition py_int (s : string) : Exception + Z := py_int_base 10 s.

(** [s[i:i+n]] for [0 <= i]. *)
Definition slice (s : string) (i n : nat) : string := String.substring i n s.

(** [range(start, stop, step)] *)
Definition py_range (start stop step : Z) : Exception + list Z :=
  if step =? 0 then inl (ValueError RangeStepZero)
  else
    let n := if 0 <? step then (stop - start + step - 1) / step
             else (start - stop - step - 1) / (- step) in
    inr ((fun k : nat => start + Z.of_nat k * step) <$> seq 0 (Z.to_nat n)).

(** [enumerate(l)] *)
Fixpoint enumerate_from {A} (i : Z) (l : list A) : list (Z * A) :=
  match l with
  | [] => []
  | a :: l' => (i, a) :: enumerate_from (i + 1) l'
  end.

Definition enumerate {A} (l : list A) : list (Z * A) := enumerate_from 0 l.

(** The position [l[i]] denotes, when there is one: a negative index
    counts from the end. *)
Definition py_index {A} (l : list A) (i : Z) : option nat :=
  let n := Z.of_nat (length l) in
  if (0 <=? i) && (i <? n) then Some (Z.to_nat i)
  else if (- n <=? i) && (i <? 0) then Some (Z.to_nat (n + i))
  else None.

(** [l[i]] *)
Definition py_getitem {A} (l : list A) (i : Z) : Exception + A :=
  match py_index l i ≫= (l !!.) with
  | Some a => inr a
  | None => inl IndexError
  end.

(** [l[i] = v]: the list after the assignment. *)
Definition py_setitem {A} (l : list A) (i : Z) (v : A) : Exception + list A :=
  match py_index l i with
  | Some k => inr (<[k := v]> l)
  | None => inl IndexError
  end.

(** ** Images (PIL) *)

(** An image as the importer sees it (PIL is not part of the sources):
    [palette_mode] and [palette] are [pil.palette.mode] and the bytes
    [pil.palette.palette]; [getdata] is the pixel sequence
    [list(pil.getdata())], row by row.  How PIL compares the objects
    [pil.getdata()] of two images is left to [getdata_eq] of [World]. *)
Record Image := {
  mode : string;
  palette_mode : string;
  palette : list Z;
  width : Z;
  height : Z;
  getdata : list Z
}.

#[global] Instance Image_eq_dec : EqDecision Image.
Proof. solve_decision. Defined.

(** The pixel at column [x], row [y]; 0 outside the image. *)
Definition getpixel (im : Image) (x y : Z) : Z :=
  if (0 <=? x) && (x <? width im) && (0 <=? y) && (y <? height im)
  then default 0 (getdata im !! Z.to_nat (y * width im + x))
  else 0.

(** The pixels of the rectangle with corner [(x0, y0)] and the given size,
    row by row, computed by [pixel]. *)
Definition raster (pixel : Z → Z → Z) (x0 y0 w h : Z) : list Z :=
  concat ((fun y => (fun x => pixel x y) <$> seqZ x0 w) <$> seqZ y0 h).

(** [Image.new('P', (w, h))]: every pixel is 0. *)
Definition Image_new_P (default_palette : list Z) (w h : Z) : Image :=
  {| mode := "P"; palette_mode := "RGB"; palette := default_palette;
     width := w; height := h;
     getdata := raster (fun _ _ => 0) 0 0 w h |}.

(** [im.crop((x0, y0, x1, y1))]: the part of the box outside
    the image is filled with 0. *)
Definition crop (im : Image) (box : Z * Z * Z * Z) : Image :=
  let '(x0, y0, x1, y1) := box in
  {| mode := mode im; palette_mode := palette_mode im; palette := palette im;
     width := x1 - x0; height := y1 - y0;
     getdata := raster (getpixel im) x0 y0 (x1 - x0) (y1 - y0) |}.

(** [im.paste(src, (ox, oy))] *)
Definition paste (im src : Image) (ox oy : Z) : Image :=
  let pixel x y :=
    if (ox <=? x) && (x <? ox + width src) && (oy <=? y) && (y <? oy + height src)
    then getpixel src (x - ox) (y - oy) else getpixel im x y in
  {| mode := mode im; palette_mode := palette_mode im; palette := palette im;
     width := width im; height := height im;
     getdata := raster pixel 0 0 (width im) (height im) |}.

(** [im.putpalette(data)] with RGB data. *)
Definition putpalette (im : Image) (data : list Z) : Image :=
  {| mode := mode im; palette_mode := "RGB"; palette := data;
     width := width im; height := height im; getdata := getdata im |}.

Definition getpalette (im : Image) : list Z := palette im.

(** ** XML elements (xml.etree.ElementTree.Element) *)

#[warnings="-register-all"]
Inductive Element := mkElement {
  tag : string;
  attrib : gmap string string;
  text : option string;
  children : list Element
}.

(** ** Regular expressions of the shape [literal(\d+)] *)

Definition is_decimal (c : ascii) : bool :=
  let n := Z.of_nat (nat_of_ascii c) in (48 <=? n) && (n <=? 57).

Fixpoint strip_prefix (p s : string) : option string :=
  match p, s with
  | EmptyString, _ => Some s
  | String a p', String b s' => if Ascii.eqb a b then strip_prefix p' s' else None
  | String _ _, EmptyString => None
  end.

(** The longest run of decimal digits at the start of [s]. *)
Fixpoint leading_digits (s : string) : string :=
  match s with
  | String c s' => if is_decimal c then String c (leading_digits s') else EmptyString
  | EmptyString => EmptyString
  end.

(** [re.compile(literal + r"(\d+)").match(s)]: [None] when there is no
    match, else [m.group(1)].  [match] anchors the pattern at the start of
    [s] only, and [\d+] is greedy. *)
Definition re_match_literal_digits (literal s : string) : option string :=
  match strip_prefix literal s with
  | Some rest =>
      match leading_digits rest with
      | EmptyString => None
      | group1 => Some group1
      end
  | None => None
  end.

Definition PATTERN_FLOOR1 := re_match_literal_digits "EOS_EXTRA_FLOOR1_".
Definition PATTERN_FLOOR2 := re_match_literal_digits "EOS_EXTRA_FLOOR2_".
Definition PATTERN_WALL_OR_VOID := re_match_literal_digits "EOS_EXTRA_WALL_OR_VOID_".

(** ** The neighbor-mapping table (skytemple_files Dma) *)

Inductive DmaType := WALL | WATER | FLOOR.
Inductive DmaExtraType := FLOOR1 | WALL_OR_VOID | FLOOR2.

Definition DmaExtraType_value (t : DmaExtraType) : Z :=
  match t with FLOOR1 => 0 | WALL_OR_VOID => 1 | FLOOR2 => 2 end.

(** Modelled from the spec: the class [Dma] is imported from
    skytemple_files and is not part of this repository.  The target
    neighbor-mapping table is a flat array addressed by (terrain type, rule
    id, variation) that holds chunk-pool indices, followed by the named
    extra slots; the layout is the one of [Dma.get], [Dma.set],
    [Dma.get_extra] and [Dma.set_extra]. *)
Definition Dma_index (get_type : DmaType) (neighbors_same variation_index : Z) : Z :=
  let high_two := match get_type with WALL => 0 | WATER => 0x100 | FLOOR => 0x200 end in
  let idx := high_two + neighbors_same in
  idx * 3 + variation_index.

(** The position of slot [index] of an extra type: the named extra slots
    follow the [0x300 * 3] entries of the three terrain types, interleaved
    by type. *)
Definition Dma_extra_index (extra_type : DmaExtraType) (index : Z) : Z :=
  0x300 * 3 + DmaExtraType_value extra_type + 3 * index.

(** [Dma.get_extra(extra_type)] on the table [cm]: the entries from
    [0x300 * 3] on whose position is [extra_type] modulo 3. *)
Definition Dma_get_extra (cm : list Z) (extra_type : DmaExtraType) : list Z :=
  omap (fun i : Z => if i `mod` 3 =? DmaExtraType_value extra_type
                     then cm !! Z.to_nat i else None)
       (seqZ (0x300 * 3) (Z.of_nat (length cm) - 0x300 * 3)).

(** ** Constants and capabilities from outside this file *)

(** The constants [explorers_dtef_importer] imports: the tile dimensions of
    skytemple_files, the tile-sheet size of [explorers_dtef], the rule
    table [get_rule_variations(REMAP_RULES)] of [rules] (a [dict] from rule
    id to the set of neighbor-bit patterns, in iteration order), the tag and
    attribute names of [dungeon_xml], and the bit flags of [DmaNeighbor]. *)
Class Constants := {
  DPC_TILING_DIM : Z;
  DPCI_TILE_DIM : Z;
  TILESHEET_WIDTH : Z;
  TILESHEET_HEIGHT : Z;
  REMAP_RULE_VARIATIONS : list (Z * list Z);
  DUNGEON_TILESET : string;
  DIMENSIONS : string;
  ANIMATION : string;
  ANIMATION__PALETTE : string;
  ANIMATION__DURATION : string;
  ADDITIONAL_TILES : string;
  COLOR : string;
  FRAME : string;
  TILE : string;
  TILE__X : string;
  TILE__Y : string;
  TILE__FILE : string;
  MAPPING : string;
  SPECIAL_MAPPING : string;
  MAPPING__TYPE : string;
  MAPPING__TYPE__FLOOR : string;
  MAPPING__TYPE__WALL : string;
  MAPPING__TYPE__SECONDARY : string;
  MAPPING__nw : string;
  MAPPING__n : string;
  MAPPING__ne : string;
  MAPPING__e : string;
  MAPPING__se : string;
  MAPPING__s : string;
  MAPPING__sw : string;
  MAPPING__w : string;
  MAPPING__VARIATION : string;
  SPECIAL_MAPPING__IDENTIFIER : string;
  NORTH_WEST : Z;
  NORTH : Z;
  NORTH_EAST : Z;
  EAST : Z;
  SOUTH_EAST : Z;
  SOUTH : Z;
  SOUTH_WEST : Z;
  WEST : Z
}.

(** What the importer asks of its surroundings: [os.path], [Image.open],
    [ElementTree.parse(fn).getroot()], the palette PIL gives a new 'P'
    image, PIL's comparison [a.getdata() == b.getdata()] of the pixel
    access objects of two images, and the codec [dpc.pil_to_chunks], which
    replaces the chunks of the Dpc model and returns the tiles and the
    palettes. *)
Class World := {
  os_path_exists : string → bool;
  os_path_basename : string → string;
  os_path_join : string → string → string;
  Image_open : string → Exception + Image;
  ElementTree_parse : string → Exception + Element;
  PIL_default_palette : list Z;
  getdata_eq : Image → Image → bool;
  Dpc_pil_to_chunks :
    list (list Z) → Image → Exception + (list (list Z) * list (list Z) * list (list Z))
}.

(** ** The importer state *)

(** The objects an importer refers to. [heap] holds the Python lists that
    have been the value of [dma.chunk_mappings]; [dma_chunk_mappings] and
    [_dma__original_chunk_mappings] are references into it.  The fields
    [dpc_chunks] to [dpla_durations_per_frame_for_colors] are the
    attributes of the other four target models; the fields from [_dirname]
    on are the private attributes of [ExplorersDtefImporter]. *)
Record State := {
  heap : list (list Z);
  dma_chunk_mappings : nat;
  dpc_chunks : list (list Z);
  dpci_tiles : list (list Z);
  dpl_palettes : list (list Z);
  dpla_colors : list (list Z);
  dpla_durations_per_frame_for_colors : list Z;
  _dirname : option string;
  _tileset_file_map : gmap string Image;
  _tileset_chunk_map : gmap string (gmap (Z * Z) Z);
  _xml : option Element;
  _chunks : list Image;
  _palette : option (list Z);
  _dpla__colors : list (list Z);
  _dpla__durations_per_frame_for_colors : list Z;
  _dma__original_chunk_mappings : nat
}.

(** The list [dma.chunk_mappings] refers to. *)
Definition chunk_mappings (st : State) : list Z :=
  default [] (heap st !! dma_chunk_mappings st).

(** [Dma.get(get_type, neighbors_same)]: the three variations. *)
Definition Dma_get (st : State) (get_type : DmaType) (neighbors_same : Z) : list Z :=
  let i := Z.to_nat (Dma_index get_type neighbors_same 0) in
  take 3 (drop i (chunk_mappings st)).

(** Attribute assignments. *)
Definition with_heap (v : list (list Z)) (st : State) : State :=
  {| heap := v; dma_chunk_mappings := dma_chunk_mappings st;
     dpc_chunks := dpc_chunks st; dpci_tiles := dpci_tiles st;
     dpl_palettes := dpl_palettes st; dpla_colors := dpla_colors st;
     dpla_durations_per_frame_for_colors := dpla_durations_per_frame_for_colors st;
     _dirname := _dirname st; _tileset_file_map := _tileset_file_map st;
     _tileset_chunk_map := _tileset_chunk_map st; _xml := _xml st;
     _chunks := _chunks st; _palette := _palette st;
     _dpla__colors := _dpla__colors st;
     _dpla__durations_per_frame_for_colors := _dpla__durations_per_frame_for_colors st;
     _dma__original_chunk_mappings := _dma__original_chunk_mappings st |}.

Definition with_dma_chunk_mappings (v : nat) (st : State) : State :=
  {| heap := heap st; dma_chunk_mappings := v;
     dpc_chunks := dpc_chunks st; dpci_tiles := dpci_tiles st;
     dpl_palettes := dpl_palettes st; dpla_colors := dpla_colors st;
     dpla_durations_per_frame_for_colors := dpla_durations_per_frame_for_colors st;
     _dirname := _dirname st; _tileset_file_map := _tileset_file_map st;
     _tileset_chunk_map := _tileset_chunk_map st; _xml := _xml st;
     _chunks := _chunks st; _palette := _palette st;
     _dpla__colors := _dpla__colors st;
     _dpla__durations_per_frame_for_colors := _dpla__durations_per_frame_for_colors st;
     _dma__original_chunk_mappings := _dma__original_chunk_mappings st |}.

Definition with__dirname (v : option string) (st : State) : State :=
  {| heap := heap st; dma_chunk_mappings := dma_chunk_mappings st;
     dpc_chunks := dpc_chunks st; dpci_tiles := dpci_tiles st;
     dpl_palettes := dpl_palettes st; dpla_colors := dpla_colors st;
     dpla_durations_per_frame_for_colors := dpla_durations_per_frame_for_colors st;
     _dirname := v; _tileset_file_map := _tileset_file_map st;
     _tileset_chunk_map := _tileset_chunk_map st; _xml := _xml st;
     _chunks := _chunks st; _palette := _palette st;
     _dpla__colors := _dpla__colors st;
     _dpla__durations_per_frame_for_colors := _dpla__durations_per_frame_for_colors st;
     _dma__original_chunk_mappings := _dma__original_chunk_mappings st |}.

Definition with__tileset_file_map (v : gmap string Image) (st : State) : State :=
  {| heap := heap st; dma_chunk_mappings := dma_chunk_mappings st;
     dpc_chunks := dpc_chunks st; dpci_tiles := dpci_tiles st;
     dpl_palettes := dpl_palettes st; dpla_colors := dpla_colors st;
     dpla_durations_per_frame_for_colors := dpla_durations_per_frame_for_colors st;
     _dirname := _dirname st; _tileset_file_map := v;
     _tileset_chunk_map := _tileset_chunk_map st; _xml := _xml st;
     _chunks := _chunks st; _palette := _palette st;
     _dpla__colors := _dpla__colors st;
     _dpla__durations_per_frame_for_colors := _dpla__durations_per_frame_for_colors st;
     _dma__original_chunk_mappings := _dma__original_chunk_mappings st |}.

Definition with__tileset_chunk_map (v : gmap string (gmap (Z * Z) Z)) (st : State)
  : State :=
  {| heap := heap st; dma_chunk_mappings := dma_chunk_mappings st;
     dpc_chunks := dpc_chunks st; dpci_tiles := dpci_tiles st;
     dpl_palettes := dpl_palettes st; dpla_colors := dpla_colors st;
     dpla_durations_per_frame_for_colors := dpla_durations_per_frame_for_colors st;
     _dirname := _dirname st; _tileset_file_map := _tileset_file_map st;
     _tileset_chunk_map := v; _xml := _xml st;
     _chunks := _chunks st; _palette := _palette st;
     _dpla__colors := _dpla__colors st;
     _dpla__durations_per_frame_for_colors := _dpla__durations_per_frame_for_colors st;
     _dma__original_chunk_mappings := _dma__original_chunk_mappings st |}.

Definition with__xml (v : option Element) (st : State) : State :=
  {| heap := heap st; dma_chunk_mappings := dma_chunk_mappings st;
     dpc_chunks := dpc_chunks st; dpci_tiles := dpci_tiles st;
     dpl_palettes := dpl_palettes st; dpla_colors := dpla_colors st;
     dpla_durations_per_frame_for_colors := dpla_durations_per_frame_for_colors st;
     _dirname := _dirname st; _tileset_file_map := _tileset_file_map st;
     _tileset_chunk_map := _tileset_chunk_map st; _xml := v;
     _chunks := _chunks st; _palette := _palette st;
     _dpla__colors := _dpla__colors st;
     _dpla__durations_per_frame_for_colors := _dpla__durations_per_frame_for_colors st;
     _dma__original_chunk_mappings := _dma__original_chunk_mappings st |}.

Definition with__chunks (v : list Image) (st : State) : State :=
  {| heap := heap st; dma_chunk_mappings := dma_chunk_mappings st;
     dpc_chunks := dpc_chunks st; dpci_tiles := dpci_tiles st;
     dpl_palettes := dpl_palettes st; dpla_colors := dpla_colors st;
     dpla_durations_per_frame_for_colors := dpla_durations_per_frame_for_colors st;
     _dirname := _dirname st; _tileset_file_map := _tileset_file_map st;
     _tileset_chunk_map := _tileset_chunk_map st; _xml := _xml st;
     _chunks := v; _palette := _palette st;
     _dpla__colors := _dpla__colors st;
     _dpla__durations_per_frame_for_colors := _dpla__durations_per_frame_for_colors st;
     _dma__original_chunk_mappings := _dma__original_chunk_mappings st |}.

Definition with__palette (v : option (list Z)) (st : State) : State :=
  {| heap := heap st; dma_chunk_mappings := dma_chunk_mappings st;
     dpc_chunks := dpc_chunks st; dpci_tiles := dpci_tiles st;
     dpl_palettes := dpl_palettes st; dpla_colors := dpla_colors st;
     dpla_durations_per_frame_for_colors := dpla_durations_per_frame_for_colors st;
     _dirname := _dirname st; _tileset_file_map := _tileset_file_map st;
     _tileset_chunk_map := _tileset_chunk_map st; _xml := _xml st;
     _chunks := _chunks st; _palette := v;
     _dpla__colors := _dpla__colors st;
     _dpla__durations_per_frame_for_colors := _dpla__durations_per_frame_for_colors st;
     _dma__original_chunk_mappings := _dma__original_chunk_mappings st |}.

Definition with__dpla (colors : list (list Z)) (durations : list Z) (st : State)
  : State :=
  {| heap := heap st; dma_chunk_mappings := dma_chunk_mappings st;
     dpc_chunks := dpc_chunks st; dpci_tiles := dpci_tiles st;
     dpl_palettes := dpl_palettes st; dpla_colors := dpla_colors st;
     dpla_durations_per_frame_for_colors := dpla_durations_per_frame_for_colors st;
     _dirname := _dirname st; _tileset_file_map := _tileset_file_map st;
     _tileset_chunk_map := _tileset_chunk_map st; _xml := _xml st;
     _chunks := _chunks st; _palette := _palette st;
     _dpla__colors := colors;
     _dpla__durations_per_frame_for_colors := durations;
     _dma__original_chunk_mappings := _dma__original_chunk_mappings st |}.

Definition with_dpc_chunks (v : list (list Z)) (st : State) : State :=
  {| heap := heap st; dma_chunk_mappings := dma_chunk_mappings st;
     dpc_chunks := v; dpci_tiles := dpci_tiles st;
     dpl_palettes := dpl_palettes st; dpla_colors := dpla_colors st;
     dpla_durations_per_frame_for_colors := dpla_durations_per_frame_for_colors st;
     _dirname := _dirname st; _tileset_file_map := _tileset_file_map st;
     _tileset_chunk_map := _tileset_chunk_map st; _xml := _xml st;
     _chunks := _chunks st; _palette := _palette st;
     _dpla__colors := _dpla__colors st;
     _dpla__durations_per_frame_for_colors := _dpla__durations_per_frame_for_colors st;
     _dma__original_chunk_mappings := _dma__original_chunk_mappings st |}.

(** The four assignments of [_finalize]. *)
Definition with_targets (palettes tiles colors : list (list Z)) (durations : list Z)
  (st : State) : State :=
  {| heap := heap st; dma_chunk_mappings := dma_chunk_mappings st;
     dpc_chunks := dpc_chunks st; dpci_tiles := tiles;
     dpl_palettes := palettes; dpla_colors := colors;
     dpla_durations_per_frame_for_colors := durations;
     _dirname := _dirname st; _tileset_file_map := _tileset_file_map st;
     _tileset_chunk_map := _tileset_chunk_map st; _xml := _xml st;
     _chunks := _chunks st; _palette := _palette st;
     _dpla__colors := _dpla__colors st;
     _dpla__durations_per_frame_for_colors := _dpla__durations_per_frame_for_colors st;
     _dma__original_chunk_mappings := _dma__original_chunk_mappings st |}.

(** ** The monad of methods *)

(** A method maps the state before the call to its outcome, a raised
    exception or a returned value, and the state after it. *)
Definition M (A : Type) : Type := State → (Exception + A) * State.

Definition ret {A} (a : A) : M A := fun st => (inr a, st).

Definition bind {A B} (m : M A) (k : A → M B) : M B :=
  fun st =>
    match m st with
    | (inr a, st') => k a st'
    | (inl e, st') => (inl e, st')
    end.

#[global] Instance M_ret : MRet M := @ret.
#[global] Instance M_bind : MBind M := fun A B k m => bind m k.

Definition raise {A} (e : Exception) : M A := fun st => (inl e, st).

(** Reading and assigning attributes. *)
Definition gets {A} (f : State → A) : M A := fun st => (inr (f st), st).
Definition modify (f : State → State) : M unit := fun st => (inr tt, f st).

(** The outcome of a call that cannot touch the state. *)
Definition lift {A} (r : Exception + A) : M A :=
  match r with
  | inr a => ret a
  | inl e => raise e
  end.

(** [d[k]] on a dict: [KeyError] when [k] is missing. *)
Definition getitem {A} (o : option A) : M A :=
  match o with
  | Some a => ret a
  | None => raise KeyError
  end.

(** [try: body except BaseException: handler; raise] *)
Definition try_except_reraise {A} (body : M A) (handler : M unit) : M A :=
  fun st =>
    match body st with
    | (inr a, st') => (inr a, st')
    | (inl e, st') =>
        match handler st' with
        | (inr _, st'') => (inl e, st'')
        | (inl e', st'') => (inl e', st'')
        end
    end.

(** [for a in l: body(a)] *)
Fixpoint for_each {A} (l : list A) (body : A → M unit) : M unit :=
  match l with
  | [] => ret tt
  | a :: l' => bind (body a) (fun _ => for_each l' body)
  end.

(** A loop that updates local variables [acc]. *)
Fixpoint for_fold {A B} (l : list A) (acc : B) (body : B → A → M B) : M B :=
  match l with
  | [] => ret acc
  | a :: l' => bind (body acc a) (fun acc' => for_fold l' acc' body)
  end.

(** [if cond: raise e] *)
Definition raise_if (cond : bool) (e : Exception) : M unit :=
  if cond then raise e else ret tt.

(** [assert cond] *)
Definition py_assert (cond : bool) : M unit := raise_if (negb cond) AssertionError.

(** [ele.attrib[name]] *)
Definition attr (ele : Element) (name : string) : M string :=
  getitem (attrib ele !! name).

(** Modelled from the spec: [validate_xml_tag] and [validate_xml_attribs]
    are imported from skytemple_files.  Every consumed XML element must
    match the expected tag and carry the expected attributes, or the whole
    import aborts with a validation error. *)
Definition validate_xml_tag (ele : Element) (expected : string) : M unit :=
  raise_if (bool_decide (tag ele ≠ expected)) (XmlValidateError expected).

Definition validate_xml_attribs (ele : Element) (attribs : list string) : M unit :=
  for_each attribs (fun a =>
    raise_if (bool_decide (attrib ele !! a = None)) (XmlValidateError a)).

(** [self.dma.chunk_mappings[i] = v]: an assignment into the list object
    that [dma.chunk_mappings] refers to at the time of the call. *)
Definition chunk_mappings_setitem (i v : Z) : M unit :=
  fun st =>
    match py_setitem (chunk_mappings st) i v with
    | inr l => (inr tt, with_heap (<[dma_chunk_mappings st := l]> (heap st)) st)
    | inl e => (inl e, st)
    end.

(** [dma.set(get_type, neighbors_same, variation_index, value)] *)
Definition Dma_set (get_type : DmaType) (neighbors_same variation_index value : Z)
  : M unit :=
  chunk_mappings_setitem (Dma_index get_type neighbors_same variation_index) value.

(** [dma.set_extra(extra_type, index, value)] *)
Definition Dma_set_extra (extra_type : DmaExtraType) (index value : Z) : M unit :=
  chunk_mappings_setitem (Dma_extra_index extra_type index) value.

Definition _import_animation (ani0 ani1 : list (list Z)) (dur0 dur1 : Z) : M unit :=
  modify (with__dpla (ani0 ++ ani1) (replicate 16 dur0 ++ replicate 16 dur1)).

(** [tuple(int(h[i:i+2], 16) for i in (0, 2, 4))]; [h] is [None] for an
    element without text. *)
Definition _convert_hex_str_color_to_tuple (h : option string) : M (list Z) :=
  match h with
  | None => raise TypeError
  | Some h =>
      r ← lift (py_int_base 16 (slice h 0 2));
      g ← lift (py_int_base 16 (slice h 2 2));
      b ← lift (py_int_base 16 (slice h 4 2));
      ret [r; g; b]
  end.

Section Importer.
Context `{K : Constants} `{W : World}.

Definition CHUNK_DIM : Z := DPC_TILING_DIM * DPCI_TILE_DIM.

Definition EMPTY_IMAGE : list Z := replicate (Z.to_nat (CHUNK_DIM ^ 2)) 0.

(** The constructor, which [do_import] calls again to reset: every private
    attribute gets its initial value, the reference in [dma.chunk_mappings]
    is saved, and a new list of zeros of the same length takes its place. *)
Definition __init__ : M unit :=
  fun st =>
    (inr tt,
     {| heap := heap st ++ [replicate (length (chunk_mappings st)) 0];
        dma_chunk_mappings := length (heap st);
        dpc_chunks := dpc_chunks st; dpci_tiles := dpci_tiles st;
        dpl_palettes := dpl_palettes st; dpla_colors := dpla_colors st;
        dpla_durations_per_frame_for_colors := dpla_durations_per_frame_for_colors st;
        _dirname := None;
        _tileset_file_map := ∅;
        _tileset_chunk_map := ∅;
        _xml := None;
        _chunks := [Image_new_P PIL_default_palette CHUNK_DIM CHUNK_DIM];
        _palette := None;
        _dpla__colors := [];
        _dpla__durations_per_frame_for_colors := [];
        _dma__original_chunk_mappings := dma_chunk_mappings st |}).

(** The first position in [chunks], counted from [i], of a chunk for
    which [chunk.getdata() == new_chunk.getdata()] holds: the loop of
    [_insert_chunk_or_reuse]. *)
Fixpoint find_chunk (i : Z) (chunks : list Image) (new_chunk : Image) : option Z :=
  match chunks with
  | [] => None
  | chunk :: chunks' =>
      if getdata_eq chunk new_chunk then Some i
      else find_chunk (i + 1) chunks' new_chunk
  end.

Definition _insert_chunk_or_reuse (new_chunk : Image) : M Z :=
  chunks ← gets _chunks;
  match find_chunk 0 chunks new_chunk with
  | Some i => ret i
  | None =>
      modify (fun st => with__chunks (_chunks st ++ [new_chunk]) st);;
      chunks ← gets _chunks;
      ret (Z.of_nat (length chunks) - 1)
  end.

Definition _assert_file_exists (fn : string) : M unit :=
  raise_if (negb (os_path_exists fn)) (ValueError (MissingFile fn)).

Definition _open_tileset (fn : string) : M unit :=
  _assert_file_exists fn;;
  let basename := os_path_basename fn in
  pil ← lift (Image_open fn);
  modify (fun st => with__tileset_file_map (<[basename := pil]> (_tileset_file_map st)) st);;
  modify (fun st => with__tileset_chunk_map (<[basename := ∅]> (_tileset_chunk_map st)) st);;
  raise_if (bool_decide (mode pil ≠ "P")) (ValueError (NotIndexed basename));;
  raise_if (bool_decide (palette_mode pil ≠ "RGB")
            || bool_decide (Z.of_nat (length (palette pil)) ≠ 256 * 3))
           (ValueError (PaletteNot256RGB basename));;
  p ← gets _palette;
  match p with
  | None => modify (with__palette (Some (palette pil)))
  | Some _ => ret tt
  end;;
  p ← gets _palette;
  raise_if (bool_decide (Some (palette pil) ≠ p)) (ValueError (PaletteMismatch basename)).

(** One round of the loop of [_import_tileset], for the entry [rules] at
    position [i] of [rule_map.values()]. *)
Definition _import_tileset_entry (fn : string) (typ : DmaType) (bx by_ w var_id : Z)
  (prev_fn : option string) (tileset : Image) (entry : Z * list Z) : M unit :=
  let '(i, rules) := entry in
  raise_if (w =? 0) ZeroDivisionError;;
  let x := bx + i `mod` w in
  let y := by_ + i `div` w in
  let cropped :=
    crop tileset (x * CHUNK_DIM, y * CHUNK_DIM, (x + 1) * CHUNK_DIM, (y + 1) * CHUNK_DIM) in
  chunk_index ←
    (if (0 <? var_id) && bool_decide (getdata cropped = EMPTY_IMAGE)
     then
       (* Empty tile in variation, use previous variation. *)
       chunk_map ← gets _tileset_chunk_map;
       prev ← getitem (prev_fn ≫= (chunk_map !!.));
       getitem (prev !! (x, y))
     else _insert_chunk_or_reuse cropped);
  chunk_map ← gets _tileset_chunk_map;
  positions ← getitem (chunk_map !! fn);
  modify (with__tileset_chunk_map (<[fn := <[(x, y) := chunk_index]> positions]> chunk_map));;
  for_each rules (fun rule => Dma_set typ rule var_id chunk_index).

Definition _import_tileset (fn : string) (rule_map : list (Z * list Z)) (typ : DmaType)
  (bx by_ w h var_id : Z) (prev_fn : option string) : M unit :=
  file_map ← gets _tileset_file_map;
  py_assert (bool_decide (is_Some (file_map !! fn)));;
  chunk_map ← gets _tileset_chunk_map;
  py_assert (bool_decide (is_Some (chunk_map !! fn)));;
  tileset ← getitem (file_map !! fn);
  raise_if ((height tileset <? by_ + h) || (width tileset <? bx + w))
           (ValueError (ImageTooSmall fn));;
  for_each (enumerate (snd <$> rule_map))
           (_import_tileset_entry fn typ bx by_ w var_id prev_fn tileset).

Definition _read_additional_chunk_idx (fn : string) (x y : Z) (dirname : string) : M Z :=
  file_map ← gets _tileset_file_map;
  match file_map !! fn with
  | Some _ => ret tt
  | None =>
      _open_tileset (os_path_join dirname fn);;
      file_map ← gets _tileset_file_map;
      tileset ← getitem (file_map !! fn);
      rows ← lift (py_range 0 (height tileset) CHUNK_DIM);
      for_each rows (fun iy =>
        columns ← lift (py_range 0 (width tileset) CHUNK_DIM);
        for_each columns (fun ix =>
          chunk_index ←
            _insert_chunk_or_reuse (crop tileset (ix, iy, ix + CHUNK_DIM, iy + CHUNK_DIM));
          chunk_map ← gets _tileset_chunk_map;
          positions ← getitem (chunk_map !! fn);
          modify (with__tileset_chunk_map
                    (<[fn := <[(ix `div` CHUNK_DIM, iy `div` CHUNK_DIM) := chunk_index]>
                               positions]> chunk_map))))
  end;;
  chunk_map ← gets _tileset_chunk_map;
  positions ← getitem (chunk_map !! fn);
  getitem (positions !! (x, y)).

(** The [MAPPING] branch of [_import_additional_tiles]. *)
Definition _import_mapping (mapping : Element) (chunk : Z) : M unit :=
  validate_xml_attribs mapping
    [MAPPING__TYPE; MAPPING__nw; MAPPING__n; MAPPING__ne; MAPPING__e;
     MAPPING__se; MAPPING__s; MAPPING__sw; MAPPING__w; MAPPING__VARIATION];;
  n ← for_fold
        [(MAPPING__nw, NORTH_WEST); (MAPPING__n, NORTH); (MAPPING__ne, NORTH_EAST);
         (MAPPING__e, EAST); (MAPPING__se, SOUTH_EAST); (MAPPING__s, SOUTH);
         (MAPPING__sw, SOUTH_WEST); (MAPPING__w, WEST)]
        0
        (fun n '(name, flag) =>
           s ← attr mapping name;
           v ← lift (py_int s);
           ret (if v =? 0 then n else Z.lor n flag));
  t ← attr mapping MAPPING__TYPE;
  typ ← (if bool_decide (t = MAPPING__TYPE__FLOOR) then ret FLOOR
         else if bool_decide (t = MAPPING__TYPE__WALL) then ret WALL
         else if bool_decide (t = MAPPING__TYPE__SECONDARY) then ret WATER
         else raise (ValueError (UnknownMappingType t)));
  s ← attr mapping MAPPING__VARIATION;
  var_idx ← lift (py_int s);
  raise_if ((var_idx <? 0) || (2 <? var_idx)) (ValueError (InvalidVariationIndex var_idx));;
  Dma_set typ n var_idx chunk.

(** One of the three pattern tests of the [SPECIAL_MAPPING] branch. *)
Definition _import_special (pattern : string → option string) (extra_type : DmaExtraType)
  (mapping : Element) (chunk : Z) : M unit :=
  identifier ← attr mapping SPECIAL_MAPPING__IDENTIFIER;
  match pattern identifier with
  | Some group1 =>
      index ← lift (py_int group1);
      Dma_set_extra extra_type index chunk
  | None => ret tt
  end.

(** The [SPECIAL_MAPPING] branch of [_import_additional_tiles]. *)
Definition _import_special_mapping (mapping : Element) (chunk : Z) : M unit :=
  validate_xml_attribs mapping [SPECIAL_MAPPING__IDENTIFIER];;
  _import_special PATTERN_FLOOR1 FLOOR1 mapping chunk;;
  _import_special PATTERN_FLOOR2 FLOOR2 mapping chunk;;
  _import_special PATTERN_WALL_OR_VOID WALL_OR_VOID mapping chunk.

Definition _import_additional_tiles (xml : Element) (dirname : string) : M unit :=
  for_each (children xml) (fun tile =>
    validate_xml_tag tile TILE;;
    validate_xml_attribs tile [TILE__X; TILE__Y; TILE__FILE];;
    file ← attr tile TILE__FILE;
    sx ← attr tile TILE__X;
    x ← lift (py_int sx);
    sy ← attr tile TILE__Y;
    y ← lift (py_int sy);
    chunk ← _read_additional_chunk_idx file x y dirname;
    for_each (children tile) (fun mapping =>
      if bool_decide (tag mapping = MAPPING) then _import_mapping mapping chunk
      else if bool_decide (tag mapping = SPECIAL_MAPPING)
           then _import_special_mapping mapping chunk
      else ret tt)).

Definition _merge_chunks : M Image :=
  chunks ← gets _chunks;
  let new_img :=
    Image_new_P PIL_default_palette (CHUNK_DIM * Z.of_nat (length chunks)) CHUNK_DIM in
  chunk1 ← lift (py_getitem chunks 1);
  let new_img := putpalette new_img (getpalette chunk1) in
  ret (fold_left (fun img '(i, chunk) => paste img chunk (i * CHUNK_DIM) 0)
                 (enumerate chunks) new_img).

Definition _prepare_import_animation (child : Element) : M (list (list Z) * Z) :=
  let colors := replicate 16 [] in
  colors ← for_fold (children child) colors (fun colors frame =>
    validate_xml_tag frame FRAME;;
    raise_if (bool_decide (length (children frame) ≠ 16%nat))
             (ValueError FrameWithout16Colors);;
    for_fold (enumerate (children frame)) colors (fun colors '(i, color) =>
      validate_xml_tag color COLOR;;
      rgb ← _convert_hex_str_color_to_tuple (text color);
      ret (alter (fun c => c ++ rgb) (Z.to_nat i) colors)));
  s ← attr child ANIMATION__DURATION;
  duration ← lift (py_int s);
  ret (colors, duration).

Definition _finalize : M unit :=
  img ← _merge_chunks;
  dpc ← gets dpc_chunks;
  '(chunks, tiles, palettes) ← lift (Dpc_pil_to_chunks dpc img);
  modify (with_dpc_chunks chunks);;
  colors ← gets _dpla__colors;
  durations ← gets _dpla__durations_per_frame_for_colors;
  modify (with_targets palettes tiles colors durations).

(** One round of the loop of [do_import] over the children of the XML
    root; the local variables [ani0], [ani1], [dur0], [dur1] are the loop
    state. *)
Definition _import_child (dirname : string)
  (acc : list (list Z) * list (list Z) * Z * Z) (child : Element)
  : M (list (list Z) * list (list Z) * Z * Z) :=
  let '(ani0, ani1, dur0, dur1) := acc in
  '(ani0, ani1, dur0, dur1) ←
    (if bool_decide (tag child = ANIMATION) then
       validate_xml_attribs child [ANIMATION__PALETTE; ANIMATION__DURATION];;
       p ← attr child ANIMATION__PALETTE;
       if bool_decide (p = "10") then
         '(ani0, dur0) ← _prepare_import_animation child;
         ret (ani0, ani1, dur0, dur1)
       else if bool_decide (p = "11") then
         '(ani1, dur1) ← _prepare_import_animation child;
         ret (ani0, ani1, dur0, dur1)
       else raise (ValueError UnsupportedAnimationPalette)
     else ret (ani0, ani1, dur0, dur1));
  (if bool_decide (tag child = ADDITIONAL_TILES)
   then _import_additional_tiles child dirname else ret tt);;
  ret (ani0, ani1, dur0, dur1).

(** The loop of [do_import] over the children of the XML root. *)
Definition _import_children (xml : Element) (dirname : string)
  : M (list (list Z) * list (list Z) * Z * Z) :=
  for_fold (children xml) (replicate 16 [], replicate 16 [], 0, 0)
           (_import_child dirname).

(** [ts[i-1] if i > 0 else None] *)
Definition _previous_tileset (ts : list string) (i : Z) : M (option string) :=
  if 0 <? i then fn ← lift (py_getitem ts (i - 1)); ret (Some fn) else ret None.

(** The statements of the [try] block of [do_import] after the reset. *)
Definition _do_import_body (dirname fn_xml fn_var0 fn_var1 fn_var2 : string) : M unit :=
  modify (with__dirname (Some dirname));;
  _assert_file_exists fn_xml;;
  _open_tileset fn_var0;;
  _open_tileset fn_var1;;
  _open_tileset fn_var2;;
  xml ← lift (ElementTree_parse fn_xml);
  modify (with__xml (Some xml));;
  validate_xml_tag xml DUNGEON_TILESET;;
  validate_xml_attribs xml [DIMENSIONS];;
  s ← attr xml DIMENSIONS;
  dimensions ← lift (py_int s);
  raise_if (bool_decide (dimensions ≠ CHUNK_DIM)) (ValueError InvalidDimensions);;
  let var_map := REMAP_RULE_VARIATIONS in
  let ts := [os_path_basename fn_var0; os_path_basename fn_var1; os_path_basename fn_var2] in
  for_each (enumerate ts) (fun '(i, fn) =>
    prev ← _previous_tileset ts i;
    _import_tileset fn var_map WALL 0 0 TILESHEET_WIDTH TILESHEET_HEIGHT i prev;;
    prev ← _previous_tileset ts i;
    _import_tileset fn var_map WATER TILESHEET_WIDTH 0 TILESHEET_WIDTH TILESHEET_HEIGHT i prev;;
    prev ← _previous_tileset ts i;
    _import_tileset fn var_map FLOOR (TILESHEET_WIDTH * 2) 0
                    TILESHEET_WIDTH TILESHEET_HEIGHT i prev);;
  '(ani0, ani1, dur0, dur1) ← _import_children xml dirname;
  _import_animation ani0 ani1 dur0 dur1;;
  _finalize.

Definition do_import (dirname fn_xml fn_var0 fn_var1 fn_var2 : string) : M unit :=
  try_except_reraise
    (__init__;;  (* reset *)
     _do_import_body dirname fn_xml fn_var0 fn_var1 fn_var2)
    (* Reset DMA *)
    (modify (fun st => with_dma_chunk_mappings (_dma__original_chunk_mappings st) st)).

End Importer.

(** * Definitions used to state the properties *)

(** [k] is the first position of [chunks] whose pixel data are those of [c]. *)
Definition first_index (chunks : list Image) (c : Image) (k : nat) : Prop :=
  (∃ d, chunks !! k = Some d ∧ getdata d = getdata c) ∧
  ∀ j d, (j < k)%nat → chunks !! j = Some d → getdata d ≠ getdata c.

(** A method preserves the relation [R] when the state it ends in, by
    returning or by raising, is related to the state it started in. *)
Definition preserves (R : relation State) {A} (m : M A) : Prop :=
  ∀ st, R st (m st).2.

(** Modelled from the spec: the Chunk Pool performs an exact pixel-content
    equality scan.  PIL is not part of the sources; this says that its
    comparison of the pixel access objects of two images compares the
    pixels. *)
Definition compares_pixel_contents `{W : World} : Prop :=
  ∀ a b, getdata_eq a b = bool_decide (getdata a = getdata b).

(** [dma.chunk_mappings] refers to a list object of the heap. *)
Definition valid_reference (st : State) : Prop :=
  (dma_chunk_mappings st < length (heap st))%nat.

(** What a session leaves alone: the two references, and every list object
    other than the one [dma.chunk_mappings] refers to. *)
Definition frame (st st' : State) : Prop :=
  _dma__original_chunk_mappings st' = _dma__original_chunk_mappings st ∧
  dma_chunk_mappings st' = dma_chunk_mappings st ∧
  ∀ p, p ≠ dma_chunk_mappings st → heap st' !! p = heap st !! p.

(** The chunk pool only grows: no chunk is removed or replaced. *)
Definition pool_grows (st st' : State) : Prop :=
  _chunks st `prefix_of` _chunks st'.

(** The palette of a session, once set, stays. *)
Definition palette_kept (st st' : State) : Prop :=
  ∀ p, _palette st = Some p → _palette st' = Some p.

(** The state without the heap and the references into it: the attributes
    of the importer and of the target models other than the table. *)
Definition erase (st : State) : State :=
  {| heap := []; dma_chunk_mappings := 0%nat;
     dpc_chunks := dpc_chunks st; dpci_tiles := dpci_tiles st;
     dpl_palettes := dpl_palettes st; dpla_colors := dpla_colors st;
     dpla_durations_per_frame_for_colors := dpla_durations_per_frame_for_colors st;
     _dirname := _dirname st; _tileset_file_map := _tileset_file_map st;
     _tileset_chunk_map := _tileset_chunk_map st; _xml := _xml st;
     _chunks := _chunks st; _palette := _palette st;
     _dpla__colors := _dpla__colors st;
     _dpla__durations_per_frame_for_colors := _dpla__durations_per_frame_for_colors st;
     _dma__original_chunk_mappings := 0%nat |}.

(** Two states that differ at most in where their list objects live: the
    same attributes, and the same entries in the neighbor-mapping table. *)
Definition sim (st1 st2 : State) : Prop :=
  erase st1 = erase st2 ∧ chunk_mappings st1 = chunk_mappings st2.

(** A method respects [sim]: from similar states it has the same outcome
    and ends in similar states. *)
Definition respects {A} (m : M A) : Prop :=
  ∀ st1 st2, sim st1 st2 → (m st1).1 = (m st2).1 ∧ sim (m st1).2 (m st2).2.

(** The target models of two importers are equal: the neighbor-mapping
    tables entry by entry, and the four other models. *)
Definition same_targets (st1 st2 : State) : Prop :=
  chunk_mappings st1 = chunk_mappings st2 ∧
  dpc_chunks st1 = dpc_chunks st2 ∧ dpci_tiles st1 = dpci_tiles st2 ∧
  dpl_palettes st1 = dpl_palettes st2 ∧ dpla_colors st1 = dpla_colors st2 ∧
  dpla_durations_per_frame_for_colors st1 = dpla_durations_per_frame_for_colors st2.

(** Hexadecimal colors. *)
Definition is_hex_digit (c : ascii) : bool :=
  match digit_in_base 16 c with Some _ => true | None => false end.

Definition hex_value (c : ascii) : Z := default 0 (digit_in_base 16 c).

(** [h] is six hexadecimal digits. *)
Definition hex_color (h : string) : Prop :=
  ∃ a b c d e f,
    h = String a (String b (String c (String d (String e (String f EmptyString))))) ∧
    forallb is_hex_digit [a; b; c; d; e; f] = true.

(** The three bytes a six-digit color stands for: red, green, blue, each
    digit pair read with the high digit first. *)
Definition rgb_of_hex (h : string) : list Z :=
  match h with
  | String a (String b (String c (String d (String e (String f _))))) =>
      [16 * hex_value a + hex_value b;
       16 * hex_value c + hex_value d;
       16 * hex_value e + hex_value f]
  | _ => []
  end.

Definition color_rgb (color : Element) : list Z :=
  rgb_of_hex (default EmptyString (text color)).

(** The bytes frame [frame] gives to slot [i]. *)
Definition frame_slot (i : nat) (frame : Element) : list Z :=
  from_option color_rgb [] (children frame !! i).

Definition all_ascii : list ascii := ascii_of_nat <$> seq 0 256.

Section WellFormed.
Context `{K : Constants}.

Definition well_formed_color (color : Element) : Prop :=
  tag color = COLOR ∧ ∃ h, text color = Some h ∧ hex_color h.

(** A frame with exactly 16 colors of six hexadecimal digits each. *)
Definition well_formed_frame (frame : Element) : Prop :=
  tag frame = FRAME ∧ length (children frame) = 16%nat ∧
  Forall well_formed_color (children frame).

(** An animation element for palette [p] with duration [d] whose frames are
    well formed. *)
Definition well_formed_animation (child : Element) (p : string) (d : Z) : Prop :=
  tag child = ANIMATION ∧ tag child ≠ ADDITIONAL_TILES ∧
  attrib child !! ANIMATION__PALETTE = Some p ∧
  (∃ s, attrib child !! ANIMATION__DURATION = Some s ∧ py_int s = inr d) ∧
  Forall well_formed_frame (children child).

(** The 16 color-cycle sequences of an animation element: slot [i] is the
    concatenation, in document order, of the bytes its frames give to [i]. *)
Definition animation_track (child : Element) : list (list Z) :=
  (fun i => concat (frame_slot i <$> children child)) <$> seq 0 16.

End WellFormed.

(** Identifiers of special mappings. *)
Fixpoint string_forall (P : ascii → bool) (s : string) : bool :=
  match s with
  | EmptyString => true
  | String c s' => P c && string_forall P s'
  end.

(** A nonempty string of decimal digits. *)
Definition decimal_digits (s : string) : Prop :=
  s ≠ EmptyString ∧ string_forall is_decimal s = true.

(** The number a string of decimal digits denotes. *)
Fixpoint decimal_from (acc : Z) (s : string) : Z :=
  match s with
  | EmptyString => acc
  | String c s' => decimal_from (acc * 10 + (Z.of_nat (nat_of_ascii c) - 48)) s'
  end.

Definition decimal_value (s : string) : Z := decimal_from 0 s.

(** [rest] does not go on with a decimal digit. *)
Definition no_leading_digit (rest : string) : Prop :=
  match rest with
  | String c _ => is_decimal c = false
  | EmptyString => True
  end.

(** The text before the number in the identifiers of an extra slot. *)
Definition extra_slot_literal (t : DmaExtraType) : string :=
  match t with
  | FLOOR1 => "EOS_EXTRA_FLOOR1_"
  | FLOOR2 => "EOS_EXTRA_FLOOR2_"
  | WALL_OR_VOID => "EOS_EXTRA_WALL_OR_VOID_"
  end.

Definition extra_slot_pattern (t : DmaExtraType) : string → option string :=
  match t with
  | FLOOR1 => PATTERN_FLOOR1
  | FLOOR2 => PATTERN_FLOOR2
  | WALL_OR_VOID => PATTERN_WALL_OR_VOID
  end.

(** * Example packages *)

(** Constants with the given tile dimensions, sheet size and rule table;
    the names are those of the DTEF XML format. *)
Definition example_constants (tiling_dim tile_dim sheet_width sheet_height : Z)
  (rules : list (Z * list Z)) : Constants :=
  {| DPC_TILING_DIM := tiling_dim; DPCI_TILE_DIM := tile_dim;
     TILESHEET_WIDTH := sheet_width; TILESHEET_HEIGHT := sheet_height;
     REMAP_RULE_VARIATIONS := rules;
     DUNGEON_TILESET := "DungeonTileset"; DIMENSIONS := "dimensions";
     ANIMATION := "Animation"; ANIMATION__PALETTE := "palette";
     ANIMATION__DURATION := "duration"; ADDITIONAL_TILES := "AdditionalTiles";
     COLOR := "Color"; FRAME := "Frame"; TILE := "Tile";
     TILE__X := "x"; TILE__Y := "y"; TILE__FILE := "file";
     MAPPING := "Mapping"; SPECIAL_MAPPING := "SpecialMapping";
     MAPPING__TYPE := "type"; MAPPING__TYPE__FLOOR := "floor";
     MAPPING__TYPE__WALL := "wall"; MAPPING__TYPE__SECONDARY := "secondary";
     MAPPING__nw := "nw"; MAPPING__n := "n"; MAPPING__ne := "ne"; MAPPING__e := "e";
     MAPPING__se := "se"; MAPPING__s := "s"; MAPPING__sw := "sw"; MAPPING__w := "w";
     MAPPING__VARIATION := "variation"; SPECIAL_MAPPING__IDENTIFIER := "identifier";
     NORTH_WEST := 0x20; NORTH := 0x10; NORTH_EAST := 0x08; EAST := 0x04;
     SOUTH_EAST := 0x02; SOUTH := 0x01; SOUTH_WEST := 0x80; WEST := 0x40 |}.

(** Chunks of 2 by 2 pixels, bands of 2 by 1 cells, two rules: the first
    stands for the patterns 0 and 1, the second for the pattern 2. *)
Definition small_constants : Constants :=
  example_constants 1 2 2 1 [(0, [0; 1]); (2, [2])].

(** Chunks of 24 by 24 pixels and bands of 6 by 8 cells, as in the game. *)
Definition game_constants : Constants :=
  example_constants 3 8 6 8 [(0, [0; 1]); (2, [2])].

Definition example_palette (v : Z) : list Z := replicate 768 v.

Definition example_image (pal : list Z) (w h : Z) (pixels : list Z) : Image :=
  {| mode := "P"; palette_mode := "RGB"; palette := pal;
     width := w; height := h; getdata := pixels |}.

(** Three sheets of 12 by 2 pixels: wall, water and floor bands of two
    cells each.  In the second and third sheet the first wall cell is
    empty. *)
Definition sheet0 : Image :=
  example_image (example_palette 7) 12 2
    [1; 1; 2; 2; 3; 3; 1; 1; 0; 0; 5; 5;
     1; 1; 2; 2; 3; 3; 1; 1; 0; 0; 5; 5].

Definition sheet1 : Image :=
  example_image (example_palette 7) 12 2
    [0; 0; 2; 2; 3; 3; 1; 1; 0; 0; 6; 5;
     0; 0; 2; 2; 3; 3; 1; 1; 0; 0; 5; 5].

(** A sheet with another palette. *)
Definition sheet_other_palette : Image :=
  example_image (example_palette 8) 12 2 (replicate 24 4).

Definition extra_image : Image :=
  example_image (example_palette 7) 2 2 [9; 9; 9; 9].

Definition element (t : string) (attributes : list (string * string))
  (kids : list Element) : Element :=
  mkElement t (list_to_map attributes) None kids.

Definition color_element (h : string) : Element :=
  mkElement "Color" ∅ (Some h) [].

Definition example_frame (h : string) : Element :=
  element "Frame" [] (replicate 16 (color_element h)).

Definition animation10 : Element :=
  element "Animation" [("palette", "10"); ("duration", "20")]
    [example_frame "0a10ff"; example_frame "000001"].

Definition animation11 : Element :=
  element "Animation" [("palette", "11"); ("duration", "7")]
    [example_frame "FFFFFF"].

Definition animation12 : Element :=
  element "Animation" [("palette", "12"); ("duration", "7")] [].

Definition special_mapping (identifier : string) : Element :=
  element "SpecialMapping" [("identifier", identifier)] [].

Definition additional_tiles : Element :=
  element "AdditionalTiles" []
    [element "Tile" [("x", "0"); ("y", "0"); ("file", "extra.png")]
       [special_mapping "EOS_EXTRA_FLOOR1_3_UNUSED";
        special_mapping "FOO_BAR";
        element "Mapping"
          [("type", "wall"); ("nw", "1"); ("n", "0"); ("ne", "0"); ("e", "0");
           ("se", "0"); ("s", "0"); ("sw", "0"); ("w", "1"); ("variation", "2")] []]].

Definition good_document : Element :=
  element "DungeonTileset" [("dimensions", "2")]
    [animation10; animation11; additional_tiles].

(** A document that is rejected after the tile sheets have been imported. *)
Definition bad_document : Element :=
  element "DungeonTileset" [("dimensions", "2")] [animation12].

(** A package: the files by name, with the given document. *)
Definition example_world (document : Element) : World :=
  {| os_path_exists := fun _ => true;
     os_path_basename := fun fn => fn;
     os_path_join := fun _ fn => fn;
     Image_open := fun fn =>
       if bool_decide (fn = "var0.png") then inr sheet0
       else if bool_decide (fn = "var1.png") then inr sheet1
       else if bool_decide (fn = "var2.png") then inr sheet1
       else if bool_decide (fn = "other.png") then inr sheet_other_palette
       else if bool_decide (fn = "extra.png") then inr extra_image
       else inl (ExternalError "cannot identify image file");
     ElementTree_parse := fun _ => inr document;
     PIL_default_palette := [];
     getdata_eq := fun a b => bool_decide (getdata a = getdata b);
     Dpc_pil_to_chunks := fun chunks im => inr (chunks, [getdata im], [palette im]) |}.

(** An importer with the given private attributes on a table of 2400
    entries. *)
Definition example_state (table : list Z) (file_map : gmap string Image)
  (chunk_map : gmap string (gmap (Z * Z) Z)) (chunks : list Image)
  (pal : option (list Z)) : State :=
  {| heap := [table]; dma_chunk_mappings := 0%nat;
     dpc_chunks := []; dpci_tiles := []; dpl_palettes := []; dpla_colors := [];
     dpla_durations_per_frame_for_colors := [];
     _dirname := None; _tileset_file_map := file_map;
     _tileset_chunk_map := chunk_map; _xml := None; _chunks := chunks;
     _palette := pal; _dpla__colors := [];
     _dpla__durations_per_frame_for_colors := [];
     _dma__original_chunk_mappings := 0%nat |}.

Definition example_table : list Z := replicate 2400 5.

(** A new importer. *)
Definition fresh_state : State := example_state example_table ∅ ∅ [] None.

(** An importer that has been used: same targets, other private
    attributes, and the table is another list object. *)
Definition used_state : State :=
  {| heap := [[1; 2; 3]; example_table]; dma_chunk_mappings := 1%nat;
     dpc_chunks := []; dpci_tiles := []; dpl_palettes := []; dpla_colors := [];
     dpla_durations_per_frame_for_colors := [];
     _dirname := Some "elsewhere"; _tileset_file_map := {["old.png" := sheet1]};
     _tileset_chunk_map := ∅; _xml := None; _chunks := [sheet0];
     _palette := Some [1; 2; 3]; _dpla__colors := [[1]];
     _dpla__durations_per_frame_for_colors := [4];
     _dma__original_chunk_mappings := 0%nat |}.

Definition empty_chunk : Image := Image_new_P [] 2 2.

(** The importer in the middle of the wall band of the second sheet: the
    first sheet recorded chunk 1 for the cell (0, 0). *)
Definition second_sheet_state : State :=
  example_state example_table
    {["var0.png" := sheet0; "var1.png" := sheet1]}
    {["var0.png" := {[(0, 0) := 1]}; "var1.png" := ∅]}
    [empty_chunk; crop sheet0 (0, 0, 2, 2)]
    (Some (example_palette 7)).

(** A sheet of 18 by 8 pixels, and an importer that has loaded it. *)
Definition undersized_sheet : Image :=
  example_image (example_palette 7) 18 8 (replicate 144 1).

Definition undersized_state : State :=
  example_state example_table {["var0.png" := undersized_sheet]}
    {["var0.png" := ∅]} [Image_new_P [] 24 24] (Some (example_palette 7)).

(** * Definitions for the further properties *)

(** A method keeps the relation [R] between the state it starts in and the
    state it raises in. *)
Definition on_raise (R : relation State) {A} (m : M A) : Prop :=
  ∀ st e st', m st = (inl e, st') → R st st'.

(** The target models that [_finalize] assigns: the tiles of [dpci], the
    palettes of [dpl], the colors and durations of [dpla]. *)
Definition targets_kept (st st' : State) : Prop :=
  dpci_tiles st' = dpci_tiles st ∧ dpl_palettes st' = dpl_palettes st ∧
  dpla_colors st' = dpla_colors st ∧
  dpla_durations_per_frame_for_colors st' = dpla_durations_per_frame_for_colors st.

(** The table keeps its number of entries. *)
Definition table_size_kept (st st' : State) : Prop :=
  length (chunk_mappings st') = length (chunk_mappings st).

Section Document.
Context `{K : Constants}.

(** The children of the document root that [do_import] looks at. *)
Definition is_known_child (child : Element) : bool :=
  bool_decide (tag child = ANIMATION) || bool_decide (tag child = ADDITIONAL_TILES).

(** The document without the other children of its root. *)
Definition known_children_only (xml : Element) : Element :=
  mkElement (tag xml) (attrib xml) (text xml) (filter is_known_child (children xml)).

End Document.

(** [int(s, 16)] returns a number between -15 and 255. *)
Definition hex_pair_in_range (s : string) : bool :=
  match py_int_base 16 s with
  | inr v => (-15 <=? v) && (v <=? 255)
  | inl _ => true
  end.

(** The registered images stay. *)
Definition file_map_kept (st st' : State) : Prop :=
  _tileset_file_map st' = _tileset_file_map st.

(** [v] is the index of a chunk of the pool. *)
Definition valid_index (st : State) (v : Z) : Prop :=
  0 ≤ v < Z.of_nat (length (_chunks st)).

Section PoolInvariant.
Context `{K : Constants}.

(** A chunk of [CHUNK_DIM] by [CHUNK_DIM] pixels. *)
Definition chunk_sized (c : Image) : Prop :=
  width c = CHUNK_DIM ∧ height c = CHUNK_DIM.

(** What holds of an importer between the reset and the end of an import:
    every chunk of the pool has the size of a chunk, and every entry of the
    table and every index recorded in the position tables of the files is
    the index of a chunk of the pool. *)
Definition pool_invariant (st : State) : Prop :=
  Forall chunk_sized (_chunks st) ∧
  Forall (valid_index st) (chunk_mappings st) ∧
  ∀ fn positions pos v,
    _tileset_chunk_map st !! fn = Some positions → positions !! pos = Some v →
    valid_index st v.

End PoolInvariant.

(** A method that does not touch the state. *)
Definition pure {A} (m : M A) : Prop := preserves eq m.

Section Mapping.
Context `{K : Constants}.

(** The neighbor attributes of a mapping element, in the order in which
    [_import_additional_tiles] reads them, each with its bit. *)
Definition neighbor_flags : list (string * Z) :=
  [(MAPPING__nw, NORTH_WEST); (MAPPING__n, NORTH); (MAPPING__ne, NORTH_EAST);
   (MAPPING__e, EAST); (MAPPING__se, SOUTH_EAST); (MAPPING__s, SOUTH);
   (MAPPING__sw, SOUTH_WEST); (MAPPING__w, WEST)].

(** The pattern of neighbors the numbers [values] of the eight attributes
    stand for: the bits of the attributes whose number is not 0. *)
Definition mapping_neighbors (values : list Z) : Z :=
  foldr Z.lor 0
    (zip_with (fun v (flag : string * Z) => if v =? 0 then 0 else flag.2)
              values neighbor_flags).

(** The terrain type a type name stands for. *)
Definition mapping_type (t : string) : option DmaType :=
  if bool_decide (t = MAPPING__TYPE__FLOOR) then Some FLOOR
  else if bool_decide (t = MAPPING__TYPE__WALL) then Some WALL
  else if bool_decide (t = MAPPING__TYPE__SECONDARY) then Some WATER
  else None.

(** The attribute [name] of [ele] is the number [v]. *)
Definition int_attribute (ele : Element) (name : string) (v : Z) : Prop :=
  ∃ s, attrib ele !! name = Some s ∧ py_int s = inr v.

(** A mapping element with the eight neighbor attributes [values], the
    type name [t] and the variation [var_idx]. *)
Definition mapping_element (mapping : Element) (values : list Z) (t : string)
  (var_idx : Z) : Prop :=
  Forall2 (fun (flag : string * Z) v => int_attribute mapping flag.1 v)
          neighbor_flags values ∧
  attrib mapping !! MAPPING__TYPE = Some t ∧
  int_attribute mapping MAPPING__VARIATION var_idx.

End Mapping.

(** A package in a directory: the base name of a path is what follows its
    last slash. *)
Fixpoint has_slash (s : string) : bool :=
  match s with
  | EmptyString => false
  | String c s' => Ascii.eqb c "/" || has_slash s'
  end.

Fixpoint posix_basename (s : string) : string :=
  match s with
  | EmptyString => EmptyString
  | String c s' =>
      if has_slash s' then posix_basename s'
      else if Ascii.eqb c "/" then s' else s
  end.

(** An image that is not indexed. *)
Definition photo : Image :=
  {| mode := "RGB"; palette_mode := "RGB"; palette := [];
     width := 2; height := 2; getdata := [1; 2; 3; 4] |}.

Definition directory_world : World :=
  {| os_path_exists := fun fn =>
       bool_decide (fn = "dir/more/extra.png") || bool_decide (fn = "dir/photo.png");
     os_path_basename := posix_basename;
     os_path_join := fun dirname fn => dirname +:+ "/" +:+ fn;
     Image_open := fun fn =>
       if bool_decide (fn = "dir/more/extra.png") then inr extra_image
       else if bool_decide (fn = "dir/photo.png") then inr photo
       else inl (ExternalError "cannot identify image file");
     ElementTree_parse := fun _ => inr good_document;
     PIL_default_palette := [];
     getdata_eq := fun a b => bool_decide (getdata a = getdata b);
     Dpc_pil_to_chunks := fun chunks im => inr (chunks, [getdata im], [palette im]) |}.

(** A mapping element for the neighbors to the north-west and to the
    west. *)
Definition example_mapping (t variation : string) : Element :=
  element "Mapping"
    [("type", t); ("nw", "1"); ("n", "0"); ("ne", "0"); ("e", "0");
     ("se", "0"); ("s", "0"); ("sw", "0"); ("w", "2"); ("variation", variation)] [].

(** The chunks of the [dpc] model stay. *)
Definition dpc_kept (st st' : State) : Prop := dpc_chunks st' = dpc_chunks st.

(** The grid cell of entry [i] of the rule table in a band with top-left
    cell [(bx, by)] and width [w]. *)
Definition band_cell (bx by_ w i : Z) : Z * Z := (bx + i `mod` w, by_ + i `div` w).

(** The position table of the file [fn] has an index for [cell]. *)
Definition recorded (st : State) (fn : string) (cell : Z * Z) : Prop :=
  is_Some (_tileset_chunk_map st !! fn ≫= (.!! cell)).

Section Cut.
Context `{K : Constants}.

(** The chunk of an image at the grid cell [(cx, cy)]. *)
Definition cell_chunk (im : Image) (cell : Z * Z) : Image :=
  crop im (cell.1 * CHUNK_DIM, cell.2 * CHUNK_DIM,
           cell.1 * CHUNK_DIM + CHUNK_DIM, cell.2 * CHUNK_DIM + CHUNK_DIM).

(** Every index the position table of [fn] holds is the first position of
    the pool with the pixels of the chunk of [im] at that cell. *)
Definition positions_of (fn : string) (im : Image) (st : State) : Prop :=
  ∃ positions,
    _tileset_chunk_map st !! fn = Some positions ∧
    ∀ cell v, positions !! cell = Some v →
      ∃ k, v = Z.of_nat k ∧ first_index (_chunks st) (cell_chunk im cell) k.

(** From [st] to [st'] the pool has grown and the position table of [fn]
    has lost no record. *)
Definition cut_step (fn : string) (st st' : State) : Prop :=
  pool_grows st st' ∧ ∀ cell, recorded st fn cell → recorded st' fn cell.

End Cut.

(** Two literals can both be at the start of one string. *)
Fixpoint prefix_compatible (p1 p2 : string) : bool :=
  match p1, p2 with
  | String a p1', String b p2' => Ascii.eqb a b && prefix_compatible p1' p2'
  | _, _ => true
  end.

(** Every registered image is an indexed image with a palette of 256 RGB
    colors, and that palette is the palette of the session. *)
Definition images_share_palette (st : State) : Prop :=
  ∀ fn img, _tileset_file_map st !! fn = Some img →
    mode img = "P" ∧ palette_mode img = "RGB" ∧ length (palette img) = 768%nat ∧
    _palette st = Some (palette img).

(** The registered images and the palette of the session stay. *)
Definition session_kept (st st' : State) : Prop :=
  _tileset_file_map st' = _tileset_file_map st ∧ _palette st' = _palette st.

(** * Reasoning about methods *)

Ltac unfold_monad_goal :=
  unfold mbind, M_bind, bind, gets, modify, lift, getitem, raise_if, py_assert,
    attr, raise, ret.

Ltac unfold_monad :=
  unfold mbind, M_bind, bind, gets, modify, lift, getitem, raise_if, py_assert,
    attr, raise, ret in *.

Lemma bind_inr {A B} (m : M A) (k : A → M B) st b st' :
  bind m k st = (inr b, st') →
  ∃ a st1, m st = (inr a, st1) ∧ k a st1 = (inr b, st').
Proof.
  unfold bind. destruct (m st) as [[e|a] st1]; [discriminate|]. eauto.
Qed.

Lemma bind_inl {A B} (m : M A) (k : A → M B) st e st' :
  bind m k st = (inl e, st') →
  m st = (inl e, st') ∨ ∃ a st1, m st = (inr a, st1) ∧ k a st1 = (inl e, st').
Proof.
  unfold bind. destruct (m st) as [[e1|a] st1]; [left; congruence|]. eauto.
Qed.

Lemma bind_run {A B} (m : M A) (k : A → M B) st a st1 :
  m st = (inr a, st1) → bind m k st = k a st1.
Proof. unfold bind. by intros ->. Qed.

(** ** The chunk pool *)

Lemma first_index_unique chunks c k1 k2 :
  first_index chunks c k1 → first_index chunks c k2 → k1 = k2.
Proof.
  intros [(d1 & H1 & E1) L1] [(d2 & H2 & E2) L2].
  destruct (Nat.lt_trichotomy k1 k2) as [Hlt|[->|Hlt]]; [|done|].
  - by destruct (L2 _ _ Hlt H1).
  - by destruct (L1 _ _ Hlt H2).
Qed.

Lemma first_index_prefix chunks chunks' c k :
  first_index chunks c k → chunks `prefix_of` chunks' → first_index chunks' c k.
Proof.
  intros [(d & Hd & Ed) Hlt] [suffix ->]. split.
  - exists d. split; [|done]. by apply lookup_app_l_Some.
  - intros j d' Hj. rewrite lookup_app_l; [by apply Hlt|].
    apply lookup_lt_Some in Hd. lia.
Qed.

Lemma first_index_data chunks a b k :
  getdata a = getdata b → first_index chunks a k → first_index chunks b k.
Proof. unfold first_index. by intros ->. Qed.

Section ChunkPool.
Context `{W : World}.

Lemma find_chunk_nat i0 chunks c i :
  find_chunk i0 chunks c = Some i →
  ∃ k, i = i0 + Z.of_nat k ∧ (k < length chunks)%nat.
Proof.
  revert i0. induction chunks as [|d chunks IH]; intros i0; simpl; [done|].
  destruct (getdata_eq d c).
  - intros [= <-]. exists 0%nat. split; lia.
  - intros (k & -> & Hk)%IH. exists (S k). split; lia.
Qed.

(** [_insert_chunk_or_reuse] always returns; it returns a position of the
    pool and leaves the state as it is, or appends the chunk to the pool
    and returns the position of the new entry. *)
Lemma insert_chunk_or_reuse_run c st :
  ∃ k st', _insert_chunk_or_reuse c st = (inr (Z.of_nat k), st') ∧
           (st' = st ∧ (k < length (_chunks st))%nat ∨
            st' = with__chunks (_chunks st ++ [c]) st ∧ k = length (_chunks st)).
Proof.
  unfold _insert_chunk_or_reuse. unfold_monad_goal. simpl.
  destruct (find_chunk 0 (_chunks st) c) as [i|] eqn:Hf.
  - apply find_chunk_nat in Hf as (k & -> & Hk). exists k, st.
    split; [by rewrite Z.add_0_l|]. by left.
  - exists (length (_chunks st)), (with__chunks (_chunks st ++ [c]) st). simpl.
    split; [|by right]. do 2 f_equal. rewrite length_app. simpl. lia.
Qed.

(** When PIL compares two pixel access objects by identity, no chunk of
    the pool is ever found equal to a new one, and every insertion
    appends. *)
Lemma insert_chunk_appends_without_comparison c st :
  (∀ a b, getdata_eq a b = false) →
  _insert_chunk_or_reuse c st
  = (inr (Z.of_nat (length (_chunks st))), with__chunks (_chunks st ++ [c]) st).
Proof.
  intros Hnever. unfold _insert_chunk_or_reuse. unfold_monad_goal. simpl.
  assert (∀ i l, find_chunk i l c = None) as ->.
  { intros i l. revert i. induction l as [|d l IH]; intros i; simpl; [done|].
    by rewrite Hnever. }
  do 2 f_equal. rewrite length_app. simpl. lia.
Qed.

Section Contents.
Hypothesis Hcompare : compares_pixel_contents.

Lemma find_chunk_Some i0 chunks c i :
  find_chunk i0 chunks c = Some i →
  ∃ k, i = i0 + Z.of_nat k ∧ first_index chunks c k.
Proof.
  revert i0. induction chunks as [|d chunks IH]; intros i0; simpl; [done|].
  rewrite Hcompare. case_bool_decide as Hd.
  - intros [= <-]. exists 0%nat. split; [lia|]. split; [by exists d|]. lia.
  - intros (k & -> & [Hk Hlt])%IH. exists (S k). split; [lia|]. split; [done|].
    intros [|j] d' Hj; simpl; [by intros [= <-]|]. apply Hlt. lia.
Qed.

Lemma find_chunk_None i0 chunks c :
  find_chunk i0 chunks c = None →
  ∀ j d, chunks !! j = Some d → getdata d ≠ getdata c.
Proof.
  revert i0. induction chunks as [|d chunks IH]; intros i0; simpl; [done|].
  rewrite Hcompare.
  case_bool_decide as Hd; [done|]. intros Hn [|j] d'; simpl; [by intros [= <-]|].
  by eapply IH.
Qed.

(** The index [_insert_chunk_or_reuse] returns is the first position of
    the pool with the pixels of the chunk, and the pool before the call is
    a prefix of the pool after it. *)
Lemma _insert_chunk_or_reuse_spec c st :
  ∃ k st', _insert_chunk_or_reuse c st = (inr (Z.of_nat k), st') ∧
           first_index (_chunks st') c k ∧
           _chunks st `prefix_of` _chunks st' ∧
           (_chunks st' = _chunks st ∨
            _chunks st' = _chunks st ++ [c] ∧ k = length (_chunks st)).
Proof.
  unfold _insert_chunk_or_reuse. unfold_monad_goal. simpl.
  destruct (find_chunk 0 (_chunks st) c) as [i|] eqn:Hf.
  - apply find_chunk_Some in Hf as (k & -> & Hk). exists k, st.
    split; [by rewrite Z.add_0_l|]. split; [done|]. split; [done|by left].
  - exists (length (_chunks st)), (with__chunks (_chunks st ++ [c]) st). simpl.
    split; [do 2 f_equal; rewrite length_app; simpl; lia|].
    split; [|split; [by apply prefix_app_r|by right]]. split.
    + exists c. split; [|done]. by rewrite lookup_app_r, Nat.sub_diag.
    + intros j d Hj Hd. rewrite lookup_app_l in Hd by done.
      by eapply find_chunk_None.
Qed.

End Contents.


End ChunkPool.

(** ** Relations between the state before and after a method *)

Section Preserves.
Context (R : relation State) `{!PreOrder R}.

Lemma preserves_ret {A} (a : A) : preserves R (ret a).
Proof. intros st. simpl. reflexivity. Qed.

Lemma preserves_raise {A} e : preserves R (@raise A e).
Proof. intros st. simpl. reflexivity. Qed.

Lemma preserves_gets {A} (f : State → A) : preserves R (gets f).
Proof. intros st. simpl. reflexivity. Qed.

Lemma preserves_lift {A} (r : Exception + A) : preserves R (lift r).
Proof. destruct r; [apply preserves_raise|apply preserves_ret]. Qed.

Lemma preserves_getitem {A} (o : option A) : preserves R (getitem o).
Proof. destruct o; [apply preserves_ret|apply preserves_raise]. Qed.

Lemma preserves_raise_if b e : preserves R (raise_if b e).
Proof. destruct b; [apply preserves_raise|apply preserves_ret]. Qed.

Lemma preserves_modify f : (∀ st, R st (f st)) → preserves R (modify f).
Proof. intros Hf st. apply Hf. Qed.

Lemma preserves_bind {A B} (m : M A) (k : A → M B) :
  preserves R m → (∀ a, preserves R (k a)) → preserves R (bind m k).
Proof.
  intros Hm Hk st. unfold bind. specialize (Hm st).
  destruct (m st) as [[e|a] st1]; simpl in *; [done|].
  etrans; [done|]. apply Hk.
Qed.

Lemma preserves_mbind {A B} (m : M A) (k : A → M B) :
  preserves R m → (∀ a, preserves R (k a)) → preserves R (m ≫= k).
Proof. apply preserves_bind. Qed.

Lemma preserves_for_each {A} (l : list A) body :
  (∀ a, preserves R (body a)) → preserves R (for_each l body).
Proof.
  intros Hb. induction l; simpl; [apply preserves_ret|].
  apply preserves_bind; [apply Hb|done].
Qed.

Lemma preserves_for_fold {A B} (l : list A) (acc : B) body :
  (∀ acc a, preserves R (body acc a)) → preserves R (for_fold l acc body).
Proof.
  intros Hb. revert acc. induction l; intros acc; simpl; [apply preserves_ret|].
  apply preserves_bind; [apply Hb|done].
Qed.

Lemma preserves_try_except_reraise {A} (body : M A) handler :
  preserves R body → preserves R handler →
  preserves R (try_except_reraise body handler).
Proof.
  intros Hb Hh st. unfold try_except_reraise. specialize (Hb st).
  destruct (body st) as [[e|a] st1]; simpl in *; [|done].
  specialize (Hh st1). destruct (handler st1) as [[e'|[]] st2]; simpl in *;
    by etrans.
Qed.

End Preserves.

(** One step of a proof that a method preserves a relation: the shape of
    the method says which rule applies. *)
Ltac preserves_step :=
  lazymatch goal with
  | |- preserves _ (bind _ _) => apply preserves_bind; [exact _| |intros ?]
  | |- preserves _ (mbind _ _) => apply preserves_mbind; [exact _| |intros ?]
  | |- preserves _ (ret _) => apply preserves_ret; exact _
  | |- preserves _ (raise _) => apply preserves_raise; exact _
  | |- preserves _ (gets _) => apply preserves_gets; exact _
  | |- preserves _ (lift _) => apply preserves_lift; exact _
  | |- preserves _ (getitem _) => apply preserves_getitem; exact _
  | |- preserves _ (attr _ _) => apply preserves_getitem; exact _
  | |- preserves _ (raise_if _ _) => apply preserves_raise_if; exact _
  | |- preserves _ (py_assert _) => apply preserves_raise_if; exact _
  | |- preserves _ (validate_xml_tag _ _) => apply preserves_raise_if; exact _
  | |- preserves _ (modify _) => apply preserves_modify; intros ?
  | |- preserves _ (for_each _ _) => apply preserves_for_each; [exact _|intros ?]
  | |- preserves _ (for_fold _ _ _) => apply preserves_for_fold; [exact _|intros ? ?]
  | |- preserves _ (match ?x with _ => _ end) => destruct x
  | |- preserves _ ((match ?x with _ => _ end) _) => destruct x
  | |- preserves _ (let _ := _ in _) => cbv zeta
  end.

Ltac preserves_auto := repeat preserves_step; eauto.

(** The first statement of a sequence preserves the relation; go on with
    the rest. *)
Ltac preserves_head :=
  apply preserves_mbind; [exact _|solve [preserves_auto]|intros ?].

(** A relation that the attribute assignments of an import preserve is
    preserved by every method the import calls after the reset. *)
Section PreservesImport.
Context `{K : Constants} `{W : World}.
Context (R : relation State) `{!PreOrder R}.
Hypothesis R_dirname : ∀ v st, R st (with__dirname v st).
Hypothesis R_xml : ∀ v st, R st (with__xml v st).
Hypothesis R_file_map : ∀ v st, R st (with__tileset_file_map v st).
Hypothesis R_chunk_map : ∀ v st, R st (with__tileset_chunk_map v st).
Hypothesis R_dpla : ∀ c d st, R st (with__dpla c d st).
Hypothesis R_dpc : ∀ v st, R st (with_dpc_chunks v st).
Hypothesis R_targets : ∀ p t c d st, R st (with_targets p t c d st).
Hypothesis R_palette : ∀ p st, _palette st = None → R st (with__palette (Some p) st).
Hypothesis R_chunks : ∀ c st, R st (with__chunks (_chunks st ++ [c]) st).
Hypothesis R_setitem : ∀ i v, preserves R (chunk_mappings_setitem i v).

Local Hint Resolve R_dirname R_xml R_file_map R_chunk_map R_dpla R_dpc R_targets
  R_chunks R_setitem : core.

Lemma preserves_validate_xml_attribs ele attribs :
  preserves R (validate_xml_attribs ele attribs).
Proof. unfold validate_xml_attribs. preserves_auto. Qed.

Lemma preserves_Dma_set typ n v c : preserves R (Dma_set typ n v c).
Proof. apply R_setitem. Qed.

Lemma preserves_Dma_set_extra t i c : preserves R (Dma_set_extra t i c).
Proof. apply R_setitem. Qed.

Lemma preserves_insert_chunk_or_reuse c : preserves R (_insert_chunk_or_reuse c).
Proof. unfold _insert_chunk_or_reuse. preserves_auto. Qed.

Lemma preserves_import_animation a0 a1 d0 d1 :
  preserves R (_import_animation a0 a1 d0 d1).
Proof. unfold _import_animation. preserves_auto. Qed.

Lemma preserves_convert_hex h : preserves R (_convert_hex_str_color_to_tuple h).
Proof. unfold _convert_hex_str_color_to_tuple. preserves_auto. Qed.

Lemma preserves_assert_file_exists fn : preserves R (_assert_file_exists fn).
Proof. by apply preserves_raise_if. Qed.

Local Hint Resolve preserves_validate_xml_attribs preserves_Dma_set
  preserves_Dma_set_extra preserves_insert_chunk_or_reuse
  preserves_import_animation preserves_convert_hex
  preserves_assert_file_exists : core.

Lemma preserves_open_tileset fn : preserves R (_open_tileset fn).
Proof.
  unfold _open_tileset. preserves_head. cbv zeta. do 5 preserves_head.
  intros st. unfold mbind, M_bind, bind, gets. simpl.
  destruct (_palette st) eqn:Hp; simpl.
  - by apply preserves_raise_if.
  - etrans; [by apply R_palette|]. by apply preserves_raise_if.
Qed.

Local Hint Resolve preserves_open_tileset : core.

Lemma preserves_import_tileset_entry fn typ bx by_ w var_id prev_fn tileset entry :
  preserves R (_import_tileset_entry fn typ bx by_ w var_id prev_fn tileset entry).
Proof. unfold _import_tileset_entry. preserves_auto. Qed.

Local Hint Resolve preserves_import_tileset_entry : core.

Lemma preserves_import_tileset fn rule_map typ bx by_ w h var_id prev_fn :
  preserves R (_import_tileset fn rule_map typ bx by_ w h var_id prev_fn).
Proof. unfold _import_tileset. preserves_auto. Qed.

Lemma preserves_read_additional_chunk_idx fn x y dirname :
  preserves R (_read_additional_chunk_idx fn x y dirname).
Proof. unfold _read_additional_chunk_idx. preserves_auto. Qed.

Lemma preserves_import_mapping mapping chunk :
  preserves R (_import_mapping mapping chunk).
Proof. unfold _import_mapping. preserves_auto. Qed.

Lemma preserves_import_special pattern t mapping chunk :
  preserves R (_import_special pattern t mapping chunk).
Proof. unfold _import_special. preserves_auto. Qed.

Local Hint Resolve preserves_import_tileset preserves_read_additional_chunk_idx
  preserves_import_mapping preserves_import_special : core.

Lemma preserves_import_special_mapping mapping chunk :
  preserves R (_import_special_mapping mapping chunk).
Proof. unfold _import_special_mapping. preserves_auto. Qed.

Local Hint Resolve preserves_import_special_mapping : core.

Lemma preserves_import_additional_tiles xml dirname :
  preserves R (_import_additional_tiles xml dirname).
Proof. unfold _import_additional_tiles. preserves_auto. Qed.

Lemma preserves_merge_chunks : preserves R _merge_chunks.
Proof. unfold _merge_chunks. preserves_auto. Qed.

Lemma preserves_prepare_import_animation child :
  preserves R (_prepare_import_animation child).
Proof. unfold _prepare_import_animation. preserves_auto. Qed.

Local Hint Resolve preserves_import_additional_tiles preserves_merge_chunks
  preserves_prepare_import_animation : core.

Lemma preserves_finalize : preserves R _finalize.
Proof. unfold _finalize. preserves_auto. Qed.

Lemma preserves_import_children xml dirname :
  preserves R (_import_children xml dirname).
Proof. unfold _import_children, _import_child. preserves_auto. Qed.

Lemma preserves_previous_tileset ts i : preserves R (_previous_tileset ts i).
Proof. unfold _previous_tileset. preserves_auto. Qed.

Local Hint Resolve preserves_finalize preserves_import_children
  preserves_previous_tileset : core.

Lemma preserves_do_import_body dirname fn_xml fn_var0 fn_var1 fn_var2 :
  preserves R (_do_import_body dirname fn_xml fn_var0 fn_var1 fn_var2).
Proof. unfold _do_import_body. preserves_auto. Qed.

End PreservesImport.

(** ** The frame of a session, the growth of the pool, the palette *)

#[local] Instance frame_preorder : PreOrder frame.
Proof.
  split.
  - by intros st.
  - intros st1 st2 st3 (Ho1 & Hd1 & Hh1) (Ho2 & Hd2 & Hh2). repeat split.
    + congruence.
    + congruence.
    + intros p Hp. rewrite Hh2, Hh1; [done..|congruence].
Qed.

#[local] Instance pool_grows_preorder : PreOrder pool_grows.
Proof.
  split; [intros st; by unfold pool_grows|].
  intros st1 st2 st3 ??. unfold pool_grows in *. by etrans.
Qed.

#[local] Instance palette_kept_preorder : PreOrder palette_kept.
Proof. split; [by intros st p|]. intros st1 st2 st3 H1 H2 p Hp. eauto. Qed.

Lemma chunk_mappings_setitem_inr i v st st' :
  chunk_mappings_setitem i v st = (inr tt, st') →
  ∃ k, py_index (chunk_mappings st) i = Some k ∧
       chunk_mappings st' = <[k := v]> (chunk_mappings st) ∧
       st' = with_heap (<[dma_chunk_mappings st := <[k := v]> (chunk_mappings st)]> (heap st)) st.
Proof.
  unfold chunk_mappings_setitem, py_setitem.
  destruct (py_index (chunk_mappings st) i) as [k|] eqn:Hk; [|done].
  intros [= <-]. exists k. split; [done|]. split; [|done].
  unfold chunk_mappings in *. simpl.
  destruct (heap st !! dma_chunk_mappings st) as [l|] eqn:Hl.
  - by rewrite list_lookup_insert_eq by by eapply lookup_lt_Some.
  - by destruct i.
Qed.

Lemma chunk_mappings_setitem_inl i v st e st' :
  chunk_mappings_setitem i v st = (inl e, st') → st' = st.
Proof.
  unfold chunk_mappings_setitem. destruct (py_setitem _ _ _); congruence.
Qed.

Lemma frame_setitem i v : preserves frame (chunk_mappings_setitem i v).
Proof.
  intros st. destruct (chunk_mappings_setitem i v st) as [[e|[]] st'] eqn:Hs; simpl.
  - by apply chunk_mappings_setitem_inl in Hs as ->.
  - apply chunk_mappings_setitem_inr in Hs as (k & _ & _ & ->).
    repeat split. intros p Hp. simpl. by rewrite list_lookup_insert_ne.
Qed.

Lemma pool_grows_setitem i v : preserves pool_grows (chunk_mappings_setitem i v).
Proof.
  intros st. destruct (chunk_mappings_setitem i v st) as [[e|[]] st'] eqn:Hs; simpl.
  - by apply chunk_mappings_setitem_inl in Hs as ->.
  - apply chunk_mappings_setitem_inr in Hs as (k & _ & _ & ->).
    by unfold pool_grows.
Qed.

Lemma palette_kept_setitem i v : preserves palette_kept (chunk_mappings_setitem i v).
Proof.
  intros st. destruct (chunk_mappings_setitem i v st) as [[e|[]] st'] eqn:Hs; simpl.
  - by apply chunk_mappings_setitem_inl in Hs as ->.
  - apply chunk_mappings_setitem_inr in Hs as (k & _ & _ & ->).
    by unfold palette_kept.
Qed.

Section Session.
Context `{K : Constants} `{W : World}.

(** After the reset, an import leaves the saved reference and the list
    object it refers to alone. *)
Lemma frame_do_import_body dirname fn_xml fn_var0 fn_var1 fn_var2 :
  preserves frame (_do_import_body dirname fn_xml fn_var0 fn_var1 fn_var2).
Proof.
  apply preserves_do_import_body; try exact _; try done.
  apply frame_setitem.
Qed.


Lemma palette_kept_open_tileset fn : preserves palette_kept (_open_tileset fn).
Proof.
  apply preserves_open_tileset; try exact _; try (by unfold palette_kept).
  intros p st Hp q. by rewrite Hp.
Qed.


End Session.

(** ** Rollback *)

Section Rollback.
Context `{K : Constants} `{W : World}.

Lemma do_import_unfold dirname fn_xml fn_var0 fn_var1 fn_var2 st :
  do_import dirname fn_xml fn_var0 fn_var1 fn_var2 st =
  match _do_import_body dirname fn_xml fn_var0 fn_var1 fn_var2 (__init__ st).2 with
  | (inr a, st') => (inr a, st')
  | (inl e, st') => (inl e, with_dma_chunk_mappings (_dma__original_chunk_mappings st') st')
  end.
Proof.
  unfold do_import, try_except_reraise, mbind, M_bind, bind. simpl.
  by destruct (_do_import_body _ _ _ _ _ _) as [[e|[]] st'].
Qed.

Lemma chunk_mappings_reset st :
  chunk_mappings (__init__ st).2 = replicate (length (chunk_mappings st)) 0.
Proof.
  unfold chunk_mappings at 1. simpl.
  by rewrite lookup_app_r, Nat.sub_diag by done.
Qed.

(** Wherever the body of an import stops, setting the reference in
    [dma.chunk_mappings] back restores the list object of before the
    call, with the entries of before the call. *)
Lemma do_import_body_frame dirname fn_xml fn_var0 fn_var1 fn_var2 st r st2 :
  valid_reference st →
  _do_import_body dirname fn_xml fn_var0 fn_var1 fn_var2 (__init__ st).2 = (r, st2) →
  _dma__original_chunk_mappings st2 = dma_chunk_mappings st ∧
  chunk_mappings (with_dma_chunk_mappings (_dma__original_chunk_mappings st2) st2)
  = chunk_mappings st.
Proof.
  intros Hvalid Hbody.
  pose proof (frame_do_import_body dirname fn_xml fn_var0 fn_var1 fn_var2
                (__init__ st).2) as (Ho & Hd & Hh).
  rewrite Hbody in Ho, Hd, Hh. simpl in *. split; [done|].
  unfold chunk_mappings. simpl. unfold valid_reference in Hvalid.
  rewrite Ho, Hh by lia. by rewrite lookup_app_l.
Qed.

(** A failed import ends in the state its body reached, with the reference
    in [dma.chunk_mappings] set back. *)
Lemma do_import_inl dirname fn_xml fn_var0 fn_var1 fn_var2 st e st' :
  valid_reference st →
  do_import dirname fn_xml fn_var0 fn_var1 fn_var2 st = (inl e, st') →
  ∃ st2, _do_import_body dirname fn_xml fn_var0 fn_var1 fn_var2 (__init__ st).2
         = (inl e, st2) ∧
         st' = with_dma_chunk_mappings (dma_chunk_mappings st) st2 ∧
         chunk_mappings st' = chunk_mappings st.
Proof.
  intros Hvalid. rewrite do_import_unfold.
  destruct (_do_import_body _ _ _ _ _ _) as [[e'|[]] st2] eqn:Hbody; [|done].
  destruct (do_import_body_frame _ _ _ _ _ _ _ _ Hvalid Hbody) as [Ho Hc].
  intros [= -> <-]. exists st2. by rewrite <- Ho.
Qed.

(** C1. If [do_import] raises an error, at whatever stage, then after the
    failed call [dma.chunk_mappings] refers to the list object it referred
    to before the call, and every entry of that list has the value it had
    before the call. *)
Theorem do_import_rollback dirname fn_xml fn_var0 fn_var1 fn_var2 st e st' :
  valid_reference st →
  do_import dirname fn_xml fn_var0 fn_var1 fn_var2 st = (inl e, st') →
  dma_chunk_mappings st' = dma_chunk_mappings st ∧
  chunk_mappings st' = chunk_mappings st.
Proof.
  intros Hvalid Hfail.
  destruct (do_import_inl _ _ _ _ _ _ _ _ Hvalid Hfail) as (st2 & _ & -> & Hcm).
  by split.
Qed.

End Rollback.

(** ** Similar states *)

Lemma respects_ret {A} (a : A) : respects (ret a).
Proof. by intros st1 st2 Hs. Qed.

Lemma respects_raise {A} e : respects (@raise A e).
Proof. by intros st1 st2 Hs. Qed.

Lemma respects_lift {A} (r : Exception + A) : respects (lift r).
Proof. destruct r; [apply respects_raise|apply respects_ret]. Qed.

Lemma respects_getitem {A} (o : option A) : respects (getitem o).
Proof. destruct o; [apply respects_ret|apply respects_raise]. Qed.

Lemma respects_raise_if b e : respects (raise_if b e).
Proof. destruct b; [apply respects_raise|apply respects_ret]. Qed.

Lemma respects_gets {A} (f : State → A) :
  (∀ st, f st = f (erase st)) → respects (gets f).
Proof.
  intros Hf st1 st2 Hs. split; [|done]. simpl. f_equal.
  rewrite (Hf st1), (Hf st2). by destruct Hs as [-> _].
Qed.

Lemma respects_modify f :
  (∀ st, erase (f st) = erase (f (erase st))) →
  (∀ st, chunk_mappings (f st) = chunk_mappings st) →
  respects (modify f).
Proof.
  intros Hf Hc st1 st2 [He Hs]. split; [done|]. simpl. split.
  - by rewrite (Hf st1), (Hf st2), He.
  - by rewrite !Hc.
Qed.

Lemma respects_bind {A B} (m : M A) (k : A → M B) :
  respects m → (∀ a, respects (k a)) → respects (bind m k).
Proof.
  intros Hm Hk st1 st2 Hs. unfold bind. destruct (Hm _ _ Hs) as [Ho Hs'].
  destruct (m st1) as [[e1|a1] st1'], (m st2) as [[e2|a2] st2'];
    simpl in *; simplify_eq; [done|]. by apply Hk.
Qed.

Lemma respects_mbind {A B} (m : M A) (k : A → M B) :
  respects m → (∀ a, respects (k a)) → respects (m ≫= k).
Proof. apply respects_bind. Qed.

Lemma respects_for_each {A} (l : list A) body :
  (∀ a, respects (body a)) → respects (for_each l body).
Proof.
  intros Hb. induction l; simpl; [apply respects_ret|].
  apply respects_bind; [apply Hb|done].
Qed.

Lemma respects_for_fold {A B} (l : list A) (acc : B) body :
  (∀ acc a, respects (body acc a)) → respects (for_fold l acc body).
Proof.
  intros Hb. revert acc. induction l; intros acc; simpl; [apply respects_ret|].
  apply respects_bind; [apply Hb|done].
Qed.

Lemma respects_setitem i v : respects (chunk_mappings_setitem i v).
Proof.
  intros st1 st2 [He Hc].
  destruct (chunk_mappings_setitem i v st1) as [[e1|[]] st1'] eqn:H1,
           (chunk_mappings_setitem i v st2) as [[e2|[]] st2'] eqn:H2; simpl.
  - apply chunk_mappings_setitem_inl in H1 as E1.
    apply chunk_mappings_setitem_inl in H2 as E2. subst. split; [|done].
    unfold chunk_mappings_setitem in *. rewrite Hc in H1.
    destruct (py_setitem _ _ _); congruence.
  - unfold chunk_mappings_setitem in *. rewrite Hc in H1.
    destruct (py_setitem _ _ _); congruence.
  - unfold chunk_mappings_setitem in *. rewrite Hc in H1.
    destruct (py_setitem _ _ _); congruence.
  - apply chunk_mappings_setitem_inr in H1 as (k1 & Hk1 & Hc1 & ->).
    apply chunk_mappings_setitem_inr in H2 as (k2 & Hk2 & Hc2 & ->).
    split; [done|]. split; [done|]. rewrite Hc1, Hc2. congruence.
Qed.

Ltac respects_step :=
  lazymatch goal with
  | |- respects (bind _ _) => apply respects_bind; [|intros ?]
  | |- respects (mbind _ _) => apply respects_mbind; [|intros ?]
  | |- respects (ret _) => apply respects_ret
  | |- respects (raise _) => apply respects_raise
  | |- respects (gets _) => apply respects_gets; intros ?; reflexivity
  | |- respects (lift _) => apply respects_lift
  | |- respects (getitem _) => apply respects_getitem
  | |- respects (attr _ _) => apply respects_getitem
  | |- respects (raise_if _ _) => apply respects_raise_if
  | |- respects (py_assert _) => apply respects_raise_if
  | |- respects (validate_xml_tag _ _) => apply respects_raise_if
  | |- respects (chunk_mappings_setitem _ _) => apply respects_setitem
  | |- respects (Dma_set _ _ _ _) => apply respects_setitem
  | |- respects (Dma_set_extra _ _ _) => apply respects_setitem
  | |- respects (modify _) => apply respects_modify; intros ?; reflexivity
  | |- respects (for_each _ _) => apply respects_for_each; intros ?
  | |- respects (for_fold _ _ _) => apply respects_for_fold; intros ? ?
  | |- respects (match ?x with _ => _ end) => destruct x
  | |- respects ((match ?x with _ => _ end) _) => destruct x
  | |- respects (let _ := _ in _) => cbv zeta
  end.

Ltac respects_auto := repeat respects_step; eauto.

Section Respects.
Context `{K : Constants} `{W : World}.

Lemma respects_validate_xml_attribs ele attribs :
  respects (validate_xml_attribs ele attribs).
Proof. unfold validate_xml_attribs. respects_auto. Qed.

Lemma respects_insert_chunk_or_reuse c : respects (_insert_chunk_or_reuse c).
Proof. unfold _insert_chunk_or_reuse. respects_auto. Qed.

Lemma respects_import_animation a0 a1 d0 d1 : respects (_import_animation a0 a1 d0 d1).
Proof. unfold _import_animation. respects_auto. Qed.

Lemma respects_convert_hex h : respects (_convert_hex_str_color_to_tuple h).
Proof. unfold _convert_hex_str_color_to_tuple. respects_auto. Qed.

Lemma respects_assert_file_exists fn : respects (_assert_file_exists fn).
Proof. apply respects_raise_if. Qed.

Local Hint Resolve respects_validate_xml_attribs respects_insert_chunk_or_reuse
  respects_import_animation respects_convert_hex respects_assert_file_exists : core.

Lemma respects_open_tileset fn : respects (_open_tileset fn).
Proof. unfold _open_tileset. respects_auto. Qed.

Local Hint Resolve respects_open_tileset : core.

Lemma respects_import_tileset_entry fn typ bx by_ w var_id prev_fn tileset entry :
  respects (_import_tileset_entry fn typ bx by_ w var_id prev_fn tileset entry).
Proof. unfold _import_tileset_entry. respects_auto. Qed.

Local Hint Resolve respects_import_tileset_entry : core.

Lemma respects_import_tileset fn rule_map typ bx by_ w h var_id prev_fn :
  respects (_import_tileset fn rule_map typ bx by_ w h var_id prev_fn).
Proof. unfold _import_tileset. respects_auto. Qed.

Lemma respects_read_additional_chunk_idx fn x y dirname :
  respects (_read_additional_chunk_idx fn x y dirname).
Proof. unfold _read_additional_chunk_idx. respects_auto. Qed.

Lemma respects_import_mapping mapping chunk : respects (_import_mapping mapping chunk).
Proof. unfold _import_mapping. respects_auto. Qed.

Lemma respects_import_special pattern t mapping chunk :
  respects (_import_special pattern t mapping chunk).
Proof. unfold _import_special. respects_auto. Qed.

Local Hint Resolve respects_import_tileset respects_read_additional_chunk_idx
  respects_import_mapping respects_import_special : core.

Lemma respects_import_special_mapping mapping chunk :
  respects (_import_special_mapping mapping chunk).
Proof. unfold _import_special_mapping. respects_auto. Qed.

Local Hint Resolve respects_import_special_mapping : core.

Lemma respects_import_additional_tiles xml dirname :
  respects (_import_additional_tiles xml dirname).
Proof. unfold _import_additional_tiles. respects_auto. Qed.

Lemma respects_merge_chunks : respects _merge_chunks.
Proof. unfold _merge_chunks. respects_auto. Qed.

Lemma respects_prepare_import_animation child :
  respects (_prepare_import_animation child).
Proof. unfold _prepare_import_animation. respects_auto. Qed.

Local Hint Resolve respects_import_additional_tiles respects_merge_chunks
  respects_prepare_import_animation : core.

Lemma respects_finalize : respects _finalize.
Proof. unfold _finalize. respects_auto. Qed.

Lemma respects_import_children xml dirname : respects (_import_children xml dirname).
Proof. unfold _import_children, _import_child. respects_auto. Qed.

Lemma respects_previous_tileset ts i : respects (_previous_tileset ts i).
Proof. unfold _previous_tileset. respects_auto. Qed.

Local Hint Resolve respects_finalize respects_import_children
  respects_previous_tileset : core.

Lemma respects_do_import_body dirname fn_xml fn_var0 fn_var1 fn_var2 :
  respects (_do_import_body dirname fn_xml fn_var0 fn_var1 fn_var2).
Proof. unfold _do_import_body. respects_auto. Qed.

End Respects.

(** ** Determinism *)

Lemma erase_same_targets st1 st2 :
  erase st1 = erase st2 → chunk_mappings st1 = chunk_mappings st2 →
  _chunks st1 = _chunks st2 ∧ same_targets st1 st2.
Proof.
  intros He Hc. unfold same_targets.
  pose proof (f_equal _chunks He). pose proof (f_equal dpc_chunks He).
  pose proof (f_equal dpci_tiles He). pose proof (f_equal dpl_palettes He).
  pose proof (f_equal dpla_colors He).
  pose proof (f_equal dpla_durations_per_frame_for_colors He).
  by simpl in *.
Qed.

Section Determinism.
Context `{K : Constants} `{W : World}.

Lemma sim_reset st1 st2 : same_targets st1 st2 → sim (__init__ st1).2 (__init__ st2).2.
Proof.
  intros (Hc & Hd & Hi & Hl & Ha & Hu). split.
  - unfold erase. simpl. congruence.
  - rewrite !chunk_mappings_reset. by rewrite Hc.
Qed.

(** C4. Two runs of [do_import] on the same package against two sets of
    target models that are equal, each with a valid table reference, have
    the same outcome and end with equal chunk pools, equal neighbor-mapping
    tables and equal other target models.  The importers themselves may be
    in any state before the call: the reset makes the run independent of
    it. *)
Theorem do_import_deterministic dirname fn_xml fn_var0 fn_var1 fn_var2 st1 st2 :
  valid_reference st1 → valid_reference st2 → same_targets st1 st2 →
  let r1 := do_import dirname fn_xml fn_var0 fn_var1 fn_var2 st1 in
  let r2 := do_import dirname fn_xml fn_var0 fn_var1 fn_var2 st2 in
  r1.1 = r2.1 ∧ _chunks r1.2 = _chunks r2.2 ∧ same_targets r1.2 r2.2.
Proof.
  intros Hv1 Hv2 Hsame. simpl.
  destruct (respects_do_import_body dirname fn_xml fn_var0 fn_var1 fn_var2
              _ _ (sim_reset _ _ Hsame)) as [Hout [He Hc]].
  rewrite !do_import_unfold.
  destruct (_do_import_body _ _ _ _ _ (__init__ st1).2) as [r1 s1] eqn:Hb1.
  destruct (_do_import_body _ _ _ _ _ (__init__ st2).2) as [r2 s2] eqn:Hb2.
  destruct (do_import_body_frame _ _ _ _ _ _ _ _ Hv1 Hb1) as [_ Hc1].
  destruct (do_import_body_frame _ _ _ _ _ _ _ _ Hv2 Hb2) as [_ Hc2].
  simpl in Hout, He, Hc. subst r2. destruct r1 as [e|[]]; simpl.
  - split; [done|].
    apply (erase_same_targets (with_dma_chunk_mappings _ s1)
                              (with_dma_chunk_mappings _ s2)); [exact He|].
    rewrite Hc1, Hc2. apply Hsame.
  - split; [done|]. by apply erase_same_targets.
Qed.

End Determinism.

(** ** Palettes *)

Section Palette.
Context `{W : World}.

(** A load that succeeds in a session without a palette sets the palette
    of the session to the palette of the loaded image. *)
Lemma open_tileset_first fn st st' img :
  _palette st = None → Image_open fn = inr img →
  _open_tileset fn st = (inr tt, st') →
  _palette st' = Some (palette img).
Proof.
  intros Hp Hi. unfold _open_tileset, _assert_file_exists. unfold_monad.
  destruct (os_path_exists fn); simpl; [|done]. rewrite Hi. simpl.
  destruct (bool_decide (mode img ≠ "P")); simpl; [done|].
  destruct (_ || _); simpl; [done|]. rewrite Hp. simpl.
  destruct (bool_decide _); simpl; [done|]. by intros [= <-].
Qed.

Lemma for_each_cons_inr {A} (a : A) l body st st' :
  for_each (a :: l) body st = (inr tt, st') →
  ∃ st1, body a st = (inr tt, st1) ∧ for_each l body st1 = (inr tt, st').
Proof. simpl. intros ([] & st1 & ? & ?)%bind_inr. eauto. Qed.

Lemma palette_kept_loads fns st st' :
  for_each fns _open_tileset st = (inr tt, st') → palette_kept st st'.
Proof.
  intros Hrun.
  pose proof (preserves_for_each palette_kept fns _open_tileset
                palette_kept_open_tileset st) as Hk.
  by rewrite Hrun in Hk.
Qed.

(** C5. In a session that starts without a palette and in which the loads
    [f1 :: fns] have succeeded, loading an indexed image with a palette of
    256 RGB entries whose bytes differ from the palette of the first loaded
    image raises the palette-mismatch [ValueError], and the chunk pool
    after the failed load is the chunk pool before it. *)
Theorem open_tileset_palette_mismatch f1 fns fn st0 st img1 img :
  _palette st0 = None →
  for_each (f1 :: fns) _open_tileset st0 = (inr tt, st) →
  Image_open f1 = inr img1 →
  os_path_exists fn = true →
  Image_open fn = inr img →
  mode img = "P" →
  palette_mode img = "RGB" →
  length (palette img) = 768%nat →
  palette img ≠ palette img1 →
  ∃ st', _open_tileset fn st
         = (inl (ValueError (PaletteMismatch (os_path_basename fn))), st') ∧
         _chunks st' = _chunks st.
Proof.
  intros Hp0 Hloads Hi1 Hex Hi Hmode Hpm Hlen Hne.
  apply for_each_cons_inr in Hloads as (st1 & Hfirst & Hrest).
  pose proof (open_tileset_first _ _ _ _ Hp0 Hi1 Hfirst) as Hp1.
  apply palette_kept_loads in Hrest. apply Hrest in Hp1.
  unfold _open_tileset, _assert_file_exists. unfold_monad.
  rewrite Hex, Hi. simpl.
  rewrite (bool_decide_false (mode img ≠ "P")) by (by intros []).
  rewrite (bool_decide_false (palette_mode img ≠ "RGB")) by (by intros []).
  rewrite (bool_decide_false (Z.of_nat (length (palette img)) ≠ 256 * 3))
    by (rewrite Hlen; by intros []).
  simpl. rewrite Hp1. simpl.
  rewrite bool_decide_true by congruence. eauto.
Qed.

End Palette.

(** ** Writing the table *)

Lemma py_index_lt {A} (l : list A) i k : py_index l i = Some k → (k < length l)%nat.
Proof.
  unfold py_index. repeat case_match; intros [= <-]; lia.
Qed.

Lemma py_index_length {A} (l l' : list A) i :
  length l = length l' → py_index l i = py_index l' i.
Proof. unfold py_index. by intros ->. Qed.

Lemma py_getitem_inr {A} (l : list A) i k v :
  py_index l i = Some k → l !! k = Some v → py_getitem l i = inr v.
Proof. unfold py_getitem. intros -> Hv. simpl. by rewrite Hv. Qed.

(** Reading the table: a non-negative index denotes its own position, and
    [Dma.get] returns the entries of the three variations of a pattern. *)
Lemma py_getitem_lookup {A} (l : list A) i v :
  0 ≤ i → py_getitem l i = inr v → l !! Z.to_nat i = Some v.
Proof.
  intros Hi. unfold py_getitem, py_index.
  destruct ((0 <=? i) && (i <? Z.of_nat (length l))) eqn:Hin; simpl.
  - destruct (l !! Z.to_nat i); by intros [= <-].
  - destruct ((- Z.of_nat (length l) <=? i) && (i <? 0)) eqn:Hneg; [|done].
    apply andb_prop in Hneg as [_ Hneg%Z.ltb_lt]. lia.
Qed.

Lemma Dma_get_lookup st typ n (var : nat) :
  0 ≤ n → (var < 3)%nat →
  Dma_get st typ n !! var
  = chunk_mappings st !! Z.to_nat (Dma_index typ n (Z.of_nat var)).
Proof.
  intros Hn Hvar. unfold Dma_get. rewrite lookup_take.
  rewrite decide_True by done.
  rewrite lookup_drop. f_equal. unfold Dma_index. destruct typ; cbv zeta; lia.
Qed.

Lemma chunk_mappings_setitem_run i v st k :
  py_index (chunk_mappings st) i = Some k →
  ∃ st', chunk_mappings_setitem i v st = (inr tt, st') ∧ erase st' = erase st ∧
         chunk_mappings st' = <[k := v]> (chunk_mappings st).
Proof.
  intros Hk.
  destruct (chunk_mappings_setitem i v st) as [[e|[]] st'] eqn:Hs.
  - unfold chunk_mappings_setitem, py_setitem in Hs. by rewrite Hk in Hs.
  - apply chunk_mappings_setitem_inr in Hs as (k' & Hk' & Hc & ->).
    assert (k' = k) as -> by congruence. eauto.
Qed.

(** The loop [for rule in rules: dma.set(typ, rule, var_id, chunk_index)]
    on a table that has all the entries: it returns, every entry it writes
    ends with [chunk_index], and nothing but the table changes. *)
Lemma for_each_Dma_set typ var_id chunk_index rules st :
  (∀ rule, rule ∈ rules →
     is_Some (py_index (chunk_mappings st) (Dma_index typ rule var_id))) →
  ∃ st', for_each rules (fun rule => Dma_set typ rule var_id chunk_index) st
         = (inr tt, st') ∧
         erase st' = erase st ∧
         length (chunk_mappings st') = length (chunk_mappings st) ∧
         (∀ pos, chunk_mappings st !! pos = Some chunk_index →
                 chunk_mappings st' !! pos = Some chunk_index) ∧
         ∀ rule, rule ∈ rules →
           py_getitem (chunk_mappings st') (Dma_index typ rule var_id)
           = inr chunk_index.
Proof.
  revert st. induction rules as [|r rules IH]; intros st Hin.
  - exists st. repeat split; try done. by intros rule ?%elem_of_nil.
  - destruct (Hin r) as [k Hk]; [by left|].
    destruct (chunk_mappings_setitem_run _ chunk_index _ _ Hk)
      as (st1 & Hrun & He1 & Hc1).
    destruct (IH st1) as (st' & Hloop & He & Hlen & Hkeep & Hall).
    { intros rule Hr. rewrite (py_index_length _ (chunk_mappings st)).
      - apply Hin. by right.
      - by rewrite Hc1, length_insert. }
    exists st'. split.
    { simpl. unfold Dma_set at 1. by rewrite (bind_run _ _ _ _ _ Hrun). }
    split; [congruence|]. split.
    { by rewrite Hlen, Hc1, length_insert. }
    split.
    { intros pos Hpos. apply Hkeep. rewrite Hc1.
      destruct (decide (pos = k)) as [->|Hne].
      - rewrite list_lookup_insert_eq; [done|]. by eapply py_index_lt.
      - by rewrite list_lookup_insert_ne. }
    intros rule [->|Hr]%elem_of_cons; [|by apply Hall].
    apply (py_getitem_inr _ _ k).
    + rewrite <- Hk. apply py_index_length. by rewrite Hlen, Hc1, length_insert.
    + apply Hkeep. rewrite Hc1. apply list_lookup_insert_eq. by eapply py_index_lt.
Qed.

Section ImportTileset.
Context `{K : Constants} `{W : World}.

(** The end of a round of the loop of [_import_tileset], from the
    assignment to the position cache on. *)
Lemma import_tileset_entry_record fn typ var_id x y chunk_index rules st positions :
  _tileset_chunk_map st !! fn = Some positions →
  (∀ rule, rule ∈ rules →
     is_Some (py_index (chunk_mappings st) (Dma_index typ rule var_id))) →
  ∃ st',
    (chunk_map ← gets _tileset_chunk_map;
     positions ← getitem (chunk_map !! fn);
     modify (with__tileset_chunk_map
               (<[fn := <[(x, y) := chunk_index]> positions]> chunk_map));;
     for_each rules (fun rule => Dma_set typ rule var_id chunk_index)) st
    = (inr tt, st') ∧
    _chunks st' = _chunks st ∧
    (_tileset_chunk_map st' !! fn) ≫= (.!! (x, y)) = Some chunk_index ∧
    ∀ rule, rule ∈ rules →
      py_getitem (chunk_mappings st') (Dma_index typ rule var_id) = inr chunk_index.
Proof.
  intros Hfn Hin. unfold_monad. rewrite Hfn. simpl.
  destruct (for_each_Dma_set typ var_id chunk_index rules
              (with__tileset_chunk_map
                 (<[fn := <[(x, y) := chunk_index]> positions]> (_tileset_chunk_map st))
                 st) Hin) as (st' & Hrun & He & _ & _ & Hall).
  exists st'. split; [done|].
  pose proof (f_equal _chunks He) as Hchunks.
  pose proof (f_equal _tileset_chunk_map He) as Hmap. simpl in *.
  split; [done|]. split; [|done].
  rewrite Hmap, lookup_insert_eq. simpl. by rewrite lookup_insert_eq.
Qed.



End ImportTileset.

(** ** Animations *)

Lemma all_ascii_forall (P : ascii → bool) :
  forallb P all_ascii = true → ∀ c, P c = true.
Proof.
  intros H c. rewrite forallb_forall in H. apply H.
  rewrite <- (ascii_nat_embedding c). apply in_map, in_seq.
  pose proof (nat_ascii_bounded c). lia.
Qed.

(** [int(s, 16)] on two hexadecimal digits, checked on every pair of
    characters. *)
Lemma py_int_hex_pair a b :
  is_hex_digit a = true → is_hex_digit b = true →
  py_int_base 16 (String a (String b EmptyString))
  = inr (16 * hex_value a + hex_value b).
Proof.
  intros Ha Hb.
  set (ok a b := implb (is_hex_digit a) (implb (is_hex_digit b)
         (bool_decide (py_int_base 16 (String a (String b EmptyString))
                       = inr (16 * hex_value a + hex_value b))))).
  assert (forallb (fun a => forallb (ok a) all_ascii) all_ascii = true) as Hall
    by (vm_compute; reflexivity).
  pose proof (all_ascii_forall _ (all_ascii_forall _ Hall a) b) as H.
  unfold ok in H. rewrite Ha, Hb in H. cbn [implb] in H.
  by apply bool_decide_eq_true in H.
Qed.

Lemma convert_hex_color h st :
  hex_color h →
  _convert_hex_str_color_to_tuple (Some h) st = (inr (rgb_of_hex h), st).
Proof.
  intros (a & b & c & d & e & f & -> & Hhex). simpl in Hhex.
  repeat (apply andb_prop in Hhex as [? Hhex]).
  unfold _convert_hex_str_color_to_tuple, slice. simpl. unfold_monad.
  by rewrite !py_int_hex_pair.
Qed.

Lemma rgb_of_hex_length h : hex_color h → length (rgb_of_hex h) = 3%nat.
Proof. by intros (a & b & c & d & e & f & -> & _). Qed.

Section Animation.
Context `{K : Constants} `{W : World}.

(** The loop over the colors of a frame: slot [i0 + j] gets the bytes of
    color [j], the other slots stay. *)
Lemma animation_frame_colors kids (i0 : nat) colors st :
  Forall well_formed_color kids →
  (i0 + length kids ≤ length colors)%nat →
  ∃ colors',
    for_fold (enumerate_from (Z.of_nat i0) kids) colors
      (fun colors '(i, color) =>
         validate_xml_tag color COLOR;;
         rgb ← _convert_hex_str_color_to_tuple (text color);
         ret (alter (fun c => c ++ rgb) (Z.to_nat i) colors)) st
    = (inr colors', st) ∧
    length colors' = length colors ∧
    ∀ p, colors' !! p =
         if decide (i0 ≤ p < i0 + length kids)%nat
         then (fun c => c ++ from_option color_rgb [] (kids !! (p - i0)%nat))
                <$> colors !! p
         else colors !! p.
Proof.
  intros Hwf. revert i0 colors.
  induction Hwf as [|color kids (Htag & h & Htext & Hhex) _ IH]; intros i0 colors Hlen.
  - exists colors. split; [done|]. split; [done|]. intros p. simpl.
    case_decide; [lia|done].
  - simpl in Hlen.
    destruct (IH (S i0) (alter (fun c => c ++ rgb_of_hex h) i0 colors))
      as (colors' & Hrun & Hlen' & Hslots).
    { rewrite length_alter. lia. }
    exists colors'. split.
    { simpl. erewrite bind_run.
      - replace (Z.of_nat i0 + 1) with (Z.of_nat (S i0)) by lia. apply Hrun.
      - unfold validate_xml_tag. unfold_monad_goal.
        rewrite bool_decide_false by (by intros []). rewrite Htext.
        rewrite convert_hex_color by done. by rewrite Nat2Z.id. }
    split; [by rewrite Hlen', length_alter|].
    intros p. rewrite Hslots. simpl.
    destruct (decide (p = i0)) as [->|Hne].
    + rewrite decide_False by lia. rewrite decide_True by lia.
      rewrite list_lookup_alter, Nat.sub_diag. simpl.
      unfold color_rgb. rewrite Htext. by rewrite decide_True by done.
    + rewrite list_lookup_alter_ne by done.
      case_decide.
      * rewrite decide_True by lia.
        by replace (p - i0)%nat with (S (p - S i0)) by lia.
      * by rewrite decide_False by lia.
Qed.

(** The loop over the frames of an animation: slot [p] grows by the bytes
    the frames give it, in document order. *)
Lemma animation_frames frames colors st :
  Forall well_formed_frame frames →
  length colors = 16%nat →
  ∃ colors',
    for_fold frames colors (fun colors frame =>
      validate_xml_tag frame FRAME;;
      raise_if (bool_decide (length (children frame) ≠ 16%nat))
               (ValueError FrameWithout16Colors);;
      for_fold (enumerate (children frame)) colors (fun colors '(i, color) =>
        validate_xml_tag color COLOR;;
        rgb ← _convert_hex_str_color_to_tuple (text color);
        ret (alter (fun c => c ++ rgb) (Z.to_nat i) colors))) st
    = (inr colors', st) ∧
    length colors' = 16%nat ∧
    ∀ p, colors' !! p = (fun c => c ++ concat (frame_slot p <$> frames)) <$> colors !! p.
Proof.
  intros Hwf. revert colors.
  induction Hwf as [|frame frames (Htag & Hlen & Hcolors) _ IH]; intros colors Hc.
  - exists colors. split; [done|]. split; [done|]. intros p. simpl.
    destruct (colors !! p); simpl; [|done]. by rewrite app_nil_r.
  - destruct (animation_frame_colors (children frame) 0 colors st Hcolors)
      as (colors1 & Hrun1 & Hlen1 & Hslots1); [lia|].
    destruct (IH colors1) as (colors' & Hrun & Hlen' & Hslots); [lia|].
    exists colors'. split.
    { simpl. erewrite bind_run; [apply Hrun|].
      unfold validate_xml_tag. unfold_monad_goal.
      rewrite bool_decide_false by (by intros []).
      rewrite bool_decide_false by (by intros []). apply Hrun1. }
    split; [done|]. intros p. rewrite Hslots, Hslots1. simpl.
    case_decide as Hp.
    + destruct (colors !! p); simpl; [|done]. f_equal.
      rewrite <- app_assoc. do 2 f_equal. unfold frame_slot. by rewrite Nat.sub_0_r.
    + assert (colors !! p = None) as ->; [|done].
      apply lookup_ge_None. lia.
Qed.

Lemma animation_track_lookup child p :
  (p < 16)%nat →
  animation_track child !! p = Some (concat (frame_slot p <$> children child)).
Proof.
  intros Hp. unfold animation_track. rewrite list_lookup_fmap.
  by rewrite lookup_seq_lt.
Qed.

Lemma animation_track_length child : length (animation_track child) = 16%nat.
Proof. done. Qed.

Lemma frame_slot_length frame p :
  well_formed_frame frame → (p < 16)%nat → length (frame_slot p frame) = 3%nat.
Proof.
  intros (_ & Hlen & Hcolors) Hp. unfold frame_slot.
  destruct (children frame !! p) as [color|] eqn:Hcolor.
  - rewrite Forall_forall in Hcolors.
    destruct (Hcolors color) as (_ & h & Htext & Hhex).
    { by eapply list_elem_of_lookup_2. }
    simpl. unfold color_rgb. rewrite Htext. by apply rgb_of_hex_length.
  - apply lookup_ge_None in Hcolor. lia.
Qed.

Lemma animation_track_slot_length child seq :
  Forall well_formed_frame (children child) →
  seq ∈ animation_track child →
  length seq = (3 * length (children child))%nat.
Proof.
  intros Hwf (p & Hp)%list_elem_of_lookup_1.
  assert (p < 16)%nat as Hlt.
  { apply lookup_lt_Some in Hp. by rewrite animation_track_length in Hp. }
  rewrite animation_track_lookup in Hp by done. injection Hp as <-.
  induction Hwf as [|frame frames Hframe _ IH]; [done|].
  rewrite fmap_cons. cbn [concat].
  rewrite length_app, IH, (frame_slot_length _ _ Hframe Hlt). simpl. lia.
Qed.

(** [_prepare_import_animation] on a well-formed animation element. *)
Lemma prepare_import_animation_run child p d st :
  well_formed_animation child p d →
  _prepare_import_animation child st = (inr (animation_track child, d), st).
Proof.
  intros (_ & _ & _ & (s & Hs & Hd) & Hwf). unfold _prepare_import_animation.
  destruct (animation_frames (children child) (replicate 16 []) st Hwf)
    as (colors & Hrun & Hlen & Hslots); [done|].
  unfold mbind, M_bind. erewrite bind_run by apply Hrun.
  unfold_monad_goal. rewrite Hs. simpl. rewrite Hd. simpl. do 3 f_equal.
  apply list_eq. intros q. rewrite Hslots.
  destruct (decide (q < 16)%nat) as [Hq|Hq].
  - rewrite animation_track_lookup by done.
    by rewrite lookup_replicate_2 by done.
  - rewrite (proj2 (lookup_ge_None _ _)) by (rewrite length_replicate; lia).
    symmetry. apply lookup_ge_None. rewrite animation_track_length. lia.
Qed.

(** A loop stops with an exception when its body raises for one of the
    elements, whatever the loop state. *)
Lemma for_fold_raises {A B} (l : list A) (acc : B) body a st :
  a ∈ l →
  (∀ acc st, ∃ e st', body acc a st = (inl e, st')) →
  ∃ e st', for_fold l acc body st = (inl e, st').
Proof.
  intros Ha Hbody. revert acc st.
  induction l as [|b l IH]; intros acc st; [by apply elem_of_nil in Ha|].
  simpl. unfold bind.
  apply elem_of_cons in Ha as [<-|Ha].
  - destruct (Hbody acc st) as (e & st' & ->). eauto.
  - destruct (body acc b st) as [[e|acc'] st']; eauto.
Qed.

Lemma for_fold_app {A B} (l1 l2 : list A) (acc : B) body st :
  for_fold (l1 ++ l2) acc body st
  = bind (for_fold l1 acc body) (fun acc' => for_fold l2 acc' body) st.
Proof.
  revert acc st. induction l1 as [|a l1 IH]; intros acc st; [reflexivity|].
  simpl. unfold bind. destruct (body acc a st) as [[e|acc'] st']; [done|].
  apply IH.
Qed.


End Animation.

(** ** Special mappings *)

Lemma strip_prefix_app p s : strip_prefix p (p +:+ s) = Some s.
Proof.
  induction p as [|a p IH]; simpl; [by destruct s|]. by rewrite Ascii.eqb_refl.
Qed.

Lemma leading_digits_app digits rest :
  string_forall is_decimal digits = true → no_leading_digit rest →
  leading_digits (digits +:+ rest) = digits.
Proof.
  intros Hd Hrest. induction digits as [|c digits IH]; simpl in *.
  - destruct rest as [|c rest]; [done|]. simpl in *. by rewrite Hrest.
  - apply andb_prop in Hd as [-> Hd]. by rewrite IH.
Qed.

Lemma string_app_nil_r s : s +:+ EmptyString = s.
Proof.
  induction s as [|a s IH]; [done|].
  change (String a (s +:+ EmptyString) = String a s). by rewrite IH.
Qed.

Lemma rev_app_rev_app s1 s2 s3 :
  String.rev_app (String.rev_app s1 s2) s3 = String.rev_app s2 (s1 +:+ s3).
Proof.
  revert s2 s3. induction s1 as [|a s1 IH]; intros s2 s3; simpl; [done|].
  by rewrite IH.
Qed.

Lemma string_rev_involutive s : String.rev (String.rev s) = s.
Proof. unfold String.rev. rewrite rev_app_rev_app. simpl. apply string_app_nil_r. Qed.

Lemma string_forall_rev_app P s1 s2 :
  string_forall P (String.rev_app s1 s2) = string_forall P s1 && string_forall P s2.
Proof.
  revert s2. induction s1 as [|a s1 IH]; intros s2; simpl; [done|].
  rewrite IH. simpl. by destruct (P a), (string_forall P s1).
Qed.

Lemma lstrip_no_space s :
  string_forall (fun c => negb (py_isspace c)) s = true → lstrip s = s.
Proof. destruct s as [|c s]; simpl; [done|]. by destruct (py_isspace c). Qed.

Lemma strip_no_space s :
  string_forall (fun c => negb (py_isspace c)) s = true → strip s = s.
Proof.
  intros Hs. unfold strip. rewrite (lstrip_no_space s) by done.
  rewrite lstrip_no_space; [apply string_rev_involutive|].
  unfold String.rev. rewrite string_forall_rev_app. by rewrite Hs.
Qed.

(** What [int] needs to know of a decimal digit, checked on every
    character. *)
Lemma is_decimal_facts c :
  is_decimal c = true →
  py_isspace c = false ∧ Ascii.eqb c "_" = false ∧
  Ascii.eqb c "+" = false ∧ Ascii.eqb c "-" = false ∧
  digit_in_base 10 c = Some (Z.of_nat (nat_of_ascii c) - 48).
Proof.
  intros Hc.
  set (ok c := implb (is_decimal c)
    (negb (py_isspace c) && negb (Ascii.eqb c "_") && negb (Ascii.eqb c "+")
     && negb (Ascii.eqb c "-")
     && bool_decide (digit_in_base 10 c = Some (Z.of_nat (nat_of_ascii c) - 48)))).
  assert (forallb ok all_ascii = true) as Hall by (vm_compute; reflexivity).
  pose proof (all_ascii_forall _ Hall c) as H. unfold ok in H.
  rewrite Hc in H. cbn [implb] in H.
  apply andb_prop in H as [H Hd]. apply andb_prop in H as [H Hm].
  apply andb_prop in H as [H Hp]. apply andb_prop in H as [Hs Hu].
  apply bool_decide_eq_true in Hd.
  apply negb_true_iff in Hs, Hu, Hp, Hm. done.
Qed.

Lemma parse_sign_unsigned c s :
  Ascii.eqb c "+" = false → Ascii.eqb c "-" = false →
  parse_sign (String c s) = (1, String c s).
Proof.
  intros Hplus Hminus.
  destruct c as [[] [] [] [] [] [] [] []]; try reflexivity; discriminate.
Qed.

Lemma parse_digits_decimal acc s :
  string_forall is_decimal s = true →
  parse_digits 10 acc true s = Some (decimal_from acc s).
Proof.
  revert acc. induction s as [|c s IH]; intros acc Hs; simpl in *; [done|].
  apply andb_prop in Hs as [Hc Hs].
  destruct (is_decimal_facts c Hc) as (_ & -> & _ & _ & ->). by apply IH.
Qed.

(** [int] on a nonempty string of decimal digits. *)
Lemma py_int_decimal s : decimal_digits s → py_int s = inr (decimal_value s).
Proof.
  intros [Hne Hs]. unfold py_int, py_int_base.
  rewrite strip_no_space.
  2:{ clear Hne. induction s as [|c s IH]; simpl in *; [done|].
      apply andb_prop in Hs as [Hc Hs].
      destruct (is_decimal_facts c Hc) as (-> & _). by rewrite IH. }
  destruct s as [|c s]; [done|]. simpl in Hs.
  apply andb_prop in Hs as [Hc Hs].
  destruct (is_decimal_facts c Hc) as (_ & Hu & Hplus & Hminus & Hd).
  rewrite parse_sign_unsigned by done.
  unfold strip_base_prefix. simpl. rewrite Hu, Hd.
  rewrite parse_digits_decimal by done.
  unfold decimal_value. simpl. f_equal. lia.
Qed.

(** A pattern matches every identifier that starts with its literal and a
    run of digits, whatever follows the digits; group 1 is the run. *)
Lemma extra_slot_pattern_match t digits rest :
  decimal_digits digits → no_leading_digit rest →
  extra_slot_pattern t (extra_slot_literal t +:+ digits +:+ rest) = Some digits.
Proof.
  intros [Hne Hd] Hrest.
  assert (re_match_literal_digits (extra_slot_literal t)
            (extra_slot_literal t +:+ digits +:+ rest) = Some digits) as Hm.
  { unfold re_match_literal_digits. rewrite strip_prefix_app.
    rewrite leading_digits_app by done. by destruct digits. }
  by destruct t.
Qed.

(** The three literals exclude each other. *)
Lemma extra_slot_pattern_other t t' s :
  t ≠ t' → extra_slot_pattern t' (extra_slot_literal t +:+ s) = None.
Proof. intros Hne. by destruct t, t'. Qed.

Lemma Dma_extra_index_nonneg t n : 0 ≤ n → 0 ≤ Dma_extra_index t n.
Proof. unfold Dma_extra_index. destruct t; simpl; lia. Qed.

Lemma decimal_from_nonneg acc s :
  string_forall is_decimal s = true → 0 ≤ acc → 0 ≤ decimal_from acc s.
Proof.
  revert acc. induction s as [|c s IH]; intros acc Hs Hacc; simpl in *; [done|].
  apply andb_prop in Hs as [Hc Hs]. apply IH; [done|].
  unfold is_decimal in Hc. lia.
Qed.

Lemma decimal_value_nonneg s : decimal_digits s → 0 ≤ decimal_value s.
Proof. intros [_ Hs]. by apply decimal_from_nonneg. Qed.

Lemma omap_seqZ_miss {A} (g : Z → option A) a m :
  0 < m → g a = None → omap g (seqZ a m) = omap g (seqZ (a + 1) (m - 1)).
Proof. intros Hm Hg. rewrite seqZ_cons by done. simpl. by rewrite Hg. Qed.

Lemma omap_seqZ_hit {A} (g : Z → option A) a m x :
  0 < m → g a = Some x → omap g (seqZ a m) = x :: omap g (seqZ (a + 1) (m - 1)).
Proof. intros Hm Hg. rewrite seqZ_cons by done. simpl. by rewrite Hg. Qed.

(** Every third entry of a table, from offset [v] on. *)
Lemma omap_stride (cm : list Z) v (n : nat) a m :
  0 ≤ v < 3 → 0 ≤ a → a `mod` 3 = 0 → a + m ≤ Z.of_nat (length cm) →
  a + v + 3 * Z.of_nat n < a + m →
  omap (fun i : Z => if i `mod` 3 =? v then cm !! Z.to_nat i else None) (seqZ a m) !! n
  = cm !! Z.to_nat (a + v + 3 * Z.of_nat n).
Proof.
  intros Hv. set (g := fun i : Z => if i `mod` 3 =? v then cm !! Z.to_nat i else None).
  assert (∀ i, i `mod` 3 ≠ v → g i = None) as Hmiss.
  { intros i Hi. unfold g. by rewrite (proj2 (Z.eqb_neq _ _) Hi). }
  assert (∀ i, 0 ≤ i < Z.of_nat (length cm) → i `mod` 3 = v →
               ∃ x, g i = Some x ∧ cm !! Z.to_nat i = Some x) as Hhit.
  { intros i Hi Hmod. unfold g. rewrite (proj2 (Z.eqb_eq _ _) Hmod).
    destruct (lookup_lt_is_Some_2 cm (Z.to_nat i)) as [x Hx]; [lia|]. eauto. }
  revert a m. induction n as [|n IH]; intros a m Ha Hmod Hlen Hlt.
  - assert (v = 0 ∨ v = 1 ∨ v = 2) as [-> | [-> | ->]] by lia.
    + destruct (Hhit a) as (x & Hg & Hx); [lia|done|].
      rewrite (omap_seqZ_hit g a m x) by (done || lia). simpl.
      rewrite <- Hx. f_equal. lia.
    + destruct (Hhit (a + 1)) as (x & Hg & Hx);
        [lia|Z.div_mod_to_equations; lia|].
      rewrite (omap_seqZ_miss g a m) by (lia || apply Hmiss; lia).
      rewrite (omap_seqZ_hit g (a + 1) (m - 1) x) by (done || lia). simpl.
      rewrite <- Hx. f_equal. lia.
    + destruct (Hhit (a + 2)) as (x & Hg & Hx);
        [lia|Z.div_mod_to_equations; lia|].
      rewrite (omap_seqZ_miss g a m) by (lia || apply Hmiss; lia).
      rewrite (omap_seqZ_miss g (a + 1) (m - 1))
        by (lia || apply Hmiss; Z.div_mod_to_equations; lia).
      replace (a + 1 + 1) with (a + 2) by lia.
      rewrite (omap_seqZ_hit g (a + 2) (m - 1 - 1) x) by (done || lia). simpl.
      rewrite <- Hx. f_equal. lia.
  - assert (omap g (seqZ a m) !! S n = omap g (seqZ (a + 3) (m - 3)) !! n) as ->.
    { assert (v = 0 ∨ v = 1 ∨ v = 2) as [-> | [-> | ->]] by lia.
      + destruct (Hhit a) as (x & Hg & Hx); [lia|done|].
        rewrite (omap_seqZ_hit g a m x) by (done || lia). simpl.
        rewrite (omap_seqZ_miss g (a + 1) (m - 1))
          by (lia || apply Hmiss; Z.div_mod_to_equations; lia).
        rewrite (omap_seqZ_miss g (a + 1 + 1) (m - 1 - 1))
          by (lia || apply Hmiss; Z.div_mod_to_equations; lia).
        do 2 f_equal; f_equal; lia.
      + destruct (Hhit (a + 1)) as (x & Hg & Hx);
          [lia|Z.div_mod_to_equations; lia|].
        rewrite (omap_seqZ_miss g a m) by (lia || apply Hmiss; lia).
        rewrite (omap_seqZ_hit g (a + 1) (m - 1) x) by (done || lia). simpl.
        rewrite (omap_seqZ_miss g (a + 1 + 1) (m - 1 - 1))
          by (lia || apply Hmiss; Z.div_mod_to_equations; lia).
        do 2 f_equal; f_equal; lia.
      + destruct (Hhit (a + 2)) as (x & Hg & Hx);
          [lia|Z.div_mod_to_equations; lia|].
        rewrite (omap_seqZ_miss g a m) by (lia || apply Hmiss; lia).
        rewrite (omap_seqZ_miss g (a + 1) (m - 1))
          by (lia || apply Hmiss; Z.div_mod_to_equations; lia).
        replace (a + 1 + 1) with (a + 2) by lia.
        rewrite (omap_seqZ_hit g (a + 2) (m - 1 - 1) x) by (done || lia). simpl.
        do 2 f_equal; f_equal; lia. }
    rewrite IH; [f_equal; lia|lia|Z.div_mod_to_equations; lia|lia|lia].
Qed.

(** [Dma.get_extra]: slot [n] of the extra table of type [t] is the entry
    of the table at [Dma_extra_index t n]. *)
Lemma Dma_get_extra_lookup cm t (n : nat) :
  Dma_extra_index t (Z.of_nat n) < Z.of_nat (length cm) →
  Dma_get_extra cm t !! n = cm !! Z.to_nat (Dma_extra_index t (Z.of_nat n)).
Proof.
  intros Hlt. unfold Dma_get_extra, Dma_extra_index in *.
  apply omap_stride; [destruct t; simpl; lia|lia|done|lia|lia].
Qed.

Lemma extra_slot_written cm t n k chunk :
  0 ≤ n →
  py_index cm (Dma_extra_index t n) = Some k →
  py_getitem (<[k := chunk]> cm) (Dma_extra_index t n) = inr chunk ∧
  Dma_get_extra (<[k := chunk]> cm) t !! Z.to_nat n = Some chunk.
Proof.
  intros Hn Hk. pose proof (py_index_lt _ _ _ Hk) as Hlt.
  pose proof (Dma_extra_index_nonneg t n Hn) as Hidx.
  assert (k = Z.to_nat (Dma_extra_index t n) ∧
          Dma_extra_index t n < Z.of_nat (length cm)) as [-> Hlen].
  { unfold py_index in Hk. repeat case_match; simplify_eq; lia. }
  split.
  - apply (py_getitem_inr _ _ (Z.to_nat (Dma_extra_index t n))).
    + rewrite <- Hk. apply py_index_length. by rewrite length_insert.
    + by apply list_lookup_insert_eq.
  - rewrite Dma_get_extra_lookup; rewrite Z2Nat.id by done.
    + by apply list_lookup_insert_eq.
    + by rewrite length_insert.
Qed.

Section SpecialMapping.
Context `{K : Constants}.

Lemma import_special_no_match pattern t mapping chunk st ident :
  attrib mapping !! SPECIAL_MAPPING__IDENTIFIER = Some ident →
  pattern ident = None →
  _import_special pattern t mapping chunk st = (inr tt, st).
Proof.
  intros Hident Hnone. unfold _import_special. unfold_monad_goal.
  rewrite Hident. simpl. by rewrite Hnone.
Qed.

Lemma import_special_match pattern t mapping chunk st ident digits k :
  attrib mapping !! SPECIAL_MAPPING__IDENTIFIER = Some ident →
  pattern ident = Some digits →
  decimal_digits digits →
  py_index (chunk_mappings st) (Dma_extra_index t (decimal_value digits)) = Some k →
  ∃ st', _import_special pattern t mapping chunk st = (inr tt, st') ∧
         erase st' = erase st ∧
         chunk_mappings st' = <[k := chunk]> (chunk_mappings st).
Proof.
  intros Hident Hsome Hdigits Hk.
  destruct (chunk_mappings_setitem_run _ chunk _ _ Hk) as (st' & Hrun & He & Hc).
  exists st'. split; [|done]. unfold _import_special. unfold_monad_goal.
  rewrite Hident. simpl. rewrite Hsome, (py_int_decimal _ Hdigits). simpl.
  apply Hrun.
Qed.

(** The [SPECIAL_MAPPING] branch on an identifier that starts with the
    literal of an extra slot type and a run of digits: the chunk is
    assigned to the slot the digits number, and to nothing else. *)
Lemma import_special_mapping_run mapping chunk st t digits rest k :
  attrib mapping !! SPECIAL_MAPPING__IDENTIFIER
  = Some (extra_slot_literal t +:+ digits +:+ rest) →
  decimal_digits digits →
  no_leading_digit rest →
  py_index (chunk_mappings st) (Dma_extra_index t (decimal_value digits)) = Some k →
  ∃ st', _import_special_mapping mapping chunk st = (inr tt, st') ∧
         erase st' = erase st ∧
         chunk_mappings st' = <[k := chunk]> (chunk_mappings st).
Proof.
  intros Hident Hdigits Hrest Hk.
  pose proof (extra_slot_pattern_match t digits rest Hdigits Hrest) as Hmatch.
  pose proof (fun t' => extra_slot_pattern_other t t' (digits +:+ rest)) as Hother.
  assert (validate_xml_attribs mapping [SPECIAL_MAPPING__IDENTIFIER] st = (inr tt, st))
    as Hvalid.
  { unfold validate_xml_attribs. simpl. unfold_monad_goal. by rewrite Hident. }
  unfold _import_special_mapping, mbind, M_bind.
  rewrite (bind_run _ _ _ _ _ Hvalid).
  destruct t.
  - destruct (import_special_match PATTERN_FLOOR1 FLOOR1 mapping chunk st _ _ _
                Hident Hmatch Hdigits Hk) as (st' & Hrun & He & Hc).
    exists st'. split; [|done]. rewrite (bind_run _ _ _ _ _ Hrun).
    erewrite bind_run;
      [|by apply (import_special_no_match _ _ _ _ _ _ Hident), (Hother FLOOR2)].
    by apply (import_special_no_match _ _ _ _ _ _ Hident), (Hother WALL_OR_VOID).
  - destruct (import_special_match PATTERN_WALL_OR_VOID WALL_OR_VOID mapping chunk st
                _ _ _ Hident Hmatch Hdigits Hk) as (st' & Hrun & He & Hc).
    exists st'. split; [|done].
    erewrite bind_run;
      [|by apply (import_special_no_match _ _ _ _ _ _ Hident), (Hother FLOOR1)].
    erewrite bind_run;
      [|by apply (import_special_no_match _ _ _ _ _ _ Hident), (Hother FLOOR2)].
    apply Hrun.
  - destruct (import_special_match PATTERN_FLOOR2 FLOOR2 mapping chunk st _ _ _
                Hident Hmatch Hdigits Hk) as (st' & Hrun & He & Hc).
    exists st'. split; [|done].
    erewrite bind_run;
      [|by apply (import_special_no_match _ _ _ _ _ _ Hident), (Hother FLOOR1)].
    rewrite (bind_run _ _ _ _ _ Hrun).
    by apply (import_special_no_match _ _ _ _ _ _ Hident), (Hother WALL_OR_VOID).
Qed.



End SpecialMapping.

(** ** The size check *)

Section SizeCheck.
Context `{K : Constants} `{W : World}.

(** [_import_tileset] on a loaded sheet: the size check, then the rounds of
    the loop over the rule table in order.  The check compares the size of
    the sheet in pixels with the size of the band in cells. *)
Lemma import_tileset_unfold fn rule_map typ bx by_ w h var_id prev_fn st tileset positions :
  _tileset_file_map st !! fn = Some tileset →
  _tileset_chunk_map st !! fn = Some positions →
  _import_tileset fn rule_map typ bx by_ w h var_id prev_fn st
  = if (height tileset <? by_ + h) || (width tileset <? bx + w)
    then (inl (ValueError (ImageTooSmall fn)), st)
    else for_each (enumerate (snd <$> rule_map))
           (_import_tileset_entry fn typ bx by_ w var_id prev_fn tileset) st.
Proof.
  intros Hfile Hmap. unfold _import_tileset. unfold_monad_goal. simpl.
  rewrite Hfile. rewrite bool_decide_true by eauto. simpl.
  rewrite Hmap. rewrite bool_decide_true by eauto. simpl.
  by destruct (_ || _).
Qed.

Lemma enumerate_from_app {A} (l1 l2 : list A) i :
  enumerate_from i (l1 ++ l2)
  = enumerate_from i l1 ++ enumerate_from (i + Z.of_nat (length l1)) l2.
Proof.
  revert i. induction l1 as [|a l1 IH]; intros i; simpl.
  - by rewrite Z.add_0_r.
  - rewrite IH. do 3 f_equal. lia.
Qed.

Lemma for_each_app {A} (l1 l2 : list A) body st :
  for_each (l1 ++ l2) body st
  = bind (for_each l1 body) (fun _ => for_each l2 body) st.
Proof.
  revert st. induction l1 as [|a l1 IH]; intros st; [reflexivity|].
  simpl. unfold bind. destruct (body a st) as [[e|[]] st']; [done|]. apply IH.
Qed.

(** The loop of [_import_tileset] handles the entries of the rule table in
    iteration order: the round for the entry at position [length before]
    runs after the rounds for the entries before it, with that position as
    its [i]. *)
Lemma import_tileset_rounds fn typ bx by_ w var_id prev_fn tileset before rules after st :
  for_each (enumerate (before ++ rules :: after))
    (_import_tileset_entry fn typ bx by_ w var_id prev_fn tileset) st
  = (for_each (enumerate before)
       (_import_tileset_entry fn typ bx by_ w var_id prev_fn tileset);;
     _import_tileset_entry fn typ bx by_ w var_id prev_fn tileset
       (Z.of_nat (length before), rules);;
     for_each (enumerate_from (Z.of_nat (length before) + 1) after)
       (_import_tileset_entry fn typ bx by_ w var_id prev_fn tileset)) st.
Proof.
  unfold enumerate. rewrite enumerate_from_app, for_each_app. simpl.
  by rewrite Z.add_0_l.
Qed.

(** A sheet that holds the whole band of chunk-sized cells passes. *)
Lemma import_tileset_large_enough fn rule_map typ bx by_ w h var_id prev_fn st tileset
    positions :
  _tileset_file_map st !! fn = Some tileset →
  _tileset_chunk_map st !! fn = Some positions →
  0 ≤ bx → 0 ≤ by_ → 0 ≤ w → 0 ≤ h → 1 ≤ CHUNK_DIM →
  (bx + w) * CHUNK_DIM ≤ width tileset →
  (by_ + h) * CHUNK_DIM ≤ height tileset →
  _import_tileset fn rule_map typ bx by_ w h var_id prev_fn st
  = for_each (enumerate (snd <$> rule_map))
      (_import_tileset_entry fn typ bx by_ w var_id prev_fn tileset) st.
Proof.
  intros Hfile Hmap ????? Hw Hh.
  rewrite (import_tileset_unfold _ _ _ _ _ _ _ _ _ _ _ _ Hfile Hmap).
  assert ((height tileset <? by_ + h) = false) as -> by (apply Z.ltb_ge; nia).
  assert ((width tileset <? bx + w) = false) as -> by (apply Z.ltb_ge; nia).
  done.
Qed.

End SizeCheck.

(** C8 (the code differs). With chunks of 24 pixels, the wall band of 6 by
    8 cells covers 144 by 192 pixels.  A sheet of 18 by 8 pixels is too
    small to contain it, but [_import_tileset] raises no error for it: the
    check compares the pixel size of the sheet with the cell counts 6 and
    8, and the crops outside the sheet come back filled with 0. *)
Example undersized_sheet_passes_size_check :
  width undersized_sheet = 18 ∧ height undersized_sheet = 8 ∧
  (0 + @TILESHEET_WIDTH game_constants) * @CHUNK_DIM game_constants = 144 ∧
  (0 + @TILESHEET_HEIGHT game_constants) * @CHUNK_DIM game_constants = 192 ∧
  (@_import_tileset game_constants (example_world good_document) "var0.png"
     (@REMAP_RULE_VARIATIONS game_constants)
     WALL 0 0 (@TILESHEET_WIDTH game_constants) (@TILESHEET_HEIGHT game_constants)
     0 None undersized_state).1 = inr tt.
Proof. vm_compute. by repeat split. Qed.

(** * Further properties *)

Lemma on_raise_preserves R {A} (m : M A) : preserves R m → on_raise R m.
Proof. intros Hm st e st' Hrun. specialize (Hm st). by rewrite Hrun in Hm. Qed.

Lemma on_raise_bind R `{!PreOrder R} {A B} (m : M A) (k : A → M B) :
  preserves R m → (∀ a, on_raise R (k a)) → on_raise R (bind m k).
Proof.
  intros Hm Hk st e st' Hrun. specialize (Hm st).
  apply bind_inl in Hrun as [Hrun|(a & st1 & Hrun & Hrest)]; rewrite Hrun in Hm.
  - done.
  - etrans; [exact Hm|]. by eapply Hk.
Qed.

Lemma on_raise_mbind R `{!PreOrder R} {A B} (m : M A) (k : A → M B) :
  preserves R m → (∀ a, on_raise R (k a)) → on_raise R (m ≫= k).
Proof. by apply on_raise_bind. Qed.

#[local] Instance targets_kept_preorder : PreOrder targets_kept.
Proof.
  split; [by intros st|].
  intros st1 st2 st3 (?&?&?&?) (?&?&?&?). unfold targets_kept. repeat split; congruence.
Qed.

#[local] Instance table_size_kept_preorder : PreOrder table_size_kept.
Proof.
  split; [by intros st|]. intros st1 st2 st3. unfold table_size_kept. congruence.
Qed.

Lemma targets_kept_setitem i v : preserves targets_kept (chunk_mappings_setitem i v).
Proof.
  intros st. destruct (chunk_mappings_setitem i v st) as [[e|[]] st'] eqn:Hs; simpl.
  - by apply chunk_mappings_setitem_inl in Hs as ->.
  - by apply chunk_mappings_setitem_inr in Hs as (k & _ & _ & ->).
Qed.

Lemma table_size_kept_setitem i v : preserves table_size_kept (chunk_mappings_setitem i v).
Proof.
  intros st. destruct (chunk_mappings_setitem i v st) as [[e|[]] st'] eqn:Hs; simpl.
  - by apply chunk_mappings_setitem_inl in Hs as ->.
  - apply chunk_mappings_setitem_inr in Hs as (k & _ & Hc & _).
    unfold table_size_kept. by rewrite Hc, length_insert.
Qed.

Section Targets.
Context `{K : Constants} `{W : World}.

(** [_merge_chunks] only reads. *)
Lemma merge_chunks_state r st st' : _merge_chunks st = (r, st') → st' = st.
Proof.
  unfold _merge_chunks. unfold_monad. simpl.
  destruct (py_getitem (_chunks st) 1); simpl; congruence.
Qed.

(** When [_finalize] raises, nothing has been assigned. *)
Lemma finalize_inl e st st' : _finalize st = (inl e, st') → st' = st.
Proof.
  unfold _finalize, mbind, M_bind. intros Hrun.
  apply bind_inl in Hrun as [Hrun|(img & st1 & Hmerge & Hrun)].
  { by apply merge_chunks_state in Hrun. }
  apply merge_chunks_state in Hmerge as ->. revert Hrun.
  unfold_monad_goal. simpl.
  destruct (Dpc_pil_to_chunks (dpc_chunks st) img) as [e'|[[chunks tiles] palettes]];
    simpl; congruence.
Qed.

Lemma on_raise_do_import_body dirname fn_xml fn_var0 fn_var1 fn_var2 :
  on_raise targets_kept (_do_import_body dirname fn_xml fn_var0 fn_var1 fn_var2).
Proof.
  unfold _do_import_body.
  assert (∀ i v, preserves targets_kept (chunk_mappings_setitem i v)) as Hset
    by apply targets_kept_setitem.
  assert (∀ fn, preserves targets_kept (_open_tileset fn)) as Hopen.
  { intros fn. by apply preserves_open_tileset; try exact _. }
  assert (∀ fn rm typ bx by_ w h v p,
            preserves targets_kept (_import_tileset fn rm typ bx by_ w h v p)) as Hband.
  { intros. by apply preserves_import_tileset; try exact _. }
  repeat (apply on_raise_mbind;
          [exact _
          |first [ apply Hopen
                 | apply preserves_assert_file_exists; exact _
                 | apply preserves_validate_xml_attribs; exact _
                 | apply preserves_import_children; try exact _; done
                 | apply preserves_import_animation; try exact _; done
                 | solve [preserves_auto]
                 | idtac ]
          |intros ?]).
  - by apply preserves_modify.
  - by apply preserves_modify.
  - apply preserves_for_each; [exact _|]. intros [i fn].
    repeat (apply preserves_mbind;
            [exact _
            |first [apply preserves_previous_tileset; exact _ | apply Hband]
            |intros ?]).
    apply Hband.
  - match goal with |- on_raise _ (match ?x with _ => _ end) =>
      destruct x as [[[ani0 ani1] dur0] dur1] end.
    apply on_raise_mbind; [exact _| |intros ?].
    + by apply preserves_import_animation; try exact _.
    + intros st e st' ->%finalize_inl. reflexivity.
Qed.

(** X3. A failed import has assigned nothing to the tiles, the palettes and
    the animation of the target models. *)
Theorem do_import_failure_keeps_targets dirname fn_xml fn_var0 fn_var1 fn_var2 st e st' :
  do_import dirname fn_xml fn_var0 fn_var1 fn_var2 st = (inl e, st') →
  targets_kept st st'.
Proof.
  rewrite do_import_unfold.
  destruct (_do_import_body _ _ _ _ _ _) as [[e'|[]] st2] eqn:Hbody; [|done].
  intros [= -> <-]. apply on_raise_do_import_body in Hbody.
  destruct Hbody as (?&?&?&?). by repeat split.
Qed.

End Targets.

Section Table.
Context `{K : Constants} `{W : World}.

Lemma table_size_kept_do_import_body dirname fn_xml fn_var0 fn_var1 fn_var2 :
  preserves table_size_kept (_do_import_body dirname fn_xml fn_var0 fn_var1 fn_var2).
Proof.
  apply preserves_do_import_body; try exact _; try done.
  apply table_size_kept_setitem.
Qed.

(** X4. Whether it returns or raises, [do_import] leaves [dma.chunk_mappings]
    with the number of entries it had before the call. *)
Theorem do_import_keeps_table_size dirname fn_xml fn_var0 fn_var1 fn_var2 st :
  valid_reference st →
  length (chunk_mappings (do_import dirname fn_xml fn_var0 fn_var1 fn_var2 st).2)
  = length (chunk_mappings st).
Proof.
  intros Hvalid.
  destruct (do_import dirname fn_xml fn_var0 fn_var1 fn_var2 st) as [[e|[]] st'] eqn:Hrun.
  - simpl. by destruct (do_import_inl _ _ _ _ _ _ _ _ Hvalid Hrun) as (st2 & _ & _ & ->).
  - rewrite do_import_unfold in Hrun.
    destruct (_do_import_body _ _ _ _ _ _) as [[e|[]] st2] eqn:Hbody; [done|].
    injection Hrun as <-.
    pose proof (table_size_kept_do_import_body dirname fn_xml fn_var0 fn_var1 fn_var2
                  (__init__ st).2) as Hsize.
    unfold table_size_kept in Hsize. rewrite Hbody in Hsize. cbn [snd] in *.
    by rewrite Hsize, chunk_mappings_reset, length_replicate.
Qed.

(** X5. After an import that returns, [dma.chunk_mappings] is the list object
    the reset created, the reference the importer saved is the one of before
    the call, and every list object that existed before the call, the
    previous table among them, has the entries it had. *)
Theorem do_import_success_new_table dirname fn_xml fn_var0 fn_var1 fn_var2 st st' :
  do_import dirname fn_xml fn_var0 fn_var1 fn_var2 st = (inr tt, st') →
  dma_chunk_mappings st' = length (heap st) ∧
  _dma__original_chunk_mappings st' = dma_chunk_mappings st ∧
  ∀ p, (p < length (heap st))%nat → heap st' !! p = heap st !! p.
Proof.
  rewrite do_import_unfold.
  pose proof (frame_do_import_body dirname fn_xml fn_var0 fn_var1 fn_var2
                (__init__ st).2) as (Ho & Hd & Hh).
  destruct (_do_import_body _ _ _ _ _ _) as [[e|[]] st2]; [done|].
  intros [= <-]. simpl in *. split; [done|]. split; [done|].
  intros p Hp. rewrite Hh by lia. by apply lookup_app_l.
Qed.

End Table.

(** ** What a call that returns tells *)

Lemma raise_if_inr b e st u st' :
  raise_if b e st = (inr u, st') → b = false ∧ st' = st.
Proof. unfold raise_if. destruct b; [done|]. by intros [= _ <-]. Qed.

Lemma lift_inr {A} (r : Exception + A) st a st' :
  lift r st = (inr a, st') → r = inr a ∧ st' = st.
Proof. destruct r; [done|]. by intros [= <- <-]. Qed.

Lemma getitem_inr {A} (o : option A) st a st' :
  getitem o st = (inr a, st') → o = Some a ∧ st' = st.
Proof. destruct o; [|done]. by intros [= <- <-]. Qed.

Lemma gets_inr {A} (f : State → A) st a st' :
  gets f st = (inr a, st') → a = f st ∧ st' = st.
Proof. by intros [= <- <-]. Qed.

Lemma modify_inr f st u st' : modify f st = (inr u, st') → st' = f st.
Proof. by intros [= _ <-]. Qed.

Lemma validate_xml_tag_inr ele expected st u st' :
  validate_xml_tag ele expected st = (inr u, st') → tag ele = expected ∧ st' = st.
Proof.
  intros [Htag ->]%raise_if_inr. split; [|done].
  apply bool_decide_eq_false in Htag. by apply dec_stable.
Qed.

Lemma validate_xml_attribs_inr ele attribs st u st' :
  validate_xml_attribs ele attribs st = (inr u, st') →
  Forall (fun a => is_Some (attrib ele !! a)) attribs ∧ st' = st.
Proof.
  unfold validate_xml_attribs. revert st.
  induction attribs as [|a attribs IH]; intros st; simpl.
  - by intros [= _ <-].
  - intros (? & st1 & [Ha ->]%raise_if_inr & [Hrest ->]%IH)%bind_inr.
    split; [|done]. constructor; [|done].
    apply bool_decide_eq_false in Ha. by apply not_eq_None_Some.
Qed.

Lemma for_each_inr_invariant {A} (I : State → Prop) (l : list A) body st u st' :
  (∀ a st u st', a ∈ l → I st → body a st = (inr u, st') → I st') →
  I st → for_each l body st = (inr u, st') → I st'.
Proof.
  revert st. induction l as [|a l IH]; intros st Hbody Hst; simpl.
  - by intros [= _ <-].
  - intros (? & st1 & Hone & Hrest)%bind_inr.
    eapply IH; [|by eapply Hbody; [left|..]|done].
    intros ????? . apply Hbody. by right.
Qed.

Lemma for_fold_inr_invariant {A B} (I : B → State → Prop) (l : list A) acc
    (body : B → A → M B) st r st' :
  (∀ acc a st r st', a ∈ l → I acc st → body acc a st = (inr r, st') → I r st') →
  I acc st → for_fold l acc body st = (inr r, st') → I r st'.
Proof.
  revert acc st. induction l as [|a l IH]; intros acc st Hbody Hst; simpl.
  - by intros [= <- <-].
  - intros (acc1 & st1 & Hone & Hrest)%bind_inr.
    eapply IH; [|by eapply Hbody; [left|..]|done].
    intros ??????. apply Hbody. by right.
Qed.

Section Returns.
Context `{K : Constants} `{W : World}.

Lemma assert_file_exists_inr fn st u st' :
  _assert_file_exists fn st = (inr u, st') → os_path_exists fn = true ∧ st' = st.
Proof. intros [Hex ->]%raise_if_inr. split; [|done]. by apply negb_false_iff. Qed.

(** A load that returns: the file exists and holds an indexed image with a
    palette of 256 RGB colors, which is the palette of the session; the
    image is registered under its base name with an empty position table. *)
Lemma open_tileset_inr fn st u st' :
  _open_tileset fn st = (inr u, st') →
  os_path_exists fn = true ∧
  ∃ pil, Image_open fn = inr pil ∧
         mode pil = "P" ∧ palette_mode pil = "RGB" ∧ length (palette pil) = 768%nat ∧
         (∀ p, _palette st = Some p → p = palette pil) ∧
         _palette st' = Some (palette pil) ∧
         _tileset_file_map st' = <[os_path_basename fn := pil]> (_tileset_file_map st) ∧
         _tileset_chunk_map st' = <[os_path_basename fn := ∅]> (_tileset_chunk_map st) ∧
         _chunks st' = _chunks st ∧ heap st' = heap st ∧
         dma_chunk_mappings st' = dma_chunk_mappings st.
Proof.
  unfold _open_tileset, mbind, M_bind.
  intros (? & s1 & [Hex ->]%assert_file_exists_inr & Hrun)%bind_inr.
  apply bind_inr in Hrun as (pil & s1 & [Hopen ->]%lift_inr & Hrun).
  apply bind_inr in Hrun as (? & s1 & ->%modify_inr & Hrun).
  apply bind_inr in Hrun as (? & s2 & ->%modify_inr & Hrun).
  apply bind_inr in Hrun as (? & s3 & [Hmode ->]%raise_if_inr & Hrun).
  apply bind_inr in Hrun as (? & s3 & [Hpal ->]%raise_if_inr & Hrun).
  apply bind_inr in Hrun as (p & s3 & [-> ->]%gets_inr & Hrun).
  apply bind_inr in Hrun as (? & s3 & Hset & Hrun).
  apply bind_inr in Hrun as (p' & s4 & [-> ->]%gets_inr & Hrun).
  apply raise_if_inr in Hrun as [Hsame ->].
  apply bool_decide_eq_false, dec_stable in Hmode.
  apply orb_false_iff in Hpal as [Hpm%bool_decide_eq_false Hlen%bool_decide_eq_false].
  apply dec_stable in Hpm. apply dec_stable in Hlen.
  apply bool_decide_eq_false, dec_stable in Hsame.
  split; [done|]. exists pil. split; [done|]. split; [done|]. split; [done|].
  split; [lia|]. simpl in Hset, Hsame.
  destruct (_palette st) as [p|] eqn:Hp.
  - injection Hset as _ <-. simpl in *. rewrite Hp in Hsame. injection Hsame as <-.
    repeat split; try done. by intros p [= <-].
  - apply modify_inr in Hset as ->. simpl in *. repeat split; done.
Qed.

(** [_finalize] when it returns: the codec has been run on the merged
    image, and its results and the animation are assigned. *)
Lemma finalize_inr st u st' :
  _finalize st = (inr u, st') →
  ∃ img chunks tiles palettes,
    _merge_chunks st = (inr img, st) ∧
    Dpc_pil_to_chunks (dpc_chunks st) img = inr (chunks, tiles, palettes) ∧
    st' = with_targets palettes tiles (_dpla__colors st)
            (_dpla__durations_per_frame_for_colors st) (with_dpc_chunks chunks st).
Proof.
  unfold _finalize, mbind, M_bind.
  intros (img & s1 & Hmerge & Hrun)%bind_inr.
  pose proof (merge_chunks_state _ _ _ Hmerge) as ->.
  apply bind_inr in Hrun as (dpc & s1 & [-> ->]%gets_inr & Hrun).
  apply bind_inr in Hrun as ([[chunks tiles] palettes] & s1 & [Hcodec ->]%lift_inr & Hrun).
  apply bind_inr in Hrun as (? & s1 & ->%modify_inr & Hrun).
  apply bind_inr in Hrun as (? & s1 & [-> ->]%gets_inr & Hrun).
  apply bind_inr in Hrun as (? & s1 & [-> ->]%gets_inr & Hrun).
  apply modify_inr in Hrun as ->. by exists img, chunks, tiles, palettes.
Qed.

(** The state in which the body of an import, when it returns, has called
    [_finalize], and what it has passed to [_import_animation]. *)
Lemma do_import_body_inr dirname fn_xml fn_var0 fn_var1 fn_var2 st u st' :
  _do_import_body dirname fn_xml fn_var0 fn_var1 fn_var2 st = (inr u, st') →
  ∃ s1 s2 s3 s4 s5 xml s ani0 ani1 dur0 dur1,
    os_path_exists fn_xml = true ∧
    _open_tileset fn_var0 (with__dirname (Some dirname) st) = (inr tt, s1) ∧
    _open_tileset fn_var1 s1 = (inr tt, s2) ∧
    _open_tileset fn_var2 s2 = (inr tt, s3) ∧
    ElementTree_parse fn_xml = inr xml ∧
    tag xml = DUNGEON_TILESET ∧
    attrib xml !! DIMENSIONS = Some s ∧ py_int s = inr CHUNK_DIM ∧
    for_each (enumerate [os_path_basename fn_var0; os_path_basename fn_var1;
                         os_path_basename fn_var2])
      (fun '(i, fn) =>
         let ts := [os_path_basename fn_var0; os_path_basename fn_var1;
                    os_path_basename fn_var2] in
         prev ← _previous_tileset ts i;
         _import_tileset fn REMAP_RULE_VARIATIONS WALL 0 0
           TILESHEET_WIDTH TILESHEET_HEIGHT i prev;;
         prev ← _previous_tileset ts i;
         _import_tileset fn REMAP_RULE_VARIATIONS WATER TILESHEET_WIDTH 0
           TILESHEET_WIDTH TILESHEET_HEIGHT i prev;;
         prev ← _previous_tileset ts i;
         _import_tileset fn REMAP_RULE_VARIATIONS FLOOR (TILESHEET_WIDTH * 2) 0
           TILESHEET_WIDTH TILESHEET_HEIGHT i prev)
      (with__xml (Some xml) s3) = (inr tt, s4) ∧
    _import_children xml dirname s4 = (inr (ani0, ani1, dur0, dur1), s5) ∧
    _finalize (with__dpla (ani0 ++ ani1) (replicate 16 dur0 ++ replicate 16 dur1) s5)
    = (inr tt, st').
Proof.
  unfold _do_import_body, mbind, M_bind. intros Hrun.
  apply bind_inr in Hrun as (? & s0 & ->%modify_inr & Hrun).
  apply bind_inr in Hrun as (? & s0 & [Hex ->]%assert_file_exists_inr & Hrun).
  apply bind_inr in Hrun as ([] & s1 & Hopen0 & Hrun).
  apply bind_inr in Hrun as ([] & s2 & Hopen1 & Hrun).
  apply bind_inr in Hrun as ([] & s3 & Hopen2 & Hrun).
  apply bind_inr in Hrun as (xml & s0 & [Hparse ->]%lift_inr & Hrun).
  apply bind_inr in Hrun as (? & s0 & ->%modify_inr & Hrun).
  apply bind_inr in Hrun as (? & s0 & [Htag ->]%validate_xml_tag_inr & Hrun).
  apply bind_inr in Hrun as (? & s0 & [_ ->]%validate_xml_attribs_inr & Hrun).
  apply bind_inr in Hrun as (s & s0 & [Hs ->]%getitem_inr & Hrun).
  apply bind_inr in Hrun as (dims & s0 & [Hdims ->]%lift_inr & Hrun).
  apply bind_inr in Hrun as (? & s0 & [Hd ->]%raise_if_inr & Hrun).
  apply bool_decide_eq_false, dec_stable in Hd. subst dims.
  apply bind_inr in Hrun as ([] & s4 & Hbands & Hrun).
  apply bind_inr in Hrun as ([[[ani0 ani1] dur0] dur1] & s5 & Hkids & Hrun).
  apply bind_inr in Hrun as (? & s0 & ->%modify_inr & Hrun).
  destruct u.
  exists s1, s2, s3, s4, s5, xml, s, ani0, ani1, dur0, dur1. by repeat split.
Qed.

Lemma do_import_inr dirname fn_xml fn_var0 fn_var1 fn_var2 st u st' :
  do_import dirname fn_xml fn_var0 fn_var1 fn_var2 st = (inr u, st') →
  _do_import_body dirname fn_xml fn_var0 fn_var1 fn_var2 (__init__ st).2 = (inr u, st').
Proof.
  rewrite do_import_unfold.
  by destruct (_do_import_body _ _ _ _ _ _) as [[e|[]] st2]; intros [= <- <-].
Qed.

End Returns.

(** ** Imports that return *)

Section Success.
Context `{K : Constants} `{W : World}.

(** Whatever the frames are, an animation that is accepted has 16
    sequences. *)
Lemma prepare_import_animation_length child st colors d st' :
  _prepare_import_animation child st = (inr (colors, d), st') →
  length colors = 16%nat.
Proof.
  unfold _prepare_import_animation, mbind, M_bind.
  intros (colors' & s1 & Hframes & Hrun)%bind_inr.
  apply bind_inr in Hrun as (s & s2 & _ & Hrun).
  apply bind_inr in Hrun as (d' & s3 & _ & Hrun). injection Hrun as <- _ _.
  revert Hframes.
  apply (for_fold_inr_invariant (fun colors _ => length colors = 16%nat)); [|done].
  intros acc frame s0 r s0' _ Hacc Hframe.
  apply bind_inr in Hframe as (? & s4 & _ & Hframe).
  apply bind_inr in Hframe as (? & s5 & _ & Hframe).
  revert Hframe.
  apply (for_fold_inr_invariant (fun colors _ => length colors = 16%nat)); [|done].
  intros acc' [i color] s6 r' s6' _ Hacc' Hcolor.
  apply bind_inr in Hcolor as (? & s7 & _ & Hcolor).
  apply bind_inr in Hcolor as (rgb & s8 & _ & Hcolor).
  injection Hcolor as <- _. by rewrite length_alter.
Qed.

Lemma import_children_lengths xml dirname st ani0 ani1 dur0 dur1 st' :
  _import_children xml dirname st = (inr (ani0, ani1, dur0, dur1), st') →
  length ani0 = 16%nat ∧ length ani1 = 16%nat.
Proof.
  unfold _import_children.
  apply (for_fold_inr_invariant
           (fun acc _ => length acc.1.1.1 = 16%nat ∧ length acc.1.1.2 = 16%nat)
           _ _ _ _ (ani0, ani1, dur0, dur1)); [|done].
  intros [[[a0 a1] d0] d1] child s0 r s0' _ [H0 H1] Hchild. simpl in *.
  unfold _import_child, mbind, M_bind in Hchild.
  apply bind_inr in Hchild as ([[[b0 b1] e0] e1] & s1 & Hani & Hchild).
  apply bind_inr in Hchild as (? & s2 & _ & Hchild). injection Hchild as <- _. simpl.
  destruct (bool_decide (tag child = ANIMATION)).
  - apply bind_inr in Hani as (? & s3 & _ & Hani).
    apply bind_inr in Hani as (p & s4 & _ & Hani).
    destruct (bool_decide (p = "10")); [|destruct (bool_decide (p = "11"))].
    + apply bind_inr in Hani as ([c d] & s5 & Hprep%prepare_import_animation_length & Hani).
      injection Hani as <- <- _ _ _. done.
    + apply bind_inr in Hani as ([c d] & s5 & Hprep%prepare_import_animation_length & Hani).
      injection Hani as <- <- _ _ _. done.
    + done.
  - injection Hani as <- <- _ _ _. done.
Qed.

(** X6. After an import that returns, the animation of the target has 32
    color sequences, and 32 durations: 16 copies of one number followed by
    16 copies of another. *)
Theorem do_import_animation_shape dirname fn_xml fn_var0 fn_var1 fn_var2 st st' :
  do_import dirname fn_xml fn_var0 fn_var1 fn_var2 st = (inr tt, st') →
  length (dpla_colors st') = 32%nat ∧
  ∃ dur0 dur1,
    dpla_durations_per_frame_for_colors st' = replicate 16 dur0 ++ replicate 16 dur1.
Proof.
  intros Hrun%do_import_inr.
  apply do_import_body_inr in Hrun
    as (s1 & s2 & s3 & s4 & s5 & xml & s & ani0 & ani1 & dur0 & dur1 & _ & _ & _ & _ & _
        & _ & _ & _ & _ & Hkids & Hfin).
  apply import_children_lengths in Hkids as [H0 H1].
  apply finalize_inr in Hfin as (img & chunks & tiles & palettes & _ & _ & ->). simpl.
  split; [rewrite length_app; lia|]. by exists dur0, dur1.
Qed.

(** X7. An import returns only for a package whose document exists, is parsed,
    has the root tag of a tile set and gives the chunk dimension of the
    game as its dimensions. *)
Theorem do_import_success_document dirname fn_xml fn_var0 fn_var1 fn_var2 st st' :
  do_import dirname fn_xml fn_var0 fn_var1 fn_var2 st = (inr tt, st') →
  os_path_exists fn_xml = true ∧
  ∃ xml s, ElementTree_parse fn_xml = inr xml ∧ tag xml = DUNGEON_TILESET ∧
           attrib xml !! DIMENSIONS = Some s ∧ py_int s = inr CHUNK_DIM.
Proof.
  intros Hrun%do_import_inr.
  apply do_import_body_inr in Hrun
    as (s1 & s2 & s3 & s4 & s5 & xml & s & ani0 & ani1 & dur0 & dur1 & Hex & _ & _ & _
        & Hparse & Htag & Hs & Hdim & _).
  split; [done|]. by exists xml, s.
Qed.

(** X8. An import returns only for a package whose three tile sheets exist and
    are indexed images with one and the same palette of 256 RGB colors. *)
Theorem do_import_success_sheets dirname fn_xml fn_var0 fn_var1 fn_var2 st st' :
  do_import dirname fn_xml fn_var0 fn_var1 fn_var2 st = (inr tt, st') →
  ∃ pil0 pil1 pil2,
    Forall2 (fun fn pil =>
               os_path_exists fn = true ∧ Image_open fn = inr pil ∧
               mode pil = "P" ∧ palette_mode pil = "RGB" ∧
               length (palette pil) = 768%nat ∧ palette pil = palette pil0)
            [fn_var0; fn_var1; fn_var2] [pil0; pil1; pil2].
Proof.
  intros Hrun%do_import_inr.
  apply do_import_body_inr in Hrun
    as (s1 & s2 & s3 & s4 & s5 & xml & s & ani0 & ani1 & dur0 & dur1 & _ & Ho0 & Ho1 & Ho2
        & _).
  apply open_tileset_inr in Ho0
    as (E0 & pil0 & I0 & M0 & P0 & L0 & _ & S0 & _).
  apply open_tileset_inr in Ho1
    as (E1 & pil1 & I1 & M1 & P1 & L1 & Q1 & S1 & _).
  apply open_tileset_inr in Ho2
    as (E2 & pil2 & I2 & M2 & P2 & L2 & Q2 & _).
  apply Q1 in S0. apply Q2 in S1.
  exists pil0, pil1, pil2. repeat constructor; try done; congruence.
Qed.

End Success.

(** ** The children of the document root *)

Section Children.
Context `{K : Constants} `{W : World}.

Lemma import_child_other_tag dirname acc child st :
  is_known_child child = false →
  _import_child dirname acc child st = (inr acc, st).
Proof.
  intros [Ha Ht]%orb_false_iff. destruct acc as [[[ani0 ani1] dur0] dur1].
  unfold _import_child. by rewrite Ha, Ht.
Qed.

Lemma import_child_loop_filter dirname kids acc st :
  for_fold kids acc (_import_child dirname) st
  = for_fold (filter is_known_child kids) acc (_import_child dirname) st.
Proof.
  revert acc st. induction kids as [|child kids IH]; intros acc st; [done|].
  destruct (is_known_child child) eqn:Hknown.
  - rewrite filter_cons_True by (by apply Is_true_true). simpl. unfold bind.
    destruct (_import_child dirname acc child st) as [[e|acc'] st1]; [done|]. apply IH.
  - rewrite filter_cons_False by (by apply Is_true_false). simpl.
    by rewrite (bind_run _ _ _ _ _ (import_child_other_tag _ _ _ _ Hknown)).
Qed.

(** X9. The loop of [do_import] over the document skips every child of the
    root that is neither an animation nor a list of additional tiles, where
    ever it stands: the document without these children gives the same
    outcome and the same state. *)
Theorem import_children_skips_other_tags xml dirname st :
  _import_children xml dirname st
  = _import_children (known_children_only xml) dirname st.
Proof. apply import_child_loop_filter. Qed.

(** One round for an animation element with a palette other than 10 and
    11. *)
Lemma import_child_unsupported_palette dirname acc child p st :
  tag child = ANIMATION →
  attrib child !! ANIMATION__PALETTE = Some p →
  p ≠ "10" → p ≠ "11" →
  _import_child dirname acc child st
  = (inl (if bool_decide (is_Some (attrib child !! ANIMATION__DURATION))
          then ValueError UnsupportedAnimationPalette
          else XmlValidateError ANIMATION__DURATION), st).
Proof.
  intros Htag Hp H10 H11. destruct acc as [[[ani0 ani1] dur0] dur1].
  unfold _import_child, validate_xml_attribs. simpl. unfold_monad_goal.
  rewrite (bool_decide_true (tag child = ANIMATION)) by done.
  rewrite Hp. simpl.
  destruct (attrib child !! ANIMATION__DURATION) as [s|] eqn:Hs; simpl.
  - by rewrite (bool_decide_false (p = "10")), (bool_decide_false (p = "11")) by done.
  - done.
Qed.

(** X10. A document with an animation for a palette other than 10 and 11 is
    never imported: the round for that animation raises the [ValueError]
    about the palette when the animation has a duration, and changes
    nothing; the loop over the document raises, in that round or in an
    earlier one. *)
Theorem import_children_unsupported_palette xml dirname child p st :
  child ∈ children xml →
  tag child = ANIMATION →
  attrib child !! ANIMATION__PALETTE = Some p →
  p ≠ "10" → p ≠ "11" →
  (∀ acc s, is_Some (attrib child !! ANIMATION__DURATION) →
     _import_child dirname acc child s
     = (inl (ValueError UnsupportedAnimationPalette), s)) ∧
  ∃ e st', _import_children xml dirname st = (inl e, st').
Proof.
  intros Hin Htag Hp H10 H11. split.
  - intros acc s Hd.
    rewrite (import_child_unsupported_palette _ _ _ _ _ Htag Hp H10 H11).
    by rewrite bool_decide_true.
  - unfold _import_children. eapply for_fold_raises; [done|].
    intros acc s. rewrite (import_child_unsupported_palette _ _ _ _ _ Htag Hp H10 H11).
    eauto.
Qed.

(** X11. An animation element replaces what the loop had for its palette and
    leaves what it had for the other palette: of several animations for one
    palette the last one counts. *)
Theorem import_child_replaces_animation dirname child d ani0 ani1 dur0 dur1 st :
  (well_formed_animation child "10" d →
   _import_child dirname (ani0, ani1, dur0, dur1) child st
   = (inr (animation_track child, ani1, d, dur1), st)) ∧
  (well_formed_animation child "11" d →
   _import_child dirname (ani0, ani1, dur0, dur1) child st
   = (inr (ani0, animation_track child, dur0, d), st)).
Proof.
  split; intros Hwf;
    pose proof (prepare_import_animation_run _ _ _ st Hwf) as Hrun;
    destruct Hwf as (Htag & Hnot & Hp & (s & Hs & _) & _);
    unfold _import_child, validate_xml_attribs; simpl; unfold_monad_goal;
    rewrite (bool_decide_true (tag child = ANIMATION)) by done;
    rewrite (bool_decide_false (tag child = ADDITIONAL_TILES)) by done;
    rewrite Hp, Hs; simpl; by rewrite Hrun.
Qed.

End Children.

(** ** Colors *)

Lemma substring_app_l s rest i n :
  (i + n ≤ String.length s)%nat →
  String.substring i n (s +:+ rest) = String.substring i n s.
Proof.
  revert i n. induction s as [|c s IH]; intros i n Hlen; simpl in *.
  - assert (i = 0%nat) as -> by lia. assert (n = 0%nat) as -> by lia.
    by destruct rest.
  - destruct i as [|i]; [destruct n as [|n]; [done|]|].
    + f_equal. apply IH. lia.
    + apply IH. lia.
Qed.

Lemma substring_length_le s i n : (String.length (String.substring i n s) ≤ n)%nat.
Proof.
  revert i n. induction s as [|c s IH]; intros i n; simpl.
  - destruct i, n; simpl; lia.
  - destruct i as [|i]; [destruct n as [|n]; simpl; [lia|]|].
    + specialize (IH 0%nat n). lia.
    + apply IH.
Qed.

Lemma substring_beyond s i n :
  (String.length s ≤ i)%nat → String.substring i n s = EmptyString.
Proof.
  revert i n. induction s as [|c s IH]; intros i n Hlen; simpl in *.
  - by destruct i, n.
  - destruct i as [|i]; [lia|]. apply IH. lia.
Qed.

(** [int(s, 16)] on every string of at most two characters. *)
Lemma py_int_hex_range s v :
  (String.length s ≤ 2)%nat → py_int_base 16 s = inr v → -15 ≤ v ≤ 255.
Proof.
  intros Hlen Hv.
  assert (hex_pair_in_range s = true) as Hr.
  { destruct s as [|a [|b [|c s]]]; [done| | |simpl in Hlen; lia].
    - assert (forallb (fun a => hex_pair_in_range (String a EmptyString)) all_ascii
              = true) as Hall by (vm_compute; reflexivity).
      apply (all_ascii_forall _ Hall a).
    - assert (forallb (fun a => forallb (fun b =>
                hex_pair_in_range (String a (String b EmptyString))) all_ascii)
                all_ascii = true) as Hall by (vm_compute; reflexivity).
      apply (all_ascii_forall _ (all_ascii_forall _ Hall a) b). }
  unfold hex_pair_in_range in Hr. rewrite Hv in Hr.
  apply andb_prop in Hr as [?%Z.leb_le ?%Z.leb_le]. done.
Qed.

(** X12. Only the first six characters of the text of a color are read. *)
Theorem convert_hex_ignores_tail h rest st :
  String.length h = 6%nat →
  _convert_hex_str_color_to_tuple (Some (h +:+ rest)) st
  = _convert_hex_str_color_to_tuple (Some h) st.
Proof.
  intros Hlen. unfold _convert_hex_str_color_to_tuple, slice.
  by rewrite !substring_app_l by lia.
Qed.


(** ** Additional tiles *)

#[local] Instance file_map_kept_preorder : PreOrder file_map_kept.
Proof.
  split; [by intros st|]. intros st1 st2 st3. unfold file_map_kept. congruence.
Qed.

Section AdditionalTiles.
Context `{K : Constants} `{W : World}.

(** The lookup [_read_additional_chunk_idx] ends with. *)
Lemma read_additional_chunk_idx_loaded fn x y dirname st img :
  _tileset_file_map st !! fn = Some img →
  _read_additional_chunk_idx fn x y dirname st
  = (match _tileset_chunk_map st !! fn ≫= (.!! (x, y)) with
     | Some k => inr k
     | None => inl KeyError
     end, st).
Proof.
  intros Himg. unfold _read_additional_chunk_idx. unfold_monad_goal. simpl.
  rewrite Himg. simpl.
  destruct (_tileset_chunk_map st !! fn) as [positions|]; simpl; [|done].
  by destruct (positions !! (x, y)).
Qed.

(** The loop that cuts a new image into chunks leaves the registered
    images alone. *)
Lemma read_additional_chunk_idx_cut fn tileset rows :
  preserves file_map_kept
    (for_each rows (fun iy =>
       columns ← lift (py_range 0 (width tileset) CHUNK_DIM);
       for_each columns (fun ix =>
         chunk_index ←
           _insert_chunk_or_reuse (crop tileset (ix, iy, ix + CHUNK_DIM, iy + CHUNK_DIM));
         chunk_map ← gets _tileset_chunk_map;
         positions ← getitem (chunk_map !! fn);
         modify (with__tileset_chunk_map
                   (<[fn := <[(ix `div` CHUNK_DIM, iy `div` CHUNK_DIM) := chunk_index]>
                              positions]> chunk_map))))).
Proof.
  assert (∀ c, preserves file_map_kept (_insert_chunk_or_reuse c)) as Hins.
  { intros c. by apply preserves_insert_chunk_or_reuse; try exact _. }
  repeat preserves_step; first [apply Hins|done].
Qed.

(** A call that returns leaves the file registered and the position
    recorded. *)
Lemma read_additional_chunk_idx_inr fn x y dirname st k st' :
  _read_additional_chunk_idx fn x y dirname st = (inr k, st') →
  is_Some (_tileset_file_map st' !! fn) ∧
  _tileset_chunk_map st' !! fn ≫= (.!! (x, y)) = Some k.
Proof.
  unfold _read_additional_chunk_idx, mbind, M_bind. intros Hrun.
  apply bind_inr in Hrun as (file_map & s0 & [-> ->]%gets_inr & Hrun).
  apply bind_inr in Hrun as ([] & s1 & Hload & Hrun).
  apply bind_inr in Hrun as (chunk_map & s0 & [-> ->]%gets_inr & Hrun).
  apply bind_inr in Hrun as (positions & s0 & [Hfn ->]%getitem_inr & Hrun).
  apply getitem_inr in Hrun as [Hk ->]. split; [|by rewrite Hfn].
  destruct (_tileset_file_map st !! fn) as [img|] eqn:Himg.
  - injection Hload as <-. by rewrite Himg.
  - apply bind_inr in Hload as (? & s2 & _ & Hload).
    apply bind_inr in Hload as (file_map & s0 & [-> ->]%gets_inr & Hload).
    apply bind_inr in Hload as (tileset & s0 & [Htileset ->]%getitem_inr & Hload).
    apply bind_inr in Hload as (rows & s0 & [_ ->]%lift_inr & Hload).
    pose proof (read_additional_chunk_idx_cut fn tileset rows s2) as Hkept.
    unfold mbind, M_bind in Hkept. rewrite Hload in Hkept.
    unfold file_map_kept in Hkept. simpl in Hkept.
    rewrite Hkept. eauto.
Qed.

(** X14. An additional tile file is loaded and cut into chunks once: after a
    call for the file has returned, the same call returns the same chunk
    index again, and a call for any position of the file leaves the
    importer as it is. *)
Theorem read_additional_chunk_idx_again fn x y dirname st k st' :
  _read_additional_chunk_idx fn x y dirname st = (inr k, st') →
  _read_additional_chunk_idx fn x y dirname st' = (inr k, st') ∧
  ∀ x' y', (_read_additional_chunk_idx fn x' y' dirname st').2 = st'.
Proof.
  intros [[img Himg] Hk]%read_additional_chunk_idx_inr. split.
  - by rewrite (read_additional_chunk_idx_loaded _ _ _ _ _ _ Himg), Hk.
  - intros x' y'. by rewrite (read_additional_chunk_idx_loaded _ _ _ _ _ _ Himg).
Qed.

(** X15. The file of an additional tile is registered under the base name of
    its path but looked up under the name the document gives: when the two
    differ, as for a file in a subdirectory, a load that succeeds is
    followed by a [KeyError]. *)
Theorem read_additional_chunk_idx_other_basename fn x y dirname st st1 :
  _tileset_file_map st !! fn = None →
  os_path_basename (os_path_join dirname fn) ≠ fn →
  _open_tileset (os_path_join dirname fn) st = (inr tt, st1) →
  _read_additional_chunk_idx fn x y dirname st = (inl KeyError, st1).
Proof.
  intros Hnew Hname Hopen.
  pose proof Hopen as (_ & pil & _ & _ & _ & _ & _ & _ & Hmap & _)%open_tileset_inr.
  unfold _read_additional_chunk_idx, mbind, M_bind. unfold gets at 1. unfold bind at 1.
  rewrite Hnew. unfold bind at 1. unfold bind at 1. rewrite Hopen.
  unfold gets at 1. unfold bind at 1.
  rewrite Hmap, lookup_insert_ne, Hnew by done. done.
Qed.

End AdditionalTiles.

(** ** Methods that only read *)

Lemma bind_inr_pure {A B} (m : M A) (k : A → M B) st b st' :
  pure m → bind m k st = (inr b, st') →
  ∃ a, m st = (inr a, st) ∧ k a st = (inr b, st').
Proof.
  intros Hm (a & st1 & Hrun & Hk)%bind_inr. specialize (Hm st).
  rewrite Hrun in Hm. simpl in Hm. subst st1. eauto.
Qed.

Lemma pure_inr {A} (m : M A) st a st' : pure m → m st = (inr a, st') → st' = st.
Proof. intros Hm Hrun. specialize (Hm st). by rewrite Hrun in Hm. Qed.

Section Pure.
Context `{K : Constants} `{W : World}.

Lemma pure_validate_xml_attribs ele attribs : pure (validate_xml_attribs ele attribs).
Proof. apply preserves_validate_xml_attribs; exact _. Qed.

Lemma pure_previous_tileset ts i : pure (_previous_tileset ts i).
Proof. apply preserves_previous_tileset; exact _. Qed.

Lemma pure_prepare_import_animation child : pure (_prepare_import_animation child).
Proof. apply preserves_prepare_import_animation; exact _. Qed.

(** The neighbor bits of a mapping are computed without touching the
    state. *)
Lemma pure_neighbor_bits (mapping : Element) (flags : list (string * Z)) (n0 : Z) :
  pure (for_fold flags n0 (fun n '(name, flag) =>
          s ← attr mapping name;
          v ← lift (py_int s);
          ret (if v =? 0 then n else Z.lor n flag))).
Proof. unfold pure. preserves_auto. Qed.

End Pure.

(** ** Mappings that return *)

Section MappingReturns.
Context `{K : Constants}.

(** A mapping that is accepted makes one call of [dma.set], with a
    variation from 0 to 2 and the chunk of the tile. *)
Lemma import_mapping_inr mapping chunk st u st' :
  _import_mapping mapping chunk st = (inr u, st') →
  ∃ typ n var_idx, 0 ≤ var_idx ≤ 2 ∧ Dma_set typ n var_idx chunk st = (inr tt, st').
Proof.
  unfold _import_mapping, mbind, M_bind. intros Hrun.
  apply bind_inr_pure in Hrun as (? & _ & Hrun);
    [|apply pure_validate_xml_attribs].
  apply bind_inr_pure in Hrun as (n & _ & Hrun); [|apply pure_neighbor_bits].
  apply bind_inr in Hrun as (t & s0 & [_ ->]%getitem_inr & Hrun).
  apply bind_inr in Hrun as (typ & s0 & Htyp & Hrun).
  assert (s0 = st) as ->.
  { repeat case_bool_decide; by injection Htyp as _ <-. }
  apply bind_inr in Hrun as (s & s0 & [_ ->]%getitem_inr & Hrun).
  apply bind_inr in Hrun as (var_idx & s0 & [_ ->]%lift_inr & Hrun).
  apply bind_inr in Hrun as (? & s0 & [Hvar ->]%raise_if_inr & Hrun).
  apply orb_false_iff in Hvar as [?%Z.ltb_ge ?%Z.ltb_ge].
  destruct u. exists typ, n, var_idx. split; [lia|done].
Qed.

(** A pattern test of a special mapping that returns has changed nothing
    or made one call of [dma.set_extra] with the chunk of the tile. *)
Lemma import_special_inr pattern t mapping chunk st u st' :
  _import_special pattern t mapping chunk st = (inr u, st') →
  st' = st ∨ ∃ index, Dma_set_extra t index chunk st = (inr tt, st').
Proof.
  unfold _import_special, mbind, M_bind. intros Hrun.
  apply bind_inr in Hrun as (identifier & s0 & [_ ->]%getitem_inr & Hrun).
  destruct (pattern identifier) as [group1|].
  - apply bind_inr in Hrun as (index & s0 & [_ ->]%lift_inr & Hrun).
    destruct u. eauto.
  - injection Hrun as _ <-. by left.
Qed.

End MappingReturns.

(** ** The invariant of the chunk pool *)

Lemma valid_index_grows st st' v :
  pool_grows st st' → valid_index st v → valid_index st' v.
Proof.
  unfold pool_grows, valid_index. intros Hgrow%prefix_length. lia.
Qed.

Section Invariant.
Context `{K : Constants} `{W : World}.

Lemma pool_invariant_setitem i v st u st' :
  pool_invariant st → valid_index st v →
  chunk_mappings_setitem i v st = (inr u, st') →
  pool_invariant st' ∧ _chunks st' = _chunks st.
Proof.
  intros (Hsized & Htable & Hmap) Hv Hrun. destruct u.
  apply chunk_mappings_setitem_inr in Hrun as (k & Hk & Hc & ->).
  split; [|done]. split; [done|]. split; [|done].
  rewrite Hc. by apply Forall_insert.
Qed.

Lemma pool_invariant_insert c st k st' :
  chunk_sized c → pool_invariant st →
  _insert_chunk_or_reuse c st = (inr k, st') →
  pool_invariant st' ∧ valid_index st' k ∧ pool_grows st st'.
Proof.
  intros Hc (Hsized & Htable & Hmap) Hrun.
  destruct (insert_chunk_or_reuse_run c st) as (n & s1 & Hrun' & Hcase).
  rewrite Hrun in Hrun'. injection Hrun' as -> ->.
  destruct Hcase as [[-> Hn]|[-> ->]].
  - split; [done|]. split; [unfold valid_index; lia|done].
  - assert (pool_grows st (with__chunks (_chunks st ++ [c]) st)) as Hgrow
      by (by apply prefix_app_r).
    split; [|split; [|done]].
    + split; [|split].
      * apply Forall_app. split; [done|]. by constructor.
      * eapply Forall_impl; [exact Htable|]. intros v. by apply valid_index_grows.
      * intros fn positions pos v Hfn Hpos.
        eapply valid_index_grows; [exact Hgrow|]. by eapply Hmap.
    + unfold valid_index. simpl. rewrite length_app. simpl. lia.
Qed.

End Invariant.

Section InvariantImport.
Context `{K : Constants} `{W : World}.

Lemma pool_invariant_record fn pos v positions st :
  pool_invariant st → valid_index st v →
  _tileset_chunk_map st !! fn = Some positions →
  pool_invariant (with__tileset_chunk_map
                    (<[fn := <[pos := v]> positions]> (_tileset_chunk_map st)) st).
Proof.
  intros (Hsized & Htable & Hmap) Hv Hfn. split; [done|]. split; [done|].
  intros fn' positions' pos' v'. simpl.
  intros [[<- <-]|[Hne Hfn']]%lookup_insert_Some.
  - intros [[<- <-]|[Hne Hpos]]%lookup_insert_Some; [done|]. by eapply Hmap.
  - by eapply Hmap.
Qed.

Lemma pool_invariant_open fn st u st' :
  pool_invariant st → _open_tileset fn st = (inr u, st') →
  pool_invariant st' ∧ _chunks st' = _chunks st.
Proof.
  intros (Hsized & Htable & Hmap)
         (_ & pil & _ & _ & _ & _ & _ & _ & _ & Hcm & Hchunks & Hheap & Href)%open_tileset_inr.
  split; [|done]. unfold pool_invariant, valid_index, chunk_mappings in *.
  rewrite Hchunks, Hheap, Href, Hcm. split; [done|]. split; [done|].
  intros fn' positions pos v [[<- <-]|[Hne Hfn']]%lookup_insert_Some; [done|].
  by eapply Hmap.
Qed.

Lemma pool_invariant_Dma_set_loop typ var_id chunk_index rules st u st' :
  pool_invariant st → valid_index st chunk_index →
  for_each rules (fun rule => Dma_set typ rule var_id chunk_index) st = (inr u, st') →
  pool_invariant st' ∧ _chunks st' = _chunks st.
Proof.
  intros Hinv Hv.
  apply (for_each_inr_invariant (fun s => pool_invariant s ∧ _chunks s = _chunks st));
    [|done].
  intros rule s u' s' _ [Hs Hchunks] Hset.
  apply pool_invariant_setitem in Hset as [Hs' Hchunks']; [|done|].
  - split; [done|congruence].
  - unfold valid_index in *. by rewrite Hchunks.
Qed.

Lemma pool_invariant_import_tileset_entry fn typ bx by_ w var_id prev_fn tileset entry
    st u st' :
  pool_invariant st →
  _import_tileset_entry fn typ bx by_ w var_id prev_fn tileset entry st = (inr u, st') →
  pool_invariant st'.
Proof.
  intros Hinv. destruct entry as [i rules].
  unfold _import_tileset_entry, mbind, M_bind. intros Hrun.
  apply bind_inr in Hrun as (? & s0 & [_ ->]%raise_if_inr & Hrun).
  apply bind_inr in Hrun as (k & s1 & Hindex & Hrun).
  assert (pool_invariant s1 ∧ valid_index s1 k) as [Hinv1 Hk].
  { destruct (_ && _).
    - apply bind_inr in Hindex as (chunk_map & s0 & [-> ->]%gets_inr & Hindex).
      apply bind_inr in Hindex as (prev & s0 & [Hprev ->]%getitem_inr & Hindex).
      apply getitem_inr in Hindex as [Hpos ->]. split; [done|].
      destruct prev_fn as [prev_fn|]; [|done]. simpl in Hprev.
      destruct Hinv as (_ & _ & Hmap). by eapply Hmap.
    - apply pool_invariant_insert in Hindex as (? & ? & _); [done| |done].
      unfold chunk_sized. simpl. split; ring. }
  apply bind_inr in Hrun as (chunk_map & s0 & [-> ->]%gets_inr & Hrun).
  apply bind_inr in Hrun as (positions & s0 & [Hfn ->]%getitem_inr & Hrun).
  apply bind_inr in Hrun as (? & s2 & ->%modify_inr & Hrun).
  apply pool_invariant_Dma_set_loop in Hrun as [? _]; [done| |done].
  by apply pool_invariant_record.
Qed.

Lemma pool_invariant_import_tileset fn rule_map typ bx by_ w h var_id prev_fn st u st' :
  pool_invariant st →
  _import_tileset fn rule_map typ bx by_ w h var_id prev_fn st = (inr u, st') →
  pool_invariant st'.
Proof.
  intros Hinv. unfold _import_tileset, mbind, M_bind. intros Hrun.
  apply bind_inr in Hrun as (file_map & s0 & [-> ->]%gets_inr & Hrun).
  apply bind_inr in Hrun as (? & s0 & [_ ->]%raise_if_inr & Hrun).
  apply bind_inr in Hrun as (chunk_map & s0 & [-> ->]%gets_inr & Hrun).
  apply bind_inr in Hrun as (? & s0 & [_ ->]%raise_if_inr & Hrun).
  apply bind_inr in Hrun as (tileset & s0 & [_ ->]%getitem_inr & Hrun).
  apply bind_inr in Hrun as (? & s0 & [_ ->]%raise_if_inr & Hrun).
  revert Hrun. apply for_each_inr_invariant; [|done].
  intros entry s u' s' _. apply pool_invariant_import_tileset_entry.
Qed.

Lemma pool_invariant_read_additional_chunk_idx fn x y dirname st k st' :
  pool_invariant st →
  _read_additional_chunk_idx fn x y dirname st = (inr k, st') →
  pool_invariant st' ∧ valid_index st' k.
Proof.
  intros Hinv. unfold _read_additional_chunk_idx, mbind, M_bind. intros Hrun.
  apply bind_inr in Hrun as (file_map & s0 & [-> ->]%gets_inr & Hrun).
  apply bind_inr in Hrun as ([] & s1 & Hload & Hrun).
  assert (pool_invariant s1) as Hinv1.
  { destruct (_tileset_file_map st !! fn) as [img|].
    - by injection Hload as <-.
    - apply bind_inr in Hload as (? & s2 & [Hinv2 _]%pool_invariant_open & Hload);
        [|done].
      apply bind_inr in Hload as (file_map & s0 & [-> ->]%gets_inr & Hload).
      apply bind_inr in Hload as (tileset & s0 & [_ ->]%getitem_inr & Hload).
      apply bind_inr in Hload as (rows & s0 & [_ ->]%lift_inr & Hload).
      revert Hload. apply for_each_inr_invariant; [|done].
      intros iy s u s' _ Hs Hrow.
      apply bind_inr in Hrow as (columns & s0 & [_ ->]%lift_inr & Hrow).
      revert Hrow. apply for_each_inr_invariant; [|done].
      intros ix s3 u' s3' _ Hs3 Hcell.
      apply bind_inr in Hcell as (chunk_index & s4 & Hins & Hcell).
      apply pool_invariant_insert in Hins as (Hs4 & Hindex & _); [|by split; simpl; lia|done].
      apply bind_inr in Hcell as (chunk_map & s0 & [-> ->]%gets_inr & Hcell).
      apply bind_inr in Hcell as (positions & s0 & [Hfn ->]%getitem_inr & Hcell).
      apply modify_inr in Hcell as ->. by apply pool_invariant_record. }
  apply bind_inr in Hrun as (chunk_map & s0 & [-> ->]%gets_inr & Hrun).
  apply bind_inr in Hrun as (positions & s0 & [Hfn ->]%getitem_inr & Hrun).
  apply getitem_inr in Hrun as [Hpos ->]. split; [done|].
  destruct Hinv1 as (_ & _ & Hmap). by eapply Hmap.
Qed.

Lemma pool_invariant_import_mapping mapping chunk st u st' :
  pool_invariant st → valid_index st chunk →
  _import_mapping mapping chunk st = (inr u, st') →
  pool_invariant st' ∧ _chunks st' = _chunks st.
Proof.
  intros Hinv Hchunk (typ & n & var_idx & _ & Hset)%import_mapping_inr.
  by eapply pool_invariant_setitem.
Qed.

Lemma pool_invariant_import_special pattern t mapping chunk st u st' :
  pool_invariant st → valid_index st chunk →
  _import_special pattern t mapping chunk st = (inr u, st') →
  pool_invariant st' ∧ _chunks st' = _chunks st.
Proof.
  intros Hinv Hchunk [->|[index Hset]]%import_special_inr; [done|].
  by eapply pool_invariant_setitem.
Qed.

Lemma pool_invariant_import_special_mapping mapping chunk st u st' :
  pool_invariant st → valid_index st chunk →
  _import_special_mapping mapping chunk st = (inr u, st') →
  pool_invariant st' ∧ _chunks st' = _chunks st.
Proof.
  intros Hinv Hchunk. unfold _import_special_mapping, mbind, M_bind. intros Hrun.
  apply bind_inr_pure in Hrun as (? & _ & Hrun); [|apply pure_validate_xml_attribs].
  apply bind_inr in Hrun as (? & s1 & [H1 E1]%pool_invariant_import_special & Hrun);
    [|done..].
  apply bind_inr in Hrun as (? & s2 & [H2 E2]%pool_invariant_import_special & Hrun);
    [|done|by unfold valid_index in *; rewrite E1].
  apply pool_invariant_import_special in Hrun as [H3 E3];
    [|done|by unfold valid_index in *; rewrite E2, E1].
  split; [done|congruence].
Qed.

Lemma pool_invariant_import_additional_tiles xml dirname st u st' :
  pool_invariant st →
  _import_additional_tiles xml dirname st = (inr u, st') →
  pool_invariant st'.
Proof.
  intros Hinv. unfold _import_additional_tiles.
  apply for_each_inr_invariant; [|done].
  intros tile s u' s' _ Hs. unfold mbind, M_bind. intros Hrun.
  apply bind_inr in Hrun as (? & s0 & [_ ->]%validate_xml_tag_inr & Hrun).
  apply bind_inr in Hrun as (? & s0 & [_ ->]%validate_xml_attribs_inr & Hrun).
  apply bind_inr in Hrun as (file & s0 & [_ ->]%getitem_inr & Hrun).
  apply bind_inr in Hrun as (sx & s0 & [_ ->]%getitem_inr & Hrun).
  apply bind_inr in Hrun as (tx & s0 & [_ ->]%lift_inr & Hrun).
  apply bind_inr in Hrun as (sy & s0 & [_ ->]%getitem_inr & Hrun).
  apply bind_inr in Hrun as (ty & s0 & [_ ->]%lift_inr & Hrun).
  apply bind_inr in Hrun
    as (chunk & s1 & [Hs1 Hchunk]%pool_invariant_read_additional_chunk_idx & Hrun);
    [|done].
  revert Hrun.
  apply (for_each_inr_invariant (fun s => pool_invariant s ∧ _chunks s = _chunks s1));
    [|done].
  intros mapping s2 u2 s2' _ [Hs2 Hchunks] Hmapping.
  assert (valid_index s2 chunk) as Hchunk2 by (unfold valid_index in *; by rewrite Hchunks).
  repeat case_bool_decide.
  - apply pool_invariant_import_mapping in Hmapping as [? ?]; [|done..].
    split; [done|congruence].
  - apply pool_invariant_import_special_mapping in Hmapping as [? ?]; [|done..].
    split; [done|congruence].
  - by injection Hmapping as _ <-.
Qed.

Lemma pool_invariant_import_child dirname acc child st acc' st' :
  pool_invariant st →
  _import_child dirname acc child st = (inr acc', st') →
  pool_invariant st'.
Proof.
  intros Hinv. destruct acc as [[[ani0 ani1] dur0] dur1].
  unfold _import_child, mbind, M_bind. intros Hrun.
  apply bind_inr in Hrun as ([[[b0 b1] e0] e1] & s1 & Hani & Hrun).
  assert (s1 = st) as ->.
  { destruct (bool_decide (tag child = ANIMATION)); [|by injection Hani as _ _ _ _ <-].
    apply bind_inr_pure in Hani as (? & _ & Hani); [|apply pure_validate_xml_attribs].
    apply bind_inr in Hani as (p & s0 & [_ ->]%getitem_inr & Hani).
    destruct (bool_decide (p = "10")); [|destruct (bool_decide (p = "11")); [|done]].
    - apply bind_inr_pure in Hani as ([c d] & _ & Hani);
        [|apply pure_prepare_import_animation].
      by injection Hani as _ _ _ _ <-.
    - apply bind_inr_pure in Hani as ([c d] & _ & Hani);
        [|apply pure_prepare_import_animation].
      by injection Hani as _ _ _ _ <-. }
  apply bind_inr in Hrun as (? & s2 & Htiles & Hrun). injection Hrun as _ <-.
  destruct (bool_decide (tag child = ADDITIONAL_TILES)).
  - by eapply pool_invariant_import_additional_tiles.
  - by injection Htiles as _ <-.
Qed.

Lemma pool_invariant_reset st : pool_invariant (__init__ st).2.
Proof.
  split; [|split].
  - simpl. by repeat constructor.
  - rewrite chunk_mappings_reset. apply Forall_replicate. unfold valid_index. simpl. lia.
  - intros fn positions pos v. simpl. by rewrite lookup_empty.
Qed.

Lemma pool_invariant_do_import_body dirname fn_xml fn_var0 fn_var1 fn_var2 st u st' :
  pool_invariant st →
  _do_import_body dirname fn_xml fn_var0 fn_var1 fn_var2 st = (inr u, st') →
  pool_invariant st'.
Proof.
  intros Hinv Hrun.
  apply do_import_body_inr in Hrun
    as (s1 & s2 & s3 & s4 & s5 & xml & s & ani0 & ani1 & dur0 & dur1 & _ & Ho0 & Ho1 & Ho2
        & _ & _ & _ & _ & Hbands & Hkids & Hfin).
  apply pool_invariant_open in Ho0 as [H1 _]; [|done].
  apply pool_invariant_open in Ho1 as [H2 _]; [|done].
  apply pool_invariant_open in Ho2 as [H3 _]; [|done].
  assert (pool_invariant s4) as H4.
  { revert Hbands. apply for_each_inr_invariant; [|done].
    intros [i fn] s0 u0 s0' _ Hs0. unfold mbind, M_bind. intros Hband.
    apply bind_inr_pure in Hband as (prev & _ & Hband); [|apply pure_previous_tileset].
    apply bind_inr in Hband as (? & s6 & Hs6%pool_invariant_import_tileset & Hband);
      [|done].
    apply bind_inr_pure in Hband as (prev' & _ & Hband); [|apply pure_previous_tileset].
    apply bind_inr in Hband as (? & s7 & Hs7%pool_invariant_import_tileset & Hband);
      [|done].
    apply bind_inr_pure in Hband as (prev'' & _ & Hband); [|apply pure_previous_tileset].
    by eapply pool_invariant_import_tileset. }
  assert (pool_invariant s5) as H5.
  { revert Hkids. unfold _import_children.
    apply (for_fold_inr_invariant (fun _ s => pool_invariant s)); [|done].
    intros acc child s0 acc' s0' _. apply pool_invariant_import_child. }
  by apply finalize_inr in Hfin as (img & chunks & tiles & palettes & _ & _ & ->).
Qed.

(** X16. After an import that returns, every entry of the table
    [dma.chunk_mappings] is the index of a chunk of the pool. *)
Theorem do_import_table_indices dirname fn_xml fn_var0 fn_var1 fn_var2 st st' :
  do_import dirname fn_xml fn_var0 fn_var1 fn_var2 st = (inr tt, st') →
  Forall (valid_index st') (chunk_mappings st').
Proof.
  intros Hrun%do_import_inr.
  apply pool_invariant_do_import_body in Hrun; [apply Hrun|apply pool_invariant_reset].
Qed.

(** X17. After an import that returns, every chunk of the pool is an image of
    [CHUNK_DIM] by [CHUNK_DIM] pixels. *)
Theorem do_import_pool_chunk_sized dirname fn_xml fn_var0 fn_var1 fn_var2 st st' :
  do_import dirname fn_xml fn_var0 fn_var1 fn_var2 st = (inr tt, st') →
  Forall chunk_sized (_chunks st').
Proof.
  intros Hrun%do_import_inr.
  apply pool_invariant_do_import_body in Hrun; [apply Hrun|apply pool_invariant_reset].
Qed.

End InvariantImport.

(** ** Pixels *)

Lemma concat_lookup_uniform {A} (rows : list (list A)) (n j i : nat) row :
  Forall (fun r => length r = n) rows → rows !! j = Some row → (i < n)%nat →
  concat rows !! (j * n + i)%nat = row !! i.
Proof.
  intros Hrows. revert j. induction Hrows as [|r rows Hr _ IH]; intros j Hj Hi; [done|].
  destruct j as [|j]; simpl in *.
  - injection Hj as ->. by rewrite lookup_app_l by lia.
  - rewrite lookup_app_r by lia. rewrite <- (IH j Hj Hi). f_equal. lia.
Qed.

Lemma concat_length_uniform {A} (rows : list (list A)) (n : nat) :
  Forall (fun r => length r = n) rows → length (concat rows) = (length rows * n)%nat.
Proof.
  induction 1 as [|r rows Hr _ IH]; [done|]. simpl. rewrite length_app. lia.
Qed.

Lemma raster_rows (pixel : Z → Z → Z) x0 y0 w h :
  Forall (fun r => length r = Z.to_nat w)
         ((fun y => (fun x => pixel x y) <$> seqZ x0 w) <$> seqZ y0 h).
Proof.
  apply Forall_fmap, Forall_forall. intros row _. simpl.
  by rewrite length_fmap, length_seqZ.
Qed.

Lemma raster_lookup pixel x0 y0 w h x y :
  0 ≤ x < w → 0 ≤ y < h →
  raster pixel x0 y0 w h !! Z.to_nat (y * w + x) = Some (pixel (x0 + x) (y0 + y)).
Proof.
  intros Hx Hy. unfold raster.
  replace (Z.to_nat (y * w + x)) with (Z.to_nat y * Z.to_nat w + Z.to_nat x)%nat by nia.
  rewrite (concat_lookup_uniform _ (Z.to_nat w) _ _
             ((fun x => pixel x (y0 + y)) <$> seqZ x0 w)).
  - rewrite list_lookup_fmap, (proj2 (lookup_seqZ _ _ _ (x0 + x))); [done|]. lia.
  - apply raster_rows.
  - rewrite list_lookup_fmap, (proj2 (lookup_seqZ _ _ _ (y0 + y))); [done|]. lia.
  - lia.
Qed.

Lemma raster_zeros x0 y0 w h :
  0 ≤ w → 0 ≤ h →
  raster (fun _ _ => 0) x0 y0 w h = replicate (Z.to_nat (w * h)) 0.
Proof.
  intros Hw Hh. symmetry. apply replicate_as_Forall. unfold raster. split.
  - rewrite (concat_length_uniform _ (Z.to_nat w)) by apply raster_rows.
    rewrite length_fmap, length_seqZ. nia.
  - apply Forall_concat, Forall_fmap, Forall_forall. intros y _. simpl.
    apply Forall_fmap, Forall_forall. by intros x _.
Qed.

(** The pixels of an image whose data are a raster of its size. *)
Lemma getpixel_raster im pixel x y :
  getdata im = raster pixel 0 0 (width im) (height im) →
  getpixel im x y
  = if (0 <=? x) && (x <? width im) && (0 <=? y) && (y <? height im)
    then pixel x y else 0.
Proof.
  intros Hdata. unfold getpixel. destruct (_ && _) eqn:Hin; [|done].
  repeat (apply andb_prop in Hin as [Hin ?]).
  rewrite Hdata, raster_lookup by lia. done.
Qed.

Lemma getpixel_outside im x y :
  ¬ (0 ≤ x < width im ∧ 0 ≤ y < height im) → getpixel im x y = 0.
Proof.
  intros Hout. unfold getpixel. destruct (_ && _) eqn:Hin; [|done].
  repeat (apply andb_prop in Hin as [Hin ?]). lia.
Qed.

(** A pixel of [im.paste(src, (ox, oy))]: the pixel of [src] inside the
    box, the pixel of [im] elsewhere. *)
Lemma getpixel_paste im src ox oy x y :
  0 ≤ x < width im → 0 ≤ y < height im →
  getpixel (paste im src ox oy) x y
  = if (ox <=? x) && (x <? ox + width src) && (oy <=? y) && (y <? oy + height src)
    then getpixel src (x - ox) (y - oy) else getpixel im x y.
Proof.
  intros Hx Hy.
  rewrite (getpixel_raster _ (fun x y =>
             if (ox <=? x) && (x <? ox + width src) && (oy <=? y) && (y <? oy + height src)
             then getpixel src (x - ox) (y - oy) else getpixel im x y)) by done.
  simpl.
  assert ((0 <=? x) && (x <? width im) && (0 <=? y) && (y <? height im) = true) as ->;
    [|done].
  repeat (apply andb_true_intro; split); lia.
Qed.

(** A pixel of a crop. *)
Lemma getpixel_crop im x0 y0 x1 y1 x y :
  0 ≤ x < x1 - x0 → 0 ≤ y < y1 - y0 →
  getpixel (crop im (x0, y0, x1, y1)) x y = getpixel im (x0 + x) (y0 + y).
Proof.
  intros Hx Hy. unfold getpixel at 1. simpl.
  assert ((0 <=? x) && (x <? x1 - x0) && (0 <=? y) && (y <? y1 - y0) = true) as ->.
  { repeat (apply andb_true_intro; split); lia. }
  by rewrite raster_lookup by lia.
Qed.

(** ** The merged image *)

Section Merge.
Context `{K : Constants} `{W : World}.

(** Pasting the chunks from position [k] on, side by side: the size and
    the palette of the image stay, the cells before [k] stay, and the cell
    of each chunk gets its pixels. *)
Lemma paste_chunks chunks (k : nat) img :
  0 < CHUNK_DIM → Forall chunk_sized chunks → height img = CHUNK_DIM →
  let merged := fold_left (fun img '(i, chunk) => paste img chunk (i * CHUNK_DIM) 0)
                          (enumerate_from (Z.of_nat k) chunks) img in
  width merged = width img ∧ height merged = height img ∧
  palette merged = palette img ∧
  (∀ x y, 0 ≤ x < Z.of_nat k * CHUNK_DIM → x < width img → 0 ≤ y < CHUNK_DIM →
     getpixel merged x y = getpixel img x y) ∧
  ∀ i c x y, chunks !! i = Some c → 0 ≤ x < CHUNK_DIM → 0 ≤ y < CHUNK_DIM →
    Z.of_nat (k + i) * CHUNK_DIM + x < width img →
    getpixel merged (Z.of_nat (k + i) * CHUNK_DIM + x) y = getpixel c x y.
Proof.
  intros Hdim Hsized. revert k img.
  induction Hsized as [|c chunks [Hcw Hch] _ IH]; intros k img Hheight; simpl.
  { by repeat split. }
  replace (Z.of_nat k + 1) with (Z.of_nat (S k)) by lia.
  destruct (IH (S k) (paste img c (Z.of_nat k * CHUNK_DIM) 0))
    as (Hw & Hh & Hp & Hbefore & Hcells); [done|]. simpl in Hw, Hh, Hp.
  split; [done|]. split; [done|]. split; [done|]. split.
  - intros x y Hx Hxw Hy. rewrite Hbefore by (simpl; lia).
    rewrite getpixel_paste by lia.
    assert ((Z.of_nat k * CHUNK_DIM <=? x) = false) as -> by (apply Z.leb_gt; lia).
    done.
  - intros [|i] c' x y Hc' Hx Hy Hxw; simpl in Hc'.
    + injection Hc' as <-. rewrite Nat.add_0_r in *.
      rewrite Hbefore by (simpl; lia). rewrite getpixel_paste by lia.
      rewrite Hcw, Hch.
      assert ((Z.of_nat k * CHUNK_DIM <=? Z.of_nat k * CHUNK_DIM + x)
              && (Z.of_nat k * CHUNK_DIM + x <? Z.of_nat k * CHUNK_DIM + CHUNK_DIM)
              && (0 <=? y) && (y <? 0 + CHUNK_DIM) = true) as ->.
      { repeat (apply andb_true_intro; split); lia. }
      f_equal; lia.
    + replace (k + S i)%nat with (S k + i)%nat in * by lia.
      by apply Hcells.
Qed.

(** X18. [_merge_chunks] needs a pool of at least two chunks: with fewer it
    raises [IndexError].  On a pool of two or more chunks of the chunk size
    it returns, without touching the importer, an image of one row of
    cells, as many as the pool has chunks, with the palette of chunk 1; the
    pixels of cell [i] are the pixels of chunk [i]. *)
Theorem merge_chunks_cells st :
  ((length (_chunks st) < 2)%nat → _merge_chunks st = (inl IndexError, st)) ∧
  ((2 ≤ length (_chunks st))%nat → 0 < CHUNK_DIM → Forall chunk_sized (_chunks st) →
   ∃ img c1,
     _merge_chunks st = (inr img, st) ∧
     width img = CHUNK_DIM * Z.of_nat (length (_chunks st)) ∧
     height img = CHUNK_DIM ∧
     _chunks st !! 1%nat = Some c1 ∧ palette img = palette c1 ∧
     ∀ i c x y, _chunks st !! i = Some c → 0 ≤ x < CHUNK_DIM → 0 ≤ y < CHUNK_DIM →
       getpixel img (Z.of_nat i * CHUNK_DIM + x) y = getpixel c x y).
Proof.
  unfold _merge_chunks. unfold_monad_goal. simpl. split.
  - intros Hlen. unfold py_getitem, py_index.
    destruct (_chunks st) as [|c0 [|c1 chunks]]; simpl in *; [done..|lia].
  - intros Hlen Hdim Hsized.
    destruct (lookup_lt_is_Some_2 (_chunks st) 1%nat) as [c1 Hc1]; [lia|].
    rewrite (py_getitem_inr _ 1 1%nat c1); [|unfold py_index|done].
    2:{ assert ((0 <=? 1) && (1 <? Z.of_nat (length (_chunks st))) = true) as ->; [|done].
        apply andb_true_intro. split; [done|]. apply Z.ltb_lt. lia. }
    simpl.
    set (new_img := putpalette _ _).
    destruct (paste_chunks (_chunks st) 0 new_img Hdim Hsized)
      as (Hw & Hh & Hp & _ & Hcells); [done|].
    unfold enumerate. change (Z.of_nat 0) with 0 in *.
    eexists _, c1. split; [done|]. split; [done|]. split; [done|]. split; [done|].
    split; [done|]. intros i c x y Hc Hx Hy.
    apply (Hcells i c x y Hc Hx Hy). simpl.
    apply lookup_lt_Some in Hc. nia.
Qed.

End Merge.

(** ** Empty cells of the first variation *)

Section FirstVariation.
Context `{K : Constants} `{W : World}.

(** The chunk the constructor puts into the pool has the pixels of the
    empty sentinel block. *)
Lemma initial_chunk_empty pal :
  0 ≤ CHUNK_DIM → getdata (Image_new_P pal CHUNK_DIM CHUNK_DIM) = EMPTY_IMAGE.
Proof.
  intros Hdim. simpl. rewrite raster_zeros by done. unfold EMPTY_IMAGE.
  do 2 f_equal. lia.
Qed.


End FirstVariation.

(** ** Mappings *)

Section MappingWrites.
Context `{K : Constants}.

Lemma validate_xml_attribs_run ele attribs st :
  Forall (fun a => is_Some (attrib ele !! a)) attribs →
  validate_xml_attribs ele attribs st = (inr tt, st).
Proof.
  unfold validate_xml_attribs.
  induction 1 as [|a attribs [s Hs] _ IH]; simpl; [done|].
  unfold raise_if. rewrite bool_decide_false by (by rewrite Hs). by unfold bind.
Qed.

Lemma neighbor_bits_run mapping flags values n0 st :
  Forall2 (fun (flag : string * Z) v => int_attribute mapping flag.1 v) flags values →
  for_fold flags n0 (fun n '(name, flag) =>
     s ← attr mapping name;
     v ← lift (py_int s);
     ret (if v =? 0 then n else Z.lor n flag)) st
  = (inr (Z.lor n0 (foldr Z.lor 0
            (zip_with (fun v (flag : string * Z) => if v =? 0 then 0 else flag.2)
                      values flags))), st).
Proof.
  intros Hattrs. revert n0.
  induction Hattrs as [|[name flag] v flags values (s & Hs & Hv) _ IH]; intros n0; simpl.
  - by rewrite Z.lor_0_r.
  - simpl in Hs. unfold_monad_goal. rewrite Hs. simpl. rewrite Hv. simpl.
    unfold_monad. rewrite IH. do 2 f_equal.
    destruct (v =? 0); [by rewrite Z.lor_0_l|by rewrite Z.lor_assoc].
Qed.

Lemma mapping_element_attribs mapping values t var_idx st :
  mapping_element mapping values t var_idx →
  validate_xml_attribs mapping
    [MAPPING__TYPE; MAPPING__nw; MAPPING__n; MAPPING__ne; MAPPING__e;
     MAPPING__se; MAPPING__s; MAPPING__sw; MAPPING__w; MAPPING__VARIATION] st
  = (inr tt, st).
Proof.
  intros (Hflags & Ht & (s & Hs & _)). apply validate_xml_attribs_run.
  assert (Forall (fun a => is_Some (attrib mapping !! a)) (neighbor_flags.*1)) as Hnames.
  { apply Forall_fmap. eapply Forall2_Forall_l; [exact Hflags|].
    apply Forall_forall. intros v _ [name flag] (s' & Hs' & _). simpl in *. eauto. }
  unfold neighbor_flags in Hnames. simpl in Hnames.
  constructor; [eauto|].
  repeat (apply Forall_cons_1 in Hnames as [? Hnames]; constructor; [done|]).
  constructor; [eauto|constructor].
Qed.

(** X20. A mapping element with a known type name and a variation from 0 to 2
    assigns the chunk of the tile to one entry of the table: the entry of
    the terrain type, of the pattern of neighbors the eight attributes stand
    for (an attribute counts when its number is not 0) and of the variation.
    Nothing else changes. *)
Theorem import_mapping_writes mapping chunk st values t typ var_idx k :
  mapping_element mapping values t var_idx →
  mapping_type t = Some typ →
  0 ≤ var_idx ≤ 2 →
  py_index (chunk_mappings st) (Dma_index typ (mapping_neighbors values) var_idx)
  = Some k →
  ∃ st', _import_mapping mapping chunk st = (inr tt, st') ∧
         erase st' = erase st ∧
         chunk_mappings st' = <[k := chunk]> (chunk_mappings st).
Proof.
  intros Helement Htyp Hvar Hk.
  pose proof (mapping_element_attribs _ _ _ _ st Helement) as Hvalid.
  destruct Helement as (Hflags & Ht & (s & Hs & Hv)).
  destruct (chunk_mappings_setitem_run _ chunk _ _ Hk) as (st' & Hrun & He & Hc).
  exists st'. split; [|done].
  unfold _import_mapping, mbind, M_bind.
  rewrite (bind_run _ _ _ _ _ Hvalid).
  rewrite (bind_run _ _ _ _ _ (neighbor_bits_run _ _ _ 0 st Hflags)).
  rewrite Z.lor_0_l. fold neighbor_flags. fold (mapping_neighbors values).
  unfold attr at 1. unfold getitem. rewrite Ht. unfold bind at 1, ret at 1.
  assert ((if bool_decide (t = MAPPING__TYPE__FLOOR) then ret FLOOR
           else if bool_decide (t = MAPPING__TYPE__WALL) then ret WALL
           else if bool_decide (t = MAPPING__TYPE__SECONDARY) then ret WATER
           else raise (ValueError (UnknownMappingType t))) st = (inr typ, st)) as Htype.
  { unfold mapping_type in Htyp. repeat case_bool_decide; by simplify_eq. }
  rewrite (bind_run _ _ _ _ _ Htype).
  unfold attr. rewrite Hs. unfold bind at 1. simpl. rewrite Hv.
  unfold bind at 1. simpl.
  assert ((var_idx <? 0) || (2 <? var_idx) = false) as ->.
  { apply orb_false_iff. split; apply Z.ltb_ge; lia. }
  unfold bind, raise_if, ret. exact Hrun.
Qed.

(** X21. A mapping element with an unknown type name, or with a variation other
    than 0, 1 and 2, is rejected with a [ValueError], and nothing has been
    written. *)
Theorem import_mapping_rejects mapping chunk st values t var_idx :
  mapping_element mapping values t var_idx →
  (mapping_type t = None →
   _import_mapping mapping chunk st = (inl (ValueError (UnknownMappingType t)), st)) ∧
  (is_Some (mapping_type t) → ¬ 0 ≤ var_idx ≤ 2 →
   _import_mapping mapping chunk st
   = (inl (ValueError (InvalidVariationIndex var_idx)), st)).
Proof.
  intros Helement.
  pose proof (mapping_element_attribs _ _ _ _ st Helement) as Hvalid.
  destruct Helement as (Hflags & Ht & (s & Hs & Hv)).
  split.
  - intros Htyp. unfold _import_mapping, mbind, M_bind.
    rewrite (bind_run _ _ _ _ _ Hvalid).
    rewrite (bind_run _ _ _ _ _ (neighbor_bits_run _ _ _ 0 st Hflags)).
    unfold attr at 1. unfold getitem. rewrite Ht. unfold bind at 1, ret at 1.
    unfold mapping_type in Htyp. unfold bind at 1.
    by repeat case_bool_decide.
  - intros [typ Htyp] Hvar. unfold _import_mapping, mbind, M_bind.
    rewrite (bind_run _ _ _ _ _ Hvalid).
    rewrite (bind_run _ _ _ _ _ (neighbor_bits_run _ _ _ 0 st Hflags)).
    unfold attr at 1. unfold getitem. rewrite Ht. unfold bind at 1, ret at 1.
    assert ((if bool_decide (t = MAPPING__TYPE__FLOOR) then ret FLOOR
             else if bool_decide (t = MAPPING__TYPE__WALL) then ret WALL
             else if bool_decide (t = MAPPING__TYPE__SECONDARY) then ret WATER
             else raise (ValueError (UnknownMappingType t))) st = (inr typ, st)) as Htype.
    { unfold mapping_type in Htyp. repeat case_bool_decide; by simplify_eq. }
    rewrite (bind_run _ _ _ _ _ Htype).
    unfold attr. rewrite Hs. unfold bind at 1. simpl. rewrite Hv.
    unfold bind at 1. simpl.
    assert ((var_idx <? 0) || (2 <? var_idx) = true) as ->; [|done].
    apply orb_true_iff. rewrite !Z.ltb_lt. lia.
Qed.

End MappingWrites.

(** ** What an import hands to the target models *)

#[local] Instance dpc_kept_preorder : PreOrder dpc_kept.
Proof.
  split; [by intros st|]. intros st1 st2 st3. unfold dpc_kept. congruence.
Qed.

Lemma dpc_kept_setitem i v : preserves dpc_kept (chunk_mappings_setitem i v).
Proof.
  intros st. destruct (chunk_mappings_setitem i v st) as [[e|[]] st'] eqn:Hs; simpl.
  - by apply chunk_mappings_setitem_inl in Hs as ->.
  - by apply chunk_mappings_setitem_inr in Hs as (k & _ & _ & ->).
Qed.

Section Publish.
Context `{K : Constants} `{W : World}.

(** [_merge_chunks] reads the pool only. *)
Lemma merge_chunks_pool st1 st2 :
  _chunks st1 = _chunks st2 → (_merge_chunks st1).1 = (_merge_chunks st2).1.
Proof.
  intros Hpool. unfold _merge_chunks. unfold_monad_goal. simpl. rewrite Hpool.
  by destruct (py_getitem (_chunks st2) 1).
Qed.

Lemma merge_chunks_same_pool st1 st2 img :
  _chunks st1 = _chunks st2 → _merge_chunks st1 = (inr img, st1) →
  _merge_chunks st2 = (inr img, st2).
Proof.
  intros Hpool Hrun. pose proof (merge_chunks_pool _ _ Hpool) as Hsame.
  rewrite Hrun in Hsame. simpl in Hsame.
  destruct (_merge_chunks st2) as [r s] eqn:Hmerge. simpl in Hsame. subst r.
  by apply merge_chunks_state in Hmerge as ->.
Qed.

(** X22. After an import that returns, the [dpc] model has been handed the
    merged image of the chunk pool; its chunks, the tiles of [dpci] and the
    palettes of [dpl] are what the codec [pil_to_chunks] returned for that
    image, and [dpla] holds the sequences and the durations the importer
    collected. *)
Theorem do_import_publishes dirname fn_xml fn_var0 fn_var1 fn_var2 st st' :
  do_import dirname fn_xml fn_var0 fn_var1 fn_var2 st = (inr tt, st') →
  ∃ img,
    _merge_chunks st' = (inr img, st') ∧
    Dpc_pil_to_chunks (dpc_chunks st) img
    = inr (dpc_chunks st', dpci_tiles st', dpl_palettes st') ∧
    dpla_colors st' = _dpla__colors st' ∧
    dpla_durations_per_frame_for_colors st' = _dpla__durations_per_frame_for_colors st'.
Proof.
  intros Hrun%do_import_inr.
  apply do_import_body_inr in Hrun
    as (s1 & s2 & s3 & s4 & s5 & xml & s & ani0 & ani1 & dur0 & dur1 & _ & Ho0 & Ho1 & Ho2
        & _ & _ & _ & _ & Hbands & Hkids & Hfin).
  assert (∀ fn, preserves dpc_kept (_open_tileset fn)) as Hopen.
  { intros fn. by apply preserves_open_tileset; try exact _. }
  assert (∀ fn rm typ bx by_ w h v p,
            preserves dpc_kept (_import_tileset fn rm typ bx by_ w h v p)) as Hband.
  { intros. apply preserves_import_tileset; try exact _; try done.
    apply dpc_kept_setitem. }
  assert (dpc_chunks s5 = dpc_chunks st) as Hdpc.
  { pose proof (Hopen fn_var0 (with__dirname (Some dirname) (__init__ st).2)) as H0.
    pose proof (Hopen fn_var1 s1) as H1. pose proof (Hopen fn_var2 s2) as H2.
    rewrite Ho0 in H0. rewrite Ho1 in H1. rewrite Ho2 in H2.
    assert (dpc_kept (with__xml (Some xml) s3) s4) as H3.
    { eassert (preserves dpc_kept (for_each _ _)) as Hloop; cycle 1.
      { specialize (Hloop (with__xml (Some xml) s3)).
        unfold mbind, M_bind in Hloop. rewrite Hbands in Hloop. exact Hloop. }
      apply preserves_for_each; [exact _|]. intros [i fn].
      repeat (apply preserves_mbind;
              [exact _
              |first [apply preserves_previous_tileset; exact _ | apply Hband]
              |intros ?]).
      apply Hband. }
    assert (preserves dpc_kept (_import_children xml dirname)) as H4.
    { apply preserves_import_children; try exact _; try done. apply dpc_kept_setitem. }
    specialize (H4 s4). rewrite Hkids in H4. unfold dpc_kept in *. simpl in *. congruence. }
  apply finalize_inr in Hfin as (img & chunks & tiles & palettes & Hmerge & Hcodec & ->).
  exists img. split; [|split; [|done]].
  - eapply merge_chunks_same_pool; [|exact Hmerge]. done.
  - rewrite <- Hdpc. exact Hcodec.
Qed.

End Publish.

(** ** Bands that are imported *)

Section Band.
Context `{K : Constants} `{W : World}.

(** The end of a round of the loop of [_import_tileset] on a table that
    has the entries of the rule: the cell is recorded, no record is lost,
    and the table keeps its length. *)
Lemma import_tileset_entry_tail fn typ var_id cell chunk_index rules st :
  is_Some (_tileset_chunk_map st !! fn) →
  (∀ rule, rule ∈ rules →
     is_Some (py_index (chunk_mappings st) (Dma_index typ rule var_id))) →
  ∃ st',
    (chunk_map ← gets _tileset_chunk_map;
     positions ← getitem (chunk_map !! fn);
     modify (with__tileset_chunk_map
               (<[fn := <[cell := chunk_index]> positions]> chunk_map));;
     for_each rules (fun rule => Dma_set typ rule var_id chunk_index)) st
    = (inr tt, st') ∧
    recorded st' fn cell ∧
    (∀ q c, recorded st q c → recorded st' q c) ∧
    length (chunk_mappings st') = length (chunk_mappings st).
Proof.
  intros [positions Hfn] Hin. unfold_monad. rewrite Hfn. simpl.
  destruct (for_each_Dma_set typ var_id chunk_index rules
              (with__tileset_chunk_map
                 (<[fn := <[cell := chunk_index]> positions]> (_tileset_chunk_map st))
                 st) Hin) as (st' & Hrun & He & Hlen & _).
  exists st'. split; [done|].
  pose proof (f_equal _tileset_chunk_map He) as Hmap. simpl in Hmap.
  unfold recorded. rewrite Hmap. split; [|split; [|done]].
  - rewrite lookup_insert_eq. simpl. rewrite lookup_insert_eq. eauto.
  - intros q c. destruct (decide (q = fn)) as [->|Hne].
    + rewrite lookup_insert_eq, Hfn. simpl.
      destruct (decide (c = cell)) as [->|Hc].
      * rewrite lookup_insert_eq. eauto.
      * by rewrite lookup_insert_ne.
    + by rewrite lookup_insert_ne.
Qed.

Lemma import_tileset_entry_returns fn typ bx by_ w var_id prev_fn tileset i rules st :
  w ≠ 0 →
  is_Some (_tileset_chunk_map st !! fn) →
  (∀ rule, rule ∈ rules →
     is_Some (py_index (chunk_mappings st) (Dma_index typ rule var_id))) →
  (0 < var_id → ∃ p, prev_fn = Some p ∧ recorded st p (band_cell bx by_ w i)) →
  ∃ st',
    _import_tileset_entry fn typ bx by_ w var_id prev_fn tileset (i, rules) st
    = (inr tt, st') ∧
    recorded st' fn (band_cell bx by_ w i) ∧
    (∀ q c, recorded st q c → recorded st' q c) ∧
    length (chunk_mappings st') = length (chunk_mappings st).
Proof.
  intros Hw Hfn Hin Hprev. unfold _import_tileset_entry, band_cell in *.
  apply Z.eqb_neq in Hw.
  set (x := bx + i `mod` w) in *. set (y := by_ + i `div` w) in *.
  set (cropped := crop tileset _).
  destruct ((0 <? var_id) && _) eqn:Hcond.
  - apply andb_prop in Hcond as [Hvar%Z.ltb_lt _].
    destruct (Hprev Hvar) as (p & -> & [k Hk]).
    destruct (import_tileset_entry_tail fn typ var_id (x, y) k rules st
                Hfn Hin) as (st' & Hrun & Hrest).
    exists st'. split; [|done]. rewrite <- Hrun.
    unfold_monad. rewrite Hw. simpl in *.
    destruct (_tileset_chunk_map st !! p) as [prev|]; [|done]. simpl in *.
    by rewrite Hk.
  - destruct (insert_chunk_or_reuse_run cropped st) as (n & s1 & Hins & Hs1).
    assert (_tileset_chunk_map s1 = _tileset_chunk_map st
            ∧ chunk_mappings s1 = chunk_mappings st) as [Hmap Htable].
    { by destruct Hs1 as [[-> _]|[-> _]]. }
    destruct (import_tileset_entry_tail fn typ var_id (x, y)
                (Z.of_nat n) rules s1) as (st' & Hrun & Hcell & Hmono & Hlen).
    { by rewrite Hmap. }
    { by rewrite Htable. }
    exists st'. split; [|split; [done|split]].
    + rewrite <- Hrun. unfold mbind, M_bind. unfold raise_if. rewrite Hw.
      unfold bind at 1. simpl. unfold bind at 1. by rewrite Hins.
    + intros q c Hq. apply Hmono. unfold recorded. by rewrite Hmap.
    + by rewrite Hlen, Htable.
Qed.

Lemma import_tileset_loop_returns fn typ bx by_ w var_id prev_fn tileset entries k st :
  w ≠ 0 →
  is_Some (_tileset_chunk_map st !! fn) →
  (∀ rules rule, rules ∈ entries → rule ∈ rules →
     is_Some (py_index (chunk_mappings st) (Dma_index typ rule var_id))) →
  (0 < var_id →
   ∃ p, prev_fn = Some p ∧
        ∀ j, k ≤ j < k + Z.of_nat (length entries) →
             recorded st p (band_cell bx by_ w j)) →
  ∃ st',
    for_each (enumerate_from k entries)
      (_import_tileset_entry fn typ bx by_ w var_id prev_fn tileset) st
    = (inr tt, st') ∧
    (∀ j, k ≤ j < k + Z.of_nat (length entries) →
          recorded st' fn (band_cell bx by_ w j)) ∧
    (∀ q c, recorded st q c → recorded st' q c) ∧
    length (chunk_mappings st') = length (chunk_mappings st).
Proof.
  intros Hw. revert k st.
  induction entries as [|rules entries IH]; intros k st Hfn Hin Hprev.
  { exists st. split; [done|]. split; [simpl; lia|done]. }
  destruct (import_tileset_entry_returns fn typ bx by_ w var_id prev_fn tileset k rules st)
    as (s1 & Hone & Hcell & Hmono1 & Hlen1); [done|done| | |].
  { intros rule Hrule. apply (Hin rules); [by left|done]. }
  { intros Hvar. destruct (Hprev Hvar) as (p & -> & Hp). exists p. split; [done|].
    apply Hp. simpl. lia. }
  destruct (IH (k + 1) s1) as (st' & Hrest & Hcells & Hmono & Hlen).
  { destruct Hfn as [positions Hfn]. specialize (Hmono1 fn). unfold recorded in *.
    destruct (_tileset_chunk_map s1 !! fn); [done|].
    simpl in Hcell. by destruct Hcell. }
  { intros rules' rule Hrules Hrule.
    rewrite (py_index_length _ (chunk_mappings st)) by done.
    apply (Hin rules'); [by right|done]. }
  { intros Hvar. destruct (Hprev Hvar) as (p & -> & Hp). exists p. split; [done|].
    intros j Hj. apply Hmono1, Hp. simpl. lia. }
  exists st'. split; [|split; [|split]].
  - simpl. by rewrite (bind_run _ _ _ _ _ Hone).
  - intros j Hj. simpl in Hj.
    destruct (decide (j = k)) as [->|Hne]; [by apply Hmono|].
    apply Hcells. lia.
  - intros q c Hq. by apply Hmono, Hmono1.
  - by rewrite Hlen, Hlen1.
Qed.

(** X23. [_import_tileset] returns for a file that is loaded and passes the
    size check, in a band of a width other than 0, on a table that has the
    entries of all patterns of the rule table for the variation, when, for
    a variation after the first, the previous file has an index recorded
    for every cell of the band.  After the call the file has an index
    recorded for every cell of the band (what the next variation needs), no
    record of any file is lost, and the table has kept its length. *)
Theorem import_tileset_returns fn rule_map typ bx by_ w h var_id prev_fn st tileset :
  _tileset_file_map st !! fn = Some tileset →
  is_Some (_tileset_chunk_map st !! fn) →
  by_ + h ≤ height tileset → bx + w ≤ width tileset →
  w ≠ 0 →
  (∀ entry rule, entry ∈ rule_map → rule ∈ entry.2 →
     is_Some (py_index (chunk_mappings st) (Dma_index typ rule var_id))) →
  (0 < var_id →
   ∃ p, prev_fn = Some p ∧
        ∀ j, 0 ≤ j < Z.of_nat (length rule_map) → recorded st p (band_cell bx by_ w j)) →
  ∃ st',
    _import_tileset fn rule_map typ bx by_ w h var_id prev_fn st = (inr tt, st') ∧
    (∀ j, 0 ≤ j < Z.of_nat (length rule_map) → recorded st' fn (band_cell bx by_ w j)) ∧
    (∀ q c, recorded st q c → recorded st' q c) ∧
    length (chunk_mappings st') = length (chunk_mappings st).
Proof.
  intros Hfile [positions Hmap] Hh Hwidth Hw Hin Hprev.
  rewrite (import_tileset_unfold _ _ _ _ _ _ _ _ _ _ _ _ Hfile Hmap).
  assert ((height tileset <? by_ + h) = false) as -> by (apply Z.ltb_ge; lia).
  assert ((width tileset <? bx + w) = false) as -> by (apply Z.ltb_ge; lia).
  simpl.
  destruct (import_tileset_loop_returns fn typ bx by_ w var_id prev_fn tileset
              (snd <$> rule_map) 0 st) as (st' & Hrun & Hcells & Hrest);
    [done|by eexists| | |].
  - intros rules rule (entry & -> & Hentry)%list_elem_of_fmap Hrule. by eapply Hin.
  - intros Hvar. destruct (Hprev Hvar) as (p & -> & Hp). exists p. split; [done|].
    intros j Hj. rewrite length_fmap in Hj. apply Hp. lia.
  - exists st'. split; [done|]. split; [|done].
    intros j Hj. apply Hcells. rewrite length_fmap. lia.
Qed.

End Band.

(** ** Cutting an additional image into chunks *)

(** A loop whose rounds return and keep an invariant returns. *)
Lemma for_each_total {A} (I : State → Prop) (R : relation State) `{!PreOrder R}
    (P : A → State → Prop) (l : list A) body st :
  (∀ a s, a ∈ l → I s → ∃ s', body a s = (inr tt, s') ∧ I s' ∧ R s s' ∧ P a s') →
  (∀ a s s', R s s' → P a s → P a s') →
  I st →
  ∃ st', for_each l body st = (inr tt, st') ∧ I st' ∧ R st st' ∧ ∀ a, a ∈ l → P a st'.
Proof.
  intros Hbody Hstable. revert st. induction l as [|a l IH]; intros st Hst.
  { exists st. split; [done|]. split; [done|]. split; [done|].
    by intros a ?%elem_of_nil. }
  destruct (Hbody a st) as (s1 & Hone & Hs1 & HR1 & HP1); [by left|done|].
  destruct IH with (st := s1) as (st' & Hrest & Hst' & HR & HP); [|done|].
  { intros b s Hb. apply Hbody. by right. }
  exists st'. split; [|split; [done|split; [by etrans|]]].
  - simpl. by rewrite (bind_run _ _ _ _ _ Hone).
  - intros b [->|Hb]%elem_of_cons; [by eapply Hstable|by apply HP].
Qed.

Lemma for_each_total_post {A} (I : State → Prop) (R : relation State) `{!PreOrder R}
    (P : A → State → Prop) (Q : State → Prop) (l : list A) body st :
  (∀ a s, a ∈ l → I s → ∃ s', body a s = (inr tt, s') ∧ I s' ∧ R s s' ∧ P a s') →
  (∀ a s s', R s s' → P a s → P a s') →
  I st →
  (∀ st', I st' → R st st' → (∀ a, a ∈ l → P a st') → Q st') →
  ∃ st', for_each l body st = (inr tt, st') ∧ Q st'.
Proof.
  intros Hbody Hstable Hst Hpost.
  destruct (for_each_total I R P l body st Hbody Hstable Hst) as (st' & ? & ? & ? & ?).
  exists st'. auto.
Qed.

(** The members of [range(0, stop, step)] for a positive step: the
    multiples of the step below [stop]. *)
Lemma py_range_multiples stop step :
  0 < step →
  ∃ l, py_range 0 stop step = inr l ∧
       ∀ a, a ∈ l ↔ ∃ j, a = j * step ∧ 0 ≤ j ∧ j * step < stop.
Proof.
  intros Hstep. unfold py_range.
  assert ((step =? 0) = false) as -> by (apply Z.eqb_neq; lia).
  assert ((0 <? step) = true) as -> by (by apply Z.ltb_lt).
  eexists. split; [done|]. intros a. rewrite list_elem_of_fmap.
  set (n := (stop - 0 + step - 1) `div` step).
  split.
  - intros (k & -> & Hk%elem_of_seq). exists (Z.of_nat k).
    split; [lia|]. split; [lia|].
    assert (Z.of_nat k < n) as Hlt by lia.
    assert (Z.of_nat k + 1 ≤ n) as Hle by lia.
    assert ((Z.of_nat k + 1) * step ≤ stop - 0 + step - 1); [|lia].
    etrans; [apply Z.mul_le_mono_nonneg_r; [lia|exact Hle]|].
    unfold n. rewrite Z.mul_comm. apply Z.mul_div_le. lia.
  - intros (j & -> & Hj & Hlt). exists (Z.to_nat j). split; [lia|].
    apply elem_of_seq. split; [lia|]. simpl.
    assert (j + 1 ≤ n); [|lia]. unfold n.
    apply Z.div_le_lower_bound; lia.
Qed.

Section CutImage.
Context `{K : Constants} `{W : World}.

#[local] Instance cut_step_preorder fn : PreOrder (cut_step fn).
Proof.
  split.
  - intros st. split; [reflexivity|done].
  - intros st1 st2 st3 [G1 R1] [G2 R2]. split; [by etrans|]. intros cell Hc. auto.
Qed.

(** One round of the inner loop, for the column [ix] of the row [iy]. *)
Lemma read_additional_chunk_idx_cell fn pil cx cy st :
  compares_pixel_contents → 0 < CHUNK_DIM →
  positions_of fn pil st →
  ∃ st',
    (chunk_index ←
       _insert_chunk_or_reuse
         (crop pil (cx * CHUNK_DIM, cy * CHUNK_DIM,
                    cx * CHUNK_DIM + CHUNK_DIM, cy * CHUNK_DIM + CHUNK_DIM));
     chunk_map ← gets _tileset_chunk_map;
     positions ← getitem (chunk_map !! fn);
     modify (with__tileset_chunk_map
               (<[fn := <[((cx * CHUNK_DIM) `div` CHUNK_DIM,
                           (cy * CHUNK_DIM) `div` CHUNK_DIM) := chunk_index]>
                          positions]> chunk_map))) st
    = (inr tt, st') ∧
    positions_of fn pil st' ∧ cut_step fn st st' ∧ recorded st' fn (cx, cy).
Proof.
  intros Hcompare Hdim (positions & Hfn & Hpos).
  rewrite !Z.div_mul by lia.
  destruct (_insert_chunk_or_reuse_spec Hcompare
              (crop pil (cx * CHUNK_DIM, cy * CHUNK_DIM,
                         cx * CHUNK_DIM + CHUNK_DIM, cy * CHUNK_DIM + CHUNK_DIM)) st)
    as (k & s1 & Hins & Hfirst & Hgrow & Hcase).
  assert (_tileset_chunk_map s1 = _tileset_chunk_map st) as Hmap.
  { unfold _insert_chunk_or_reuse in Hins. unfold_monad. simpl in Hins.
    destruct (find_chunk 0 (_chunks st) _); by injection Hins as _ <-. }
  assert (_tileset_chunk_map s1 !! fn = Some positions) as Hfn1 by (by rewrite Hmap).
  exists (with__tileset_chunk_map
            (<[fn := <[(cx, cy) := Z.of_nat k]> positions]> (_tileset_chunk_map s1)) s1).
  split.
  { unfold mbind, M_bind. rewrite (bind_run _ _ _ _ _ Hins).
    unfold_monad_goal. simpl. by rewrite Hfn1. }
  split; [|split].
  - exists (<[(cx, cy) := Z.of_nat k]> positions). simpl.
    rewrite lookup_insert_eq. split; [done|].
    intros cell v [[<- <-]|[Hne Hv]]%lookup_insert_Some.
    + by exists k.
    + destruct (Hpos cell v Hv) as (k' & -> & Hk'). exists k'. split; [done|].
      by eapply first_index_prefix.
  - split; [done|]. intros cell. unfold recorded. simpl.
    rewrite lookup_insert_eq, Hfn. simpl.
    destruct (decide (cell = (cx, cy))) as [->|Hne].
    + rewrite lookup_insert_eq. eauto.
    + by rewrite lookup_insert_ne.
  - unfold recorded. simpl. rewrite lookup_insert_eq. simpl.
    rewrite lookup_insert_eq. eauto.
Qed.

(** The inner loop, for the row [cy]. *)
Lemma read_additional_chunk_idx_row fn pil cy st :
  compares_pixel_contents → 0 < CHUNK_DIM →
  positions_of fn pil st →
  ∃ st',
    (columns ← lift (py_range 0 (width pil) CHUNK_DIM);
     for_each columns (fun ix =>
       chunk_index ←
         _insert_chunk_or_reuse
           (crop pil (ix, cy * CHUNK_DIM, ix + CHUNK_DIM, cy * CHUNK_DIM + CHUNK_DIM));
       chunk_map ← gets _tileset_chunk_map;
       positions ← getitem (chunk_map !! fn);
       modify (with__tileset_chunk_map
                 (<[fn := <[(ix `div` CHUNK_DIM, (cy * CHUNK_DIM) `div` CHUNK_DIM)
                            := chunk_index]> positions]> chunk_map)))) st
    = (inr tt, st') ∧
    positions_of fn pil st' ∧ cut_step fn st st' ∧
    ∀ cx, 0 ≤ cx → cx * CHUNK_DIM < width pil → recorded st' fn (cx, cy).
Proof.
  intros Hcompare Hdim Hst.
  destruct (py_range_multiples (width pil) CHUNK_DIM Hdim) as (columns & Hcolumns & Hcolumn).
  rewrite Hcolumns. unfold mbind, M_bind. unfold lift at 1. unfold bind at 1, ret at 1.
  apply (for_each_total_post (positions_of fn pil) (cut_step fn)
           (fun ix s => recorded s fn (ix `div` CHUNK_DIM, cy))); [| |done|].
  - intros ix s Hix Hs. apply Hcolumn in Hix as (cx & -> & _ & _).
    destruct (read_additional_chunk_idx_cell fn pil cx cy s Hcompare Hdim Hs)
      as (s' & Hcell & ? & ? & Hrec).
    exists s'. split; [exact Hcell|]. split; [done|]. split; [done|].
    by rewrite Z.div_mul by lia.
  - intros ix s s' [_ Hkeep]. apply Hkeep.
  - intros st' Hst' Hstep Hcells. split; [done|]. split; [done|].
    intros cx Hcx Hlt. rewrite <- (Z.div_mul cx CHUNK_DIM) by lia.
    apply Hcells, Hcolumn. eauto.
Qed.


End CutImage.

(** ** Special mappings write one slot *)

Lemma strip_prefix_compatible p1 p2 s r1 r2 :
  strip_prefix p1 s = Some r1 → strip_prefix p2 s = Some r2 →
  prefix_compatible p1 p2 = true.
Proof.
  revert p2 s. induction p1 as [|a p1 IH]; intros [|b p2] [|c s]; simpl; try done.
  destruct (Ascii.eqb a c) eqn:Hac; [|done].
  destruct (Ascii.eqb b c) eqn:Hbc; [|done].
  apply Ascii.eqb_eq in Hac as ->. apply Ascii.eqb_eq in Hbc as ->.
  rewrite Ascii.eqb_refl. simpl. apply IH.
Qed.

(** An identifier matches at most one of the three patterns. *)
Lemma extra_slot_pattern_exclusive t t' s group1 :
  t ≠ t' → extra_slot_pattern t s = Some group1 → extra_slot_pattern t' s = None.
Proof.
  intros Hne Hmatch.
  destruct (extra_slot_pattern t' s) as [group1'|] eqn:Hmatch'; [|done].
  assert (∀ t s g, extra_slot_pattern t s = Some g →
                   is_Some (strip_prefix (extra_slot_literal t) s)) as Hprefix.
  { intros t0 s0 g. destruct t0; cbn [extra_slot_pattern extra_slot_literal];
      unfold PATTERN_FLOOR1, PATTERN_FLOOR2, PATTERN_WALL_OR_VOID,
        re_match_literal_digits;
      (destruct (strip_prefix _ s0); [eauto|done]). }
  destruct (Hprefix _ _ _ Hmatch) as [r Hr].
  destruct (Hprefix _ _ _ Hmatch') as [r' Hr'].
  pose proof (strip_prefix_compatible _ _ _ _ _ Hr Hr') as Hcompatible.
  by destruct t, t'.
Qed.

Section SpecialMappingEffect.
Context `{K : Constants}.

Lemma import_special_cases pattern t mapping chunk st r st' :
  _import_special pattern t mapping chunk st = (r, st') →
  (∃ e, r = inl e ∧ st' = st) ∨
  (∃ identifier, attrib mapping !! SPECIAL_MAPPING__IDENTIFIER = Some identifier ∧
     (pattern identifier = None ∧ r = inr tt ∧ st' = st ∨
      ∃ group1 index, pattern identifier = Some group1 ∧ r = inr tt ∧
                      Dma_set_extra t index chunk st = (inr tt, st'))).
Proof.
  unfold _import_special. unfold_monad_goal.
  destruct (attrib mapping !! SPECIAL_MAPPING__IDENTIFIER) as [identifier|]; simpl.
  2:{ intros [= <- <-]. left. eauto. }
  destruct (pattern identifier) as [group1|] eqn:Hmatch.
  2:{ intros [= <- <-]. right. exists identifier. split; [done|]. by left. }
  destruct (py_int group1) as [e|index]; simpl.
  { intros [= <- <-]. left. eauto. }
  intros Hset. destruct r as [e|[]].
  - left. exists e. split; [done|]. by eapply chunk_mappings_setitem_inl.
  - right. exists identifier. split; [done|]. right. by exists group1, index.
Qed.

(** X25. The [SPECIAL_MAPPING] branch assigns the chunk of the tile to at most
    one extra slot, and when it raises it has assigned nothing. *)
Theorem import_special_mapping_one_slot mapping chunk st r st' :
  _import_special_mapping mapping chunk st = (r, st') →
  match r with
  | inl _ => st' = st
  | inr _ => st' = st ∨ ∃ t index, Dma_set_extra t index chunk st = (inr tt, st')
  end.
Proof.
  unfold _import_special_mapping, mbind, M_bind. intros Hrun.
  unfold bind at 1 in Hrun.
  destruct (validate_xml_attribs mapping [SPECIAL_MAPPING__IDENTIFIER] st)
    as [[e|[]] s0] eqn:Hvalid.
  { injection Hrun as <- <-.
    pose proof (pure_validate_xml_attribs mapping [SPECIAL_MAPPING__IDENTIFIER] st) as Hp.
    by rewrite Hvalid in Hp. }
  apply pure_inr in Hvalid as ->; [|apply pure_validate_xml_attribs].
  unfold bind at 1 in Hrun.
  destruct (_import_special PATTERN_FLOOR1 FLOOR1 mapping chunk st) as [r1 s1] eqn:H1.
  apply import_special_cases in H1
    as [(e & -> & ->)|(identifier & Hid & [(N1 & -> & ->)|(g & index & M1 & -> & W1)])].
  { by injection Hrun as <- <-. }
  - unfold bind at 1 in Hrun.
    destruct (_import_special PATTERN_FLOOR2 FLOOR2 mapping chunk st) as [r2 s2] eqn:H2.
    apply import_special_cases in H2
      as [(e & -> & ->)|(identifier' & Hid' & [(N2 & -> & ->)|(g & index & M2 & -> & W2)])].
    { by injection Hrun as <- <-. }
    + apply import_special_cases in Hrun
        as [(e & -> & ->)|(identifier'' & _ & [(_ & -> & ->)|(g & index & _ & -> & W3)])];
        [done|by left|]. right. eauto.
    + assert (identifier' = identifier) as -> by congruence.
      rewrite (import_special_no_match _ _ _ _ _ _ Hid) in Hrun.
      * injection Hrun as <- <-. right. eauto.
      * by apply (extra_slot_pattern_exclusive FLOOR2 WALL_OR_VOID _ g).
  - unfold bind at 1 in Hrun.
    rewrite (import_special_no_match _ _ _ _ _ _ Hid) in Hrun
      by (by apply (extra_slot_pattern_exclusive FLOOR1 FLOOR2 _ g)).
    rewrite (import_special_no_match _ _ _ _ _ _ Hid) in Hrun
      by (by apply (extra_slot_pattern_exclusive FLOOR1 WALL_OR_VOID _ g)).
    injection Hrun as <- <-. right. eauto.
Qed.

End SpecialMappingEffect.

(** ** Loads that are rejected *)

Section OpenRejects.
Context `{W : World}.

(** X26. [_open_tileset] rejects a file that does not exist, before it does
    anything; it rejects an image that is not indexed, and an indexed image
    whose palette is not one of 256 RGB colors.  A rejected image is
    registered under its base name all the same; the pool, the palette of
    the session and the table are as before. *)
Theorem open_tileset_rejects fn st :
  (os_path_exists fn = false →
   _open_tileset fn st = (inl (ValueError (MissingFile fn)), st)) ∧
  (∀ pil, os_path_exists fn = true → Image_open fn = inr pil →
     mode pil ≠ "P" ∨ palette_mode pil ≠ "RGB" ∨ length (palette pil) ≠ 768%nat →
     ∃ st',
       _open_tileset fn st
       = (inl (ValueError (if bool_decide (mode pil = "P")
                           then PaletteNot256RGB (os_path_basename fn)
                           else NotIndexed (os_path_basename fn))), st') ∧
       _tileset_file_map st' !! os_path_basename fn = Some pil ∧
       _chunks st' = _chunks st ∧ _palette st' = _palette st ∧
       chunk_mappings st' = chunk_mappings st).
Proof.
  split.
  - intros Hex. unfold _open_tileset, _assert_file_exists. unfold_monad_goal.
    by rewrite Hex.
  - intros pil Hex Himg Hbad. unfold _open_tileset, _assert_file_exists.
    unfold_monad_goal. rewrite Hex, Himg. simpl.
    destruct (decide (mode pil = "P")) as [Hmode|Hmode].
    + rewrite (bool_decide_false (mode pil ≠ "P")) by (by intros []).
      rewrite (bool_decide_true (mode pil = "P")) by done.
      assert (bool_decide (palette_mode pil ≠ "RGB")
              || bool_decide (Z.of_nat (length (palette pil)) ≠ 256 * 3) = true) as ->.
      { destruct Hbad as [?|[Hpm|Hlen]]; [done| |].
        - by rewrite (bool_decide_true _ Hpm).
        - rewrite (bool_decide_true (Z.of_nat _ ≠ _)) by lia. apply orb_true_r. }
      eexists. split; [done|]. simpl. by rewrite lookup_insert_eq.
    + rewrite (bool_decide_true (mode pil ≠ "P")) by done.
      rewrite (bool_decide_false (mode pil = "P")) by done.
      eexists. split; [done|]. simpl. by rewrite lookup_insert_eq.
Qed.

End OpenRejects.

(** ** The images of a session *)

#[local] Instance session_kept_preorder : PreOrder session_kept.
Proof.
  split; [by intros st|].
  intros st1 st2 st3 [??] [??]. unfold session_kept. split; congruence.
Qed.

Lemma session_kept_setitem i v : preserves session_kept (chunk_mappings_setitem i v).
Proof.
  intros st. destruct (chunk_mappings_setitem i v st) as [[e|[]] st'] eqn:Hs; simpl.
  - by apply chunk_mappings_setitem_inl in Hs as ->.
  - by apply chunk_mappings_setitem_inr in Hs as (k & _ & _ & ->).
Qed.

Lemma images_share_palette_kept st st' :
  session_kept st st' → images_share_palette st → images_share_palette st'.
Proof.
  intros [Hfiles Hpal] Hst fn img. rewrite Hfiles, Hpal. apply Hst.
Qed.

Section Images.
Context `{K : Constants} `{W : World}.

Lemma images_share_palette_open fn st u st' :
  images_share_palette st → _open_tileset fn st = (inr u, st') →
  images_share_palette st'.
Proof.
  intros Hst (_ & pil & _ & Hmode & Hpm & Hlen & Hold & Hpal & Hfiles & _)%open_tileset_inr.
  intros fn' img. rewrite Hfiles, Hpal.
  intros [[<- <-]|[Hne Himg]]%lookup_insert_Some; [done|].
  destruct (Hst _ _ Himg) as (? & ? & ? & Hsession).
  apply Hold in Hsession. repeat split; try done. congruence.
Qed.

Lemma session_kept_import_tileset fn rule_map typ bx by_ w h var_id prev_fn :
  preserves session_kept (_import_tileset fn rule_map typ bx by_ w h var_id prev_fn).
Proof.
  apply preserves_import_tileset; try exact _; try done. apply session_kept_setitem.
Qed.

Lemma images_share_palette_read fn x y dirname st k st' :
  images_share_palette st →
  _read_additional_chunk_idx fn x y dirname st = (inr k, st') →
  images_share_palette st'.
Proof.
  intros Hst. unfold _read_additional_chunk_idx, mbind, M_bind. intros Hrun.
  apply bind_inr in Hrun as (file_map & s0 & [-> ->]%gets_inr & Hrun).
  apply bind_inr in Hrun as ([] & s1 & Hload & Hrun).
  apply bind_inr in Hrun as (chunk_map & s0 & [-> ->]%gets_inr & Hrun).
  apply bind_inr in Hrun as (positions & s0 & [_ ->]%getitem_inr & Hrun).
  apply getitem_inr in Hrun as [_ ->].
  destruct (_tileset_file_map st !! fn) as [img|]; [by injection Hload as <-|].
  apply bind_inr in Hload as (? & s2 & Hopen%images_share_palette_open & Hload); [|done].
  apply bind_inr in Hload as (file_map & s0 & [-> ->]%gets_inr & Hload).
  apply bind_inr in Hload as (tileset & s0 & [_ ->]%getitem_inr & Hload).
  apply bind_inr in Hload as (rows & s0 & [_ ->]%lift_inr & Hload).
  eapply images_share_palette_kept; [|exact Hopen].
  eassert (preserves session_kept (for_each rows _)) as Hcut; cycle 1.
  { specialize (Hcut s2). rewrite Hload in Hcut. exact Hcut. }
  assert (∀ c, preserves session_kept (_insert_chunk_or_reuse c)) as Hins.
  { intros c. by apply preserves_insert_chunk_or_reuse; try exact _. }
  apply preserves_for_each; [exact _|]. intros iy.
  apply preserves_bind; [exact _|apply preserves_lift; exact _|]. intros ?.
  apply preserves_for_each; [exact _|]. intros ?.
  apply preserves_bind; [exact _|apply Hins|]. intros ?.
  apply preserves_bind; [exact _|apply preserves_gets; exact _|]. intros ?.
  apply preserves_bind; [exact _|apply preserves_getitem; exact _|]. intros ?.
  by apply preserves_modify.
Qed.

Lemma images_share_palette_additional_tiles xml dirname st u st' :
  images_share_palette st →
  _import_additional_tiles xml dirname st = (inr u, st') →
  images_share_palette st'.
Proof.
  intros Hst. unfold _import_additional_tiles.
  apply for_each_inr_invariant; [|done].
  intros tile s u' s' _ Hs. unfold mbind, M_bind. intros Hrun.
  apply bind_inr in Hrun as (? & s0 & [_ ->]%validate_xml_tag_inr & Hrun).
  apply bind_inr in Hrun as (? & s0 & [_ ->]%validate_xml_attribs_inr & Hrun).
  apply bind_inr in Hrun as (file & s0 & [_ ->]%getitem_inr & Hrun).
  apply bind_inr in Hrun as (sx & s0 & [_ ->]%getitem_inr & Hrun).
  apply bind_inr in Hrun as (tx & s0 & [_ ->]%lift_inr & Hrun).
  apply bind_inr in Hrun as (sy & s0 & [_ ->]%getitem_inr & Hrun).
  apply bind_inr in Hrun as (ty & s0 & [_ ->]%lift_inr & Hrun).
  apply bind_inr in Hrun as (chunk & s1 & Hs1%images_share_palette_read & Hrun); [|done].
  eapply images_share_palette_kept; [|exact Hs1].
  eassert (preserves session_kept (for_each (children tile) _)) as Hmappings; cycle 1.
  { specialize (Hmappings s1). rewrite Hrun in Hmappings. exact Hmappings. }
  apply preserves_for_each; [exact _|]. intros mapping.
  repeat case_bool_decide.
  - apply preserves_import_mapping; [exact _|]. apply session_kept_setitem.
  - apply preserves_import_special_mapping; [exact _|]. apply session_kept_setitem.
  - apply preserves_ret. exact _.
Qed.

Lemma images_share_palette_import_child dirname acc child st acc' st' :
  images_share_palette st →
  _import_child dirname acc child st = (inr acc', st') →
  images_share_palette st'.
Proof.
  intros Hst. destruct acc as [[[ani0 ani1] dur0] dur1].
  unfold _import_child, mbind, M_bind. intros Hrun.
  apply bind_inr in Hrun as ([[[b0 b1] e0] e1] & s1 & Hani & Hrun).
  assert (s1 = st) as ->.
  { destruct (bool_decide (tag child = ANIMATION)); [|by injection Hani as _ _ _ _ <-].
    apply bind_inr_pure in Hani as (? & _ & Hani); [|apply pure_validate_xml_attribs].
    apply bind_inr in Hani as (p & s0 & [_ ->]%getitem_inr & Hani).
    destruct (bool_decide (p = "10")); [|destruct (bool_decide (p = "11")); [|done]].
    - apply bind_inr_pure in Hani as ([c d] & _ & Hani);
        [|apply pure_prepare_import_animation].
      by injection Hani as _ _ _ _ <-.
    - apply bind_inr_pure in Hani as ([c d] & _ & Hani);
        [|apply pure_prepare_import_animation].
      by injection Hani as _ _ _ _ <-. }
  apply bind_inr in Hrun as (? & s2 & Htiles & Hrun). injection Hrun as _ <-.
  destruct (bool_decide (tag child = ADDITIONAL_TILES)).
  - by eapply images_share_palette_additional_tiles.
  - by injection Htiles as _ <-.
Qed.

(** X27. After an import that returns, every image the importer has
    registered, the three tile sheets and the files of the additional
    tiles, is an indexed image with a palette of 256 RGB colors, and all of
    them have the palette of the session. *)
Theorem do_import_images_share_palette dirname fn_xml fn_var0 fn_var1 fn_var2 st st' :
  do_import dirname fn_xml fn_var0 fn_var1 fn_var2 st = (inr tt, st') →
  images_share_palette st'.
Proof.
  intros Hrun%do_import_inr.
  apply do_import_body_inr in Hrun
    as (s1 & s2 & s3 & s4 & s5 & xml & s & ani0 & ani1 & dur0 & dur1 & _ & Ho0 & Ho1 & Ho2
        & _ & _ & _ & _ & Hbands & Hkids & Hfin).
  assert (images_share_palette (with__dirname (Some dirname) (__init__ st).2)) as H0.
  { intros fn img. simpl. by rewrite lookup_empty. }
  apply images_share_palette_open in Ho0; [|done].
  apply images_share_palette_open in Ho1; [|done].
  apply images_share_palette_open in Ho2; [|done].
  assert (images_share_palette s4) as H4.
  { eapply images_share_palette_kept; [|exact Ho2].
    eassert (preserves session_kept (for_each _ _)) as Hloop; cycle 1.
    { specialize (Hloop (with__xml (Some xml) s3)).
      unfold mbind, M_bind in Hloop. rewrite Hbands in Hloop. exact Hloop. }
    apply preserves_for_each; [exact _|]. intros [i fn].
    repeat (apply preserves_mbind;
            [exact _
            |first [apply preserves_previous_tileset; exact _
                   |apply session_kept_import_tileset]
            |intros ?]).
    apply session_kept_import_tileset. }
  assert (images_share_palette s5) as H5.
  { revert Hkids. unfold _import_children.
    apply (for_fold_inr_invariant (fun _ s => images_share_palette s)); [|done].
    intros acc child s0 acc' s0' _. apply images_share_palette_import_child. }
  by apply finalize_inr in Hfin as (img & chunks & tiles & palettes & _ & _ & ->).
Qed.

(** X28. After an import that returns, chunk 0 of the pool is the chunk the
    constructor created. *)
Theorem do_import_first_chunk dirname fn_xml fn_var0 fn_var1 fn_var2 st st' :
  do_import dirname fn_xml fn_var0 fn_var1 fn_var2 st = (inr tt, st') →
  _chunks st' !! 0%nat = Some (Image_new_P PIL_default_palette CHUNK_DIM CHUNK_DIM).
Proof.
  intros Hrun%do_import_inr.
  assert (preserves pool_grows (_do_import_body dirname fn_xml fn_var0 fn_var1 fn_var2))
    as Hgrow.
  { apply preserves_do_import_body; try exact _; try (by unfold pool_grows).
    - intros c s. by apply prefix_app_r.
    - apply pool_grows_setitem. }
  specialize (Hgrow (__init__ st).2). rewrite Hrun in Hgrow.
  unfold pool_grows in Hgrow. simpl in Hgrow.
  by eapply prefix_lookup_Some in Hgrow.
Qed.

End Images.

(** * The theorems on the example packages *)

(** The rollback on a package whose document is rejected after the three
    tile sheets have been imported into the table. *)
Lemma do_import_rollback_witness :
  let r := @do_import small_constants (example_world bad_document)
             "dir" "tileset.xml" "var0.png" "var1.png" "var2.png" fresh_state in
  r.1 = inl (ValueError UnsupportedAnimationPalette) ∧
  dma_chunk_mappings r.2 = dma_chunk_mappings fresh_state ∧
  chunk_mappings r.2 = chunk_mappings fresh_state.
Proof.
  split; [vm_compute; reflexivity|].
  apply (@do_import_rollback small_constants (example_world bad_document)
           "dir" "tileset.xml" "var0.png" "var1.png" "var2.png" fresh_state
           (ValueError UnsupportedAnimationPalette)).
  - unfold valid_reference. simpl. lia.
  - vm_compute. reflexivity.
Defined.



(** The same import by a new importer and by a used one with equal target
    models. *)
Lemma do_import_deterministic_witness :
  let r1 := @do_import small_constants (example_world good_document)
              "dir" "tileset.xml" "var0.png" "var1.png" "var2.png" fresh_state in
  let r2 := @do_import small_constants (example_world good_document)
              "dir" "tileset.xml" "var0.png" "var1.png" "var2.png" used_state in
  r1.1 = inr tt ∧
  (r1.1 = r2.1 ∧ _chunks r1.2 = _chunks r2.2 ∧ same_targets r1.2 r2.2).
Proof.
  split; [vm_compute; reflexivity|].
  apply (@do_import_deterministic small_constants (example_world good_document)
           "dir" "tileset.xml" "var0.png" "var1.png" "var2.png"
           fresh_state used_state).
  - unfold valid_reference. simpl. lia.
  - unfold valid_reference. simpl. lia.
  - unfold same_targets. repeat split.
Defined.

(** Loading a third sheet with another palette. *)
Lemma open_tileset_palette_mismatch_witness :
  let st := (for_each ["var0.png"; "var1.png"]
               (@_open_tileset (example_world good_document)) fresh_state).2 in
  ∃ st', @_open_tileset (example_world good_document) "other.png" st
         = (inl (ValueError (PaletteMismatch "other.png")), st') ∧
         _chunks st' = _chunks st.
Proof.
  apply (@open_tileset_palette_mismatch (example_world good_document)
           "var0.png" ["var1.png"] "other.png" fresh_state _ sheet0
           sheet_other_palette).
  - reflexivity.
  - vm_compute. reflexivity.
  - reflexivity.
  - reflexivity.
  - reflexivity.
  - reflexivity.
  - reflexivity.
  - vm_compute. reflexivity.
  - intros H. vm_compute in H. discriminate H.
Defined.

Ltac well_formed :=
  repeat first
    [ reflexivity
    | discriminate
    | apply conj
    | apply Forall_cons
    | apply Forall_nil
    | eexists ].





(** * The further properties on the example packages *)

Lemma do_import_failure_keeps_targets_witness :
  let r := @do_import small_constants (example_world bad_document)
             "dir" "tileset.xml" "var0.png" "var1.png" "var2.png" used_state in
  r.1 = inl (ValueError UnsupportedAnimationPalette) ∧ targets_kept used_state r.2.
Proof.
  split; [vm_compute; reflexivity|].
  apply (@do_import_failure_keeps_targets small_constants (example_world bad_document)
           "dir" "tileset.xml" "var0.png" "var1.png" "var2.png" used_state
           (ValueError UnsupportedAnimationPalette)).
  vm_compute. reflexivity.
Defined.

Lemma do_import_keeps_table_size_witness :
  length (chunk_mappings
            (@do_import small_constants (example_world good_document)
               "dir" "tileset.xml" "var0.png" "var1.png" "var2.png" used_state).2)
  = 2400%nat.
Proof.
  apply (@do_import_keeps_table_size small_constants (example_world good_document)
           "dir" "tileset.xml" "var0.png" "var1.png" "var2.png" used_state).
  unfold valid_reference. simpl. lia.
Defined.

Lemma do_import_success_new_table_witness :
  let r := @do_import small_constants (example_world good_document)
             "dir" "tileset.xml" "var0.png" "var1.png" "var2.png" used_state in
  dma_chunk_mappings r.2 = 2%nat ∧
  _dma__original_chunk_mappings r.2 = 1%nat ∧
  ∀ p, (p < 2)%nat → heap r.2 !! p = heap used_state !! p.
Proof.
  apply (@do_import_success_new_table small_constants (example_world good_document)
           "dir" "tileset.xml" "var0.png" "var1.png" "var2.png" used_state).
  vm_compute. reflexivity.
Defined.

Lemma do_import_animation_shape_witness :
  let r := @do_import small_constants (example_world good_document)
             "dir" "tileset.xml" "var0.png" "var1.png" "var2.png" fresh_state in
  length (dpla_colors r.2) = 32%nat ∧
  ∃ dur0 dur1,
    dpla_durations_per_frame_for_colors r.2 = replicate 16 dur0 ++ replicate 16 dur1.
Proof.
  apply (@do_import_animation_shape small_constants (example_world good_document)
           "dir" "tileset.xml" "var0.png" "var1.png" "var2.png" fresh_state).
  vm_compute. reflexivity.
Defined.

Lemma do_import_success_document_witness :
  @os_path_exists (example_world good_document) "tileset.xml" = true ∧
  ∃ xml s, @ElementTree_parse (example_world good_document) "tileset.xml" = inr xml ∧
           tag xml = @DUNGEON_TILESET small_constants ∧
           attrib xml !! @DIMENSIONS small_constants = Some s ∧
           py_int s = inr (@CHUNK_DIM small_constants).
Proof.
  apply (@do_import_success_document small_constants (example_world good_document)
           "dir" "tileset.xml" "var0.png" "var1.png" "var2.png" fresh_state
           (@do_import small_constants (example_world good_document)
              "dir" "tileset.xml" "var0.png" "var1.png" "var2.png" fresh_state).2).
  vm_compute. reflexivity.
Defined.

Lemma do_import_success_sheets_witness :
  ∃ pil0 pil1 pil2,
    Forall2 (fun fn pil =>
               @os_path_exists (example_world good_document) fn = true ∧
               @Image_open (example_world good_document) fn = inr pil ∧
               mode pil = "P" ∧ palette_mode pil = "RGB" ∧
               length (palette pil) = 768%nat ∧ palette pil = palette pil0)
            ["var0.png"; "var1.png"; "var2.png"] [pil0; pil1; pil2].
Proof.
  apply (@do_import_success_sheets small_constants (example_world good_document)
           "dir" "tileset.xml" "var0.png" "var1.png" "var2.png" fresh_state
           (@do_import small_constants (example_world good_document)
              "dir" "tileset.xml" "var0.png" "var1.png" "var2.png" fresh_state).2).
  vm_compute. reflexivity.
Defined.

Lemma import_children_unsupported_palette_witness :
  (∀ acc s, is_Some (attrib animation12 !! @ANIMATION__DURATION small_constants) →
     @_import_child small_constants (example_world bad_document) "dir" acc animation12 s
     = (inl (ValueError UnsupportedAnimationPalette), s)) ∧
  ∃ e st', @_import_children small_constants (example_world bad_document)
             bad_document "dir" fresh_state = (inl e, st').
Proof.
  apply (@import_children_unsupported_palette small_constants
           (example_world bad_document) bad_document "dir" animation12 "12" fresh_state).
  - apply list_elem_of_here.
  - reflexivity.
  - reflexivity.
  - discriminate.
  - discriminate.
Defined.

Lemma import_child_replaces_animation_witness :
  @_import_child small_constants (example_world good_document) "dir"
    (animation_track animation11, [], 5, 6) animation10 fresh_state
  = (inr (animation_track animation10, [], 20, 6), fresh_state).
Proof.
  apply (proj1 (@import_child_replaces_animation small_constants
                  (example_world good_document) "dir" animation10 20
                  (animation_track animation11) [] 5 6 fresh_state)).
  unfold well_formed_animation, well_formed_frame, well_formed_color, hex_color.
  simpl. well_formed.
Defined.

Lemma convert_hex_ignores_tail_witness :
  _convert_hex_str_color_to_tuple (Some "0a10ff and more") fresh_state
  = _convert_hex_str_color_to_tuple (Some "0a10ff") fresh_state.
Proof.
  apply (convert_hex_ignores_tail "0a10ff" " and more" fresh_state). reflexivity.
Defined.


Lemma read_additional_chunk_idx_again_witness :
  let st' := (@_read_additional_chunk_idx small_constants (example_world good_document)
                "extra.png" 0 0 "dir" second_sheet_state).2 in
  @_read_additional_chunk_idx small_constants (example_world good_document)
    "extra.png" 0 0 "dir" st' = (inr 2, st') ∧
  ∀ x' y', (@_read_additional_chunk_idx small_constants (example_world good_document)
              "extra.png" x' y' "dir" st').2 = st'.
Proof.
  apply (@read_additional_chunk_idx_again small_constants (example_world good_document)
           "extra.png" 0 0 "dir" second_sheet_state).
  vm_compute. reflexivity.
Defined.

Lemma do_import_table_indices_witness :
  let r := @do_import small_constants (example_world good_document)
             "dir" "tileset.xml" "var0.png" "var1.png" "var2.png" fresh_state in
  Forall (valid_index r.2) (chunk_mappings r.2).
Proof.
  apply (@do_import_table_indices small_constants (example_world good_document)
           "dir" "tileset.xml" "var0.png" "var1.png" "var2.png" fresh_state).
  vm_compute. reflexivity.
Defined.

Lemma do_import_pool_chunk_sized_witness :
  let r := @do_import small_constants (example_world good_document)
             "dir" "tileset.xml" "var0.png" "var1.png" "var2.png" fresh_state in
  Forall (@chunk_sized small_constants) (_chunks r.2).
Proof.
  apply (@do_import_pool_chunk_sized small_constants (example_world good_document)
           "dir" "tileset.xml" "var0.png" "var1.png" "var2.png" fresh_state).
  vm_compute. reflexivity.
Defined.

Lemma merge_chunks_cells_witness :
  ∃ img c1,
    @_merge_chunks small_constants (example_world good_document) second_sheet_state
    = (inr img, second_sheet_state) ∧
    width img = @CHUNK_DIM small_constants * 2 ∧
    height img = @CHUNK_DIM small_constants ∧
    _chunks second_sheet_state !! 1%nat = Some c1 ∧ palette img = palette c1 ∧
    ∀ i c x y, _chunks second_sheet_state !! i = Some c →
      0 ≤ x < @CHUNK_DIM small_constants → 0 ≤ y < @CHUNK_DIM small_constants →
      getpixel img (Z.of_nat i * @CHUNK_DIM small_constants + x) y = getpixel c x y.
Proof.
  apply (proj2 (@merge_chunks_cells small_constants (example_world good_document)
                  second_sheet_state)).
  - simpl. lia.
  - reflexivity.
  - repeat constructor.
Defined.


Ltac mapping_element_example :=
  unfold mapping_element, int_attribute;
  repeat first
    [ apply conj
    | apply Forall2_cons
    | apply Forall2_nil
    | eexists
    | reflexivity ].

Lemma import_mapping_writes_witness :
  ∃ st', @_import_mapping small_constants (example_mapping "wall" "2") 7 fresh_state
         = (inr tt, st') ∧
         erase st' = erase fresh_state ∧
         chunk_mappings st' = <[290%nat := 7]> (chunk_mappings fresh_state).
Proof.
  apply (@import_mapping_writes small_constants (example_mapping "wall" "2") 7
           fresh_state [1; 0; 0; 0; 0; 0; 0; 2] "wall" WALL 2 290%nat).
  - mapping_element_example.
  - reflexivity.
  - lia.
  - vm_compute. reflexivity.
Defined.

Lemma import_mapping_rejects_witness :
  @_import_mapping small_constants (example_mapping "wall" "3") 7 fresh_state
  = (inl (ValueError (InvalidVariationIndex 3)), fresh_state).
Proof.
  assert (@mapping_element small_constants (example_mapping "wall" "3")
            [1; 0; 0; 0; 0; 0; 0; 2] "wall" 3) as Helement
    by mapping_element_example.
  apply (proj2 (@import_mapping_rejects small_constants (example_mapping "wall" "3") 7
                  fresh_state [1; 0; 0; 0; 0; 0; 0; 2] "wall" 3 Helement)).
  - by eexists.
  - lia.
Defined.

Lemma read_additional_chunk_idx_other_basename_witness :
  let st1 := (@_open_tileset directory_world "dir/more/extra.png" fresh_state).2 in
  @_read_additional_chunk_idx small_constants directory_world
    "more/extra.png" 0 0 "dir" fresh_state = (inl KeyError, st1).
Proof.
  apply (@read_additional_chunk_idx_other_basename small_constants directory_world
           "more/extra.png" 0 0 "dir" fresh_state).
  - reflexivity.
  - vm_compute. discriminate.
  - vm_compute. reflexivity.
Defined.

Lemma do_import_publishes_witness :
  let r := @do_import small_constants (example_world good_document)
             "dir" "tileset.xml" "var0.png" "var1.png" "var2.png" fresh_state in
  ∃ img,
    @_merge_chunks small_constants (example_world good_document) r.2 = (inr img, r.2) ∧
    @Dpc_pil_to_chunks (example_world good_document) (dpc_chunks fresh_state) img
    = inr (dpc_chunks r.2, dpci_tiles r.2, dpl_palettes r.2) ∧
    dpla_colors r.2 = _dpla__colors r.2 ∧
    dpla_durations_per_frame_for_colors r.2 = _dpla__durations_per_frame_for_colors r.2.
Proof.
  apply (@do_import_publishes small_constants (example_world good_document)
           "dir" "tileset.xml" "var0.png" "var1.png" "var2.png" fresh_state).
  vm_compute. reflexivity.
Defined.

Lemma import_tileset_returns_witness :
  ∃ st',
    @_import_tileset small_constants (example_world good_document) "var1.png"
      (@REMAP_RULE_VARIATIONS small_constants) WALL 0 0 2 1 0 None second_sheet_state
    = (inr tt, st') ∧
    (∀ j, 0 ≤ j < 2 → recorded st' "var1.png" (band_cell 0 0 2 j)) ∧
    (∀ q c, recorded second_sheet_state q c → recorded st' q c) ∧
    length (chunk_mappings st') = length (chunk_mappings second_sheet_state).
Proof.
  apply (@import_tileset_returns small_constants (example_world good_document)
           "var1.png" (@REMAP_RULE_VARIATIONS small_constants) WALL 0 0 2 1 0 None
           second_sheet_state sheet1).
  - vm_compute. reflexivity.
  - vm_compute. by eexists.
  - simpl. lia.
  - simpl. lia.
  - discriminate.
  - intros entry rule Hentry Hrule.
    assert (rule = 0 ∨ rule = 1 ∨ rule = 2) as Hcases.
    { simpl in Hentry. repeat (apply elem_of_cons in Hentry as [-> | Hentry]);
        simpl in Hrule; repeat (apply elem_of_cons in Hrule as [-> | Hrule]);
        try (by apply elem_of_nil in Hrule); try (by apply elem_of_nil in Hentry);
        auto. }
    destruct Hcases as [-> | [-> | ->]]; vm_compute; by eexists.
  - intros Hvar. lia.
Defined.


Lemma import_special_mapping_one_slot_witness :
  let run := @_import_special_mapping small_constants
               (special_mapping "EOS_EXTRA_FLOOR1_3") 42 fresh_state in
  run.2 = fresh_state ∨
  ∃ t index, Dma_set_extra t index 42 fresh_state = (inr tt, run.2).
Proof.
  apply (@import_special_mapping_one_slot small_constants
           (special_mapping "EOS_EXTRA_FLOOR1_3") 42 fresh_state (inr tt)).
  vm_compute. reflexivity.
Defined.

Lemma open_tileset_rejects_witness :
  @_open_tileset directory_world "dir/none.png" fresh_state
  = (inl (ValueError (MissingFile "dir/none.png")), fresh_state) ∧
  ∃ st',
    @_open_tileset directory_world "dir/photo.png" fresh_state
    = (inl (ValueError (NotIndexed "photo.png")), st') ∧
    _tileset_file_map st' !! "photo.png" = Some photo ∧
    _chunks st' = _chunks fresh_state ∧ _palette st' = _palette fresh_state ∧
    chunk_mappings st' = chunk_mappings fresh_state.
Proof.
  split.
  - apply (proj1 (@open_tileset_rejects directory_world "dir/none.png" fresh_state)).
    reflexivity.
  - apply (proj2 (@open_tileset_rejects directory_world "dir/photo.png" fresh_state)
             photo).
    + reflexivity.
    + reflexivity.
    + left. discriminate.
Defined.

Lemma do_import_images_share_palette_witness :
  images_share_palette
    (@do_import small_constants (example_world good_document)
       "dir" "tileset.xml" "var0.png" "var1.png" "var2.png" fresh_state).2.
Proof.
  apply (@do_import_images_share_palette small_constants (example_world good_document)
           "dir" "tileset.xml" "var0.png" "var1.png" "var2.png" fresh_state).
  vm_compute. reflexivity.
Defined.

Lemma do_import_first_chunk_witness :
  _chunks (@do_import small_constants (example_world good_document)
             "dir" "tileset.xml" "var0.png" "var1.png" "var2.png" fresh_state).2
    !! 0%nat
  = Some (Image_new_P [] 2 2).
Proof.
  apply (@do_import_first_chunk small_constants (example_world good_document)
           "dir" "tileset.xml" "var0.png" "var1.png" "var2.png" fresh_state).
  vm_compute. reflexivity.
Defined.
